(** * TableJS: view-state engine, embedded and verified

    A shallow embedding of the computation kernels of TableJS
    (utilities: [createPaginationCeiling], [createPaginationItems],
    [toLimit], [toPaginate], [processPagination], [propertiesListener],
    [toSearch], [toFilter], [toSort], [validateVariable], [preInitialize],
    [postInitialize], [toInitialize], [toRender]; module: [HttpRequest],
    with the [beforeSend] and [afterSend] callbacks of a request;
    constructor: the grouping of the controls and the
    [table.properties] proxy), followed
    by the properties of the specification that concern them and by
    further properties of the code.

    The first part holds every definition, the second part every lemma. *)

From Stdlib Require Import ZArith List String Ascii Bool Lia Permutation Sorted.
From stdpp Require Import gmap strings pretty sorting.
Import ListNotations.

Set Warnings "-register-all".

(* ===================================================================== *)
(** * Part I: the embedding                                               *)
(* ===================================================================== *)

(** ** The language runtime the sources rely on *)

Module JS.

(** *** Numbers

    The numbers the kernels handle are row counts, page numbers and page
    sizes: integer-valued doubles far below 2^53, together with the
    non-finite values that [undefined / n], [n / 0] and [Number("*")]
    produce. *)
Inductive number : Type :=
| Num (z : Z)
| PInf
| NInf
| NaN.

Definition number_eqb (a b : number) : bool :=
  match a, b with
  | Num x, Num y => Z.eqb x y
  | PInf, PInf | NInf, NInf => true
  | _, _ => false   (* NaN is equal to nothing, itself included *)
  end.

Definition isNaN (a : number) : bool :=
  match a with NaN => true | _ => false end.

(** [Math.max(a, b)] and [Math.min(a, b)]: NaN is contagious. *)
Definition Math_max (a b : number) : number :=
  match a, b with
  | NaN, _ | _, NaN => NaN
  | PInf, _ | _, PInf => PInf
  | NInf, x | x, NInf => x
  | Num x, Num y => Num (Z.max x y)
  end.

Definition Math_min (a b : number) : number :=
  match a, b with
  | NaN, _ | _, NaN => NaN
  | NInf, _ | _, NInf => NInf
  | PInf, x | x, PInf => x
  | Num x, Num y => Num (Z.min x y)
  end.

(** [Math.round(a / b)] on integer-valued operands.  The quotient is
    rounded to the nearest integer, halves going up:
    [floor (a/b + 1/2) = floor ((2a + b) / 2b)] for [b > 0].  The
    function rounds the exact quotient, the code the double nearest to
    it; the two agree while [a] is below 2^52 in absolute value (a
    quotient that is not a half is at least [1 / 2b] away from one, its
    double at most [a / (2^53 b)] away from it), so for every row count
    a table can hold.  Statements about larger operands are not made. *)
Definition Math_round_div (a b : number) : number :=
  match a, b with
  | NaN, _ | _, NaN => NaN
  | Num x, Num y =>
      if (y =? 0)%Z then
        if (x =? 0)%Z then NaN else if (0 <? x)%Z then PInf else NInf
      else if (0 <? y)%Z then Num ((2 * x + y) / (2 * y))
      else Num ((2 * (- x) + (- y)) / (2 * (- y)))
  | Num _, (PInf | NInf) => Num 0
  | (PInf | NInf), (PInf | NInf) => NaN
  | PInf, Num y => if (0 <=? y)%Z then PInf else NInf
  | NInf, Num y => if (0 <=? y)%Z then NInf else PInf
  end.

(** *** Text

    A string is a sequence of code units; the embedding keeps the code
    units of the Latin-1 range, one [ascii] each. *)
Definition code (c : ascii) : N := N_of_ascii c.

(** [Canonicalize] of a case-insensitive, non-Unicode pattern: the
    character's upper case when that is a single code unit.  Within
    Latin-1 that is [a-z] and [à-þ] except [÷]; [ÿ] and [µ] leave the
    range on their own and [ß] has no single-unit upper case. *)
Definition Canonicalize (c : ascii) : ascii :=
  let n := code c in
  if ((97 <=? n) && (n <=? 122))%N then ascii_of_N (n - 32)
  else if ((224 <=? n) && (n <=? 254) && negb (n =? 247))%N
       then ascii_of_N (n - 32)
  else c.

Definition charEq (ignoreCase : bool) (a b : ascii) : bool :=
  if ignoreCase then Ascii.eqb (Canonicalize a) (Canonicalize b)
  else Ascii.eqb a b.

(** *** Regular expressions

    Every pattern the sources build comes out of
    [s.replace(/[.*+?^${}()|[\]\\]/g, "\\$&")]: pattern characters and
    identity escapes of syntax characters, nothing else.  [RegExp]
    keeps the decoded atoms, the two flags in use and [lastIndex]. *)
Definition isSyntaxCharacter (c : ascii) : bool :=
  existsb (Ascii.eqb c)
          (list_ascii_of_string ".*+?^${}()|[]\").

Record RegExp : Type := mkRegExp {
  atoms : list ascii;
  global : bool;
  ignoreCase : bool;
  lastIndex : nat
}.

(** The pattern grammar restricted to that fragment; anything else is
    outside the embedding ([None]). *)
Fixpoint parsePattern (src : list ascii) : option (list ascii) :=
  match src with
  | [] => Some []
  | c :: rest =>
      if Ascii.eqb c "\"%char then
        match rest with
        | d :: rest' =>
            if isSyntaxCharacter d
            then option_map (cons d) (parsePattern rest')
            else None
        | [] => None
        end
      else if isSyntaxCharacter c then None
      else option_map (cons c) (parsePattern rest)
  end.

(** [new RegExp(source, "gi")] *)
Definition new_RegExp_gi (source : string) : option RegExp :=
  option_map (fun a => mkRegExp a true true 0)
             (parsePattern (list_ascii_of_string source)).

(** [new RegExp(pattern)] on a RegExp object: same source and flags,
    [lastIndex] back at 0. *)
Definition new_RegExp_copy (pattern : RegExp) : RegExp :=
  mkRegExp (atoms pattern) (global pattern) (ignoreCase pattern) 0.

(** The atoms match at the head of the text. *)
Fixpoint matchHere (ic : bool) (pat text : list ascii) : bool :=
  match pat, text with
  | [], _ => true
  | _ :: _, [] => false
  | p :: pat', t :: text' => charEq ic p t && matchHere ic pat' text'
  end.

(** First index at or after [i] where the atoms match; [text] is the
    input from index [i] on. *)
Fixpoint matchFrom (ic : bool) (pat text : list ascii) (i : nat)
  : option nat :=
  if matchHere ic pat text then Some i
  else match text with
       | [] => None
       | _ :: text' => matchFrom ic pat text' (S i)
       end.

(** [RegExpBuiltinExec] as [test] uses it: a global pattern starts at
    [lastIndex], stores the end of the match there on success and 0 on
    failure; a non-global pattern starts at 0 and leaves [lastIndex]
    alone.  Returns the updated object and the verdict. *)
Definition RegExp_test (r : RegExp) (s : string) : RegExp * bool :=
  let text := list_ascii_of_string s in
  let start := if global r then lastIndex r else 0 in
  let store (li : nat) :=
    if global r then mkRegExp (atoms r) (global r) (ignoreCase r) li
    else r in
  if Nat.ltb (List.length text) start then (store 0, false)
  else match matchFrom (ignoreCase r) (atoms r) (skipn start text) start with
       | Some i => (store (i + List.length (atoms r)), true)
       | None => (store 0, false)
       end.

(** [s.replace(/[.*+?^${}()|[\]\\]/g, "\\$&")] *)
Fixpoint escapeChars (s : list ascii) : list ascii :=
  match s with
  | [] => []
  | c :: rest =>
      if isSyntaxCharacter c then "\"%char :: c :: escapeChars rest
      else c :: escapeChars rest
  end.

Definition escapeRegExp (s : string) : string :=
  string_of_list_ascii (escapeChars (list_ascii_of_string s)).

(** [parts.join(sep)] *)
Fixpoint join (sep : string) (parts : list string) : string :=
  match parts with
  | [] => EmptyString
  | [p] => p
  | p :: rest => String.append p (String.append sep (join sep rest))
  end.

(** *** Arrays *)

(** [Array.prototype.sort(comparefn)].  The sort is stable, so for a
    consistent comparator its result is the one a stable insertion
    gives; a comparator result of NaN counts as +0.  A comparator that
    answers NaN for some pairs and a sign for others (numbers sorted
    with a string among them) is not consistent, and the language
    leaves the order to the engine then: [Array_sort] gives one such
    order, which need not be the engine's unless the odd element comes
    first, where no engine moves it ([10, 5, "*", 1] comes out here as
    [5, 10, "*", 1], and as [1, 5, 10, "*"] of a binary insertion). *)
Definition positive_result (v : number) : bool :=
  match v with
  | Num z => (0 <? z)%Z
  | PInf => true
  | NInf | NaN => false
  end.

Fixpoint sort_insert {A : Type} (comparefn : A -> A -> number)
         (x : A) (l : list A) : list A :=
  match l with
  | [] => [x]
  | y :: l' =>
      if positive_result (comparefn x y) then y :: sort_insert comparefn x l'
      else x :: y :: l'
  end.

Fixpoint Array_sort {A : Type} (comparefn : A -> A -> number)
         (l : list A) : list A :=
  match l with
  | [] => []
  | x :: l' => sort_insert comparefn x (Array_sort comparefn l')
  end.

(** [arr.findIndex(p)], [None] standing for -1. *)
Fixpoint findIndex {A : Type} (p : A -> bool) (l : list A) : option nat :=
  match l with
  | [] => None
  | x :: l' => if p x then Some 0 else option_map S (findIndex p l')
  end.

(** [arr.slice(0, stop)] *)
Definition slice0 {A : Type} (stop : nat) (l : list A) : list A :=
  firstn stop l.

End JS.

(** ** Constants: [class.js] and [default.js] *)

Module CLASS.
Definition TABLE : string := "tjs-table-element".
Module TH.
Definition BASE : string := "tjs-header-cell".
Definition HIDDEN : string := "tjs-header-hidden".
Definition VISIBLE : string := "tjs-header-visible".
End TH.
Module TD.
Definition BASE : string := "tjs-data-cell".
Definition HIDDEN : string := "tjs-data-hidden".
Definition VISIBLE : string := "tjs-data-visible".
End TD.
Module TR.
Definition BASE : string := "tjs-row-cell".
Definition HIDDEN : string := "tjs-row-hidden".
Definition VISIBLE : string := "tjs-row-visible".
Definition DUMMY : string := "tjs-row-dummy".
Definition SEARCHED : string := "tjs-row-searched".
Definition NO_DATA : string := "tjs-row-no-data".
End TR.
Module SORT.
Definition ASCENDING : string := "tjs-sort-ascending".
Definition DESCENDING : string := "tjs-sort-descending".
Definition DISABLED : string := "tjs-sort-disabled".
Definition ENABLED : string := "tjs-sort-enabled".
End SORT.
End CLASS.

Module DEFAULT.
Definition LIMIT : string := "*".
Definition PAGE : Z := 1.
Definition SEARCH : string := "".
Definition FILTER : string := "".
Definition ASYNC : bool := true.
Definition TIMEOUT : Z := 15000.
Definition METHOD : string := "GET".
Definition NO_RESULT_MESSAGE : string := "No matching records found".
End DEFAULT.

(** ** Values, completions and the document *)

Module Value.
Import JS.

(** Objects, arrays and functions carry the identity of their
    reference; [===] on them compares that identity alone. *)
Inductive value : Type :=
| VUndefined
| VNull
| VBoolean (b : bool)
| VNumber (n : number)
| VString (s : string)
| VFunction (id : nat)
| VArray (id : nat) (elems : list value)
| VObject (id : nat) (classes : list string) (props : list (string * value)).

Definition typeof (v : value) : string :=
  match v with
  | VUndefined => "undefined"
  | VNull => "object"
  | VBoolean _ => "boolean"
  | VNumber _ => "number"
  | VString _ => "string"
  | VFunction _ => "function"
  | VArray _ _ | VObject _ _ _ => "object"
  end.

(** [a === b] *)
Definition strictEquals (a b : value) : bool :=
  match a, b with
  | VUndefined, VUndefined | VNull, VNull => true
  | VBoolean x, VBoolean y => Bool.eqb x y
  | VNumber x, VNumber y => number_eqb x y
  | VString x, VString y => String.eqb x y
  | VFunction i, VFunction j => Nat.eqb i j
  | VArray i _, VArray j _ => Nat.eqb i j
  | VObject i _ _, VObject j _ _ => Nat.eqb i j
  | _, _ => false
  end.

(** Own enumerable properties of an object or array, in order. *)
Definition indexKeys (n : nat) : list string :=
  map (fun i => pretty (N.of_nat i)) (seq 0 n).

Definition ownProps (v : value) : option (list (string * value)) :=
  match v with
  | VObject _ _ props => Some props
  | VArray _ elems =>
      Some (combine (indexKeys (List.length elems)) elems)
  | _ => None
  end.

Fixpoint getProp (k : string) (props : list (string * value)) : value :=
  match props with
  | [] => VUndefined
  | (k', v) :: rest => if String.eqb k k' then v else getProp k rest
  end.

Definition hasKey (k : string) (props : list (string * value)) : bool :=
  existsb (fun kv => String.eqb k (fst kv)) props.

(** Shallow equality: strictly equal, or two objects with the same
    keys whose values are strictly equal key by key. *)
Definition shallowEqual (a b : value) : bool :=
  strictEquals a b
  || match ownProps a, ownProps b with
     | Some pa, Some pb =>
         forallb (fun kv => hasKey (fst kv) pb
                            && strictEquals (snd kv) (getProp (fst kv) pb)) pa
         && forallb (fun kv => hasKey (fst kv) pa) pb
     | _, _ => false
     end.

(** [ToNumber].  Numeric text in the embedding is a plain decimal
    numeral; other text, such as [DEFAULT.LIMIT], is not a number
    ([ToNumber_exact] below tells where this is [Number] itself). *)
Definition digitValue (c : ascii) : option Z :=
  let n := code c in
  if ((48 <=? n) && (n <=? 57))%N then Some (Z.of_N (n - 48)) else None.

Fixpoint decimalValue (acc : Z) (cs : list ascii) : number :=
  match cs with
  | [] => Num acc
  | c :: rest =>
      match digitValue c with
      | Some d => decimalValue (10 * acc + d) rest
      | None => NaN
      end
  end.

Definition ToNumber (v : value) : number :=
  match v with
  | VNumber n => n
  | VNull => Num 0
  | VBoolean b => Num (if b then 1 else 0)
  | VString s => decimalValue 0 (list_ascii_of_string s)
  | _ => NaN
  end.

(** Where [ToNumber] above is [Number] of the language: on undefined,
    null, booleans and numbers; on text of at most 15 decimal digits
    and nothing else (the empty text included), which reads as the
    integer it writes; and on text of ASCII characters holding one
    that no numeral has, which reads as NaN.  Text with signs, white
    space, a fraction, an exponent, a radix prefix or more digits, text
    beyond ASCII (where the language knows more white space), and
    functions, arrays and objects, which convert through their own
    methods, are outside the embedding. *)
Definition isDigit (c : ascii) : bool :=
  match digitValue c with Some _ => true | None => false end.

(** The ASCII characters a numeral or the white space around it is
    made of: digits, signs, the dot, the letters of an exponent, of a
    radix prefix, of a hexadecimal digit and of [Infinity], and the
    white space. *)
Definition numeralCharacter (c : ascii) : bool :=
  isDigit c
  || existsb (Ascii.eqb c) (list_ascii_of_string "+-.eEIinftyxXoObBaAcCdDF")
  || existsb (N.eqb (code c)) [9; 10; 11; 12; 13; 32]%N.

Definition isASCII (c : ascii) : bool := (code c <? 128)%N.

Definition ToNumber_exact (v : value) : bool :=
  match v with
  | VUndefined | VNull | VBoolean _ | VNumber _ => true
  | VString s =>
      (Nat.leb (String.length s) 15
       && forallb isDigit (list_ascii_of_string s))
      || (forallb isASCII (list_ascii_of_string s)
          && existsb (fun c => negb (numeralCharacter c))
                     (list_ascii_of_string s))
  | VFunction _ | VArray _ _ | VObject _ _ _ => false
  end.

Inductive exn : Type :=
| TableJSError (message : string)
| ReferenceError (name : string)
| TypeError (message : string)
| NotFoundError
| UserError (v : value).

(** Outcome of a call: a value or a thrown exception. *)
Inductive completion (A : Type) : Type :=
| Normal (a : A)
| Throw (e : exn).
Arguments Normal {A} a.
Arguments Throw {A} e.

Definition bindC {A B : Type} (c : completion A) (k : A -> completion B)
  : completion B :=
  match c with
  | Normal a => k a
  | Throw e => Throw e
  end.

End Value.

(** ** The view state behind [table.properties] *)

Module Store.
Import JS Value.

(** [instance.elements.paginate]: target ("local", "api") to role
    ("limit", "search", "filter", ...) to the controls of that role,
    each control named by its node. *)
Definition paginate_t : Type := list (string * list (string * list nat)).

(** The properties the library keeps on the table element and reaches
    through [table.properties].  A table element has none of them
    before the constructor runs and inherits none of them, so for
    these [target[property]] reads what was last written, or
    undefined, and [target[property] = value] writes an own property.
    The view state holds these own properties; a property the element
    inherits (such as [title], which reads "" through the prototype
    chain and is written through an accessor) is outside the
    embedding. *)
Definition view_properties : list string :=
  ["page"; "limit"; "search"; "filters"; "total_rows"].

Record state : Type := mkState {
  target : gmap string value;      (* own properties of the table element *)
  paginate : option paginate_t;    (* [None]: no paginate option given *)
  controls : gmap nat string;      (* [.value] of the paginate controls *)
  notified : list (string * value) (* calls of [propertiesListener] so far *)
}.

(** A computation over the view state: it ends normally or throws, and
    the state it leaves behind is kept either way. *)
Definition M (A : Type) : Type := state -> completion A * state.

Definition throw {A : Type} (e : exn) : M A := fun st => (Throw e, st).

#[export] Instance M_ret : MRet M := fun A a st => (Normal a, st).
#[export] Instance M_bind : MBind M := fun A B k m st =>
  match m st with
  | (Normal a, st') => k a st'
  | (Throw e, st') => (Throw e, st')
  end.

(** [target[property]], for a property of [view_properties]. *)
Definition get (property : string) : M value :=
  fun st => (Normal (default VUndefined (target st !! property)), st).

(** [target[property] = value], for a property of [view_properties]. *)
Definition put (property : string) (v : value) : M unit :=
  fun st => (Normal tt,
             mkState (<[property := v]> (target st)) (paginate st)
                     (controls st) (notified st)).

Definition record_call (property : string) (v : value) : M unit :=
  fun st => (Normal tt,
             mkState (target st) (paginate st) (controls st)
                     (notified st ++ [(property, v)])).

(** [el.value = text] for every control of every collection. *)
Definition reset_controls (text : string) (collections : list (list nat))
  : M unit :=
  fun st => (Normal tt,
             mkState (target st) (paginate st)
                     (fold_left (fun cs el => <[el := text]> cs)
                                (concat collections) (controls st))
                     (notified st)).

(** The [reduce] that opens [propertiesListener]: role to the list of
    the collections declared for it, one per target. *)
Definition collect (p : paginate_t) : gmap string (list (list nat)) :=
  fold_left
    (fun acc entry =>
       fold_left
         (fun acc kv =>
            <[fst kv := default [] (acc !! fst kv) ++ [snd kv]]> acc)
         (snd entry) acc)
    p ∅.

Definition forEach_collection (text : string)
           (group : option (list (list nat))) : M unit :=
  match group with
  | Some collections => reset_controls text collections
  | None =>
      throw (TypeError "Cannot read properties of undefined (reading 'forEach')")
  end.

(** [Object.entries(elements.paginate)] needs an object. *)
Definition paginate_entries : M paginate_t :=
  fun st =>
    match paginate st with
    | Some p => (Normal p, st)
    | None =>
        (Throw (TypeError "Cannot convert undefined or null to object"), st)
    end.

(** [propertiesListener({ elements, property, value })] *)
Definition propertiesListener (property : string) (v : value) : M unit :=
  record_call property v;;
  p ← paginate_entries;
  let acc := collect p in
  if String.eqb property "limit" || String.eqb property "page" then
    forEach_collection DEFAULT.SEARCH (acc !! "search");;
    forEach_collection DEFAULT.SEARCH (acc !! "filter")
  else mret tt.

(** The [set] trap of the proxy [table.properties], for a property of
    [view_properties]. *)
Definition proxy_set (property : string) (v : value) : M bool :=
  previousValue ← get property;
  (if negb (strictEquals previousValue v) then
     put property v;;
     propertiesListener property v
   else mret tt);;
  mret true.

(** The control roles are all declared: what the constructor's first
    write through the proxy needs in order not to throw. *)
Definition wired (st : state) : Prop :=
  exists p, paginate st = Some p
            /\ is_Some (collect p !! "search")
            /\ is_Some (collect p !! "filter").

End Store.

(** ** Pagination planning *)

Module Pagination.
Import JS Value Store.

(** A page-size option: [DEFAULT.LIMIT] (the string "*") or a number. *)
Inductive item : Type :=
| All
| Item (z : Z).

(** [DEFAULT.ITEMS] *)
Definition ITEMS : list item :=
  [All; Item 10; Item 25; Item 50; Item 100; Item 500; Item 1000].

(** [a - b] *)
Definition minus (a b : item) : number :=
  match a, b with
  | Item x, Item y => Num (x - y)
  | _, _ => NaN
  end.

(** [item >= number] *)
Definition geq (a : item) (n : number) : bool :=
  match a, n with
  | Item x, Num y => (y <=? x)%Z
  | Item _, NInf => true
  | _, _ => false
  end.

(** [createPaginationCeiling(n, array)], [n] already through [+n]. *)
Definition createPaginationCeiling (n : number) (array : list item)
  : list item :=
  if isNaN n then array
  else
    let sortedArray := Array_sort minus array in
    let index := findIndex (fun item => geq item n) sortedArray in
    slice0 (match index with
            | Some i => i + 1
            | None => List.length array
            end) sortedArray.

(** [toNumber(value, fallback)] on a number: 0 and NaN are falsy. *)
Definition toNumber (v fallback : number) : number :=
  match v with
  | Num 0 | NaN => fallback
  | _ => v
  end.

(** The page size once [toLimit] has validated it: the string "*"
    itself, or [Number(n)]. *)
Inductive limit : Type :=
| ALL
| Limit (n : number).

Definition limit_value (l : limit) : value :=
  match l with
  | ALL => VString DEFAULT.LIMIT
  | Limit n => VNumber n
  end.

(** The page [toLimit] assigns, from the page and row count it reads. *)
Definition toLimit_page (page total_rows : value) (limitSize : limit)
  : value :=
  let pagingLength :=
    Math_round_div (ToNumber total_rows) (ToNumber (limit_value limitSize)) in
  let currentPage :=
    Math_min (Math_max (Num 1) (ToNumber page)) pagingLength in
  match limitSize with
  | ALL => VNumber (Num DEFAULT.PAGE)
  | Limit _ => if isNaN currentPage then page else VNumber currentPage
  end.

(** [toLimit], from the first read of [table.properties] to the write
    of [page] (the windowing of the rows comes after).  The source reads
    [page] once more between the two writes; the write of [limit] leaves
    it as it was. *)
Definition toLimit_head (limitSize : limit) : M unit :=
  total_rows ← get "total_rows";
  page ← get "page";
  proxy_set "limit" (limit_value limitSize);;
  proxy_set "page" (toLimit_page page total_rows limitSize);;
  mret tt.

(** A destructuring default: taken when the property is undefined. *)
Definition orDefault (d : value) (o : option value) : value :=
  match o with
  | None | Some VUndefined => d
  | Some v => v
  end.

(** [processPagination(data, total_rows)] *)
Definition processPagination (data : gmap string value) (total_rows : value)
  : gmap string value :=
  let limit := orDefault (VString DEFAULT.LIMIT) (data !! "limit") in
  let page := orDefault (VNumber (Num DEFAULT.PAGE)) (data !! "page") in
  let page' :=
    toNumber
      (Math_min (Math_max (Num 1) (ToNumber page))
                (Math_round_div (ToNumber total_rows) (ToNumber limit)))
      (Num 1) in
  <["page" := VNumber page']> (<["limit" := limit]> data).

End Pagination.

(** ** The document: header cells, rows and cells *)

Module Dom.

Record Td : Type := mkTd {
  cellIndex : nat;
  colSpan : nat;            (* what [td.colSpan] reads *)
  textContent : string;
  displayed : bool          (* what [validateVisibility(td)] answers *)
}.

Record Tr : Type := mkTr {
  node : nat;               (* identity of the element *)
  index : option Z;         (* [row.index], [None] while undefined *)
  children : list Td;
  classList : list string
}.

Record Th : Type := mkTh {
  th_cellIndex : nat;
  th_classList : list string;
  th_selectors : list string  (* the selectors [th.matches] accepts *)
}.

(** [classList.contains], [classList.add], [classList.remove] *)
Definition contains (c : string) (cl : list string) : bool :=
  existsb (String.eqb c) cl.

Definition add (c : string) (cl : list string) : list string :=
  if contains c cl then cl else cl ++ [c].

Definition remove (c : string) (cl : list string) : list string :=
  List.filter (fun d => negb (String.eqb c d)) cl.

Definition set_classList (row : Tr) (cl : list string) : Tr :=
  mkTr (node row) (index row) (children row) cl.

Definition set_th_classList (th : Th) (cl : list string) : Th :=
  mkTh (th_cellIndex th) cl (th_selectors th).

(** An entry of an [exclude] list: a column index or a selector. *)
Inductive exclusion : Type :=
| ByIndex (i : nat)
| BySelector (s : string).

(** The test under [exclude.some] in every operation. *)
Definition excludes (th : Th) (item : exclusion) : bool :=
  match item with
  | BySelector s =>
      existsb (String.eqb s) (th_selectors th)
      || existsb (String.eqb s) (th_classList th)
  | ByIndex i => Nat.eqb i (th_cellIndex th)
  end.

(** [cols.reduce(...)]: the cell indices of the excluded columns. *)
Definition excludeIndex (exclude : list exclusion) (cols : list Th)
  : list nat :=
  map th_cellIndex (List.filter (fun th => existsb (excludes th) exclude) cols).

Definition includes (l : list nat) (i : nat) : bool :=
  existsb (Nat.eqb i) l.

(** The cells a search or a filter reads in a row: column not
    excluded, cell displayed. *)
Definition searchable (excludeIndex : list nat) (td : Td) : bool :=
  negb (includes excludeIndex (cellIndex td)) && displayed td.

Definition textContents (excludeIndex : list nat) (row : Tr) : list string :=
  map textContent (List.filter (searchable excludeIndex) (children row)).

(** A node identity no row of the body carries. *)
Definition fresh (rows : list Tr) : nat :=
  S (fold_right Nat.max 0 (map node rows)).

(** What [td.colSpan] reads after [td.colSpan = n]: the attribute of a
    table cell reflects clamped to the range 1 to 1000, so a cell given
    0 reads 1 and a cell given more than 1000 reads 1000. *)
Definition colSpan_read (n : nat) : nat := Nat.min 1000 (Nat.max 1 n).

(** The "no results" row built at the start of a search or filter:
    its one cell is given [cols.length] as [colSpan]. *)
Definition dummy (cols : list Th) (rows : list Tr) : Tr :=
  mkTr (fresh rows) None
       [mkTd 0 (colSpan_read (List.length cols)) DEFAULT.NO_RESULT_MESSAGE
             true]
       [CLASS.TR.DUMMY; CLASS.TR.BASE; CLASS.TR.VISIBLE].

Definition isDummy (row : Tr) : bool :=
  contains CLASS.TR.DUMMY (classList row).

(** [tbody.querySelector(".tjs-row-dummy")] *)
Definition querySelector_dummy (rows : list Tr) : option Tr :=
  List.find isDummy rows.

(** [dum.remove()] *)
Fixpoint remove_node (n : nat) (rows : list Tr) : list Tr :=
  match rows with
  | [] => []
  | r :: rest => if Nat.eqb (node r) n then rest else r :: remove_node n rest
  end.

End Dom.

(** ** Search and filter over the rows of the body *)

Module Rows.
Import JS Dom.

(** What [output] receives. *)
Record paginationInfo : Type := mkInfo {
  current_page : number;
  total_page : number;
  start_item : number;
  end_item : number;
  total_rows : number
}.

(** The two class updates of the row loops. *)
Definition show (searched : bool) (row : Tr) : Tr :=
  let cl := add CLASS.TR.VISIBLE (add CLASS.TR.BASE (classList row)) in
  let cl := if searched then add CLASS.TR.SEARCHED cl else cl in
  set_classList row (remove CLASS.TR.HIDDEN cl).

Definition hide (row : Tr) : Tr :=
  set_classList row
    (remove CLASS.TR.VISIBLE
            (add CLASS.TR.HIDDEN (add CLASS.TR.BASE (classList row)))).

(** [rows.reduce(...)] of [toSearch]: one pattern object serves every
    row, so its [lastIndex] travels from row to row.  Returns the rows
    as updated, the count and the pattern as left. *)
Fixpoint search_reduce (excludeIndex : list nat) (searchPattern : RegExp)
         (searched : Z) (rows : list Tr) : list Tr * Z * RegExp :=
  match rows with
  | [] => ([], searched, searchPattern)
  | row :: rest =>
      let string := join " " (textContents excludeIndex row) in
      let '(searchPattern', isSearched) := RegExp_test searchPattern string in
      let row' := if isSearched || isDummy row then show true row
                  else hide row in
      let searched' := if isSearched then (searched + 1)%Z else searched in
      let '(rest', n, p) :=
        search_reduce excludeIndex searchPattern' searched' rest in
      (row' :: rest', n, p)
  end.

(** The placeholder handling and the summary shared by both loops. *)
Definition settle_dummy (cols : list Th) (dum : option Tr)
           (rows : list Tr) (result : Z) : list Tr :=
  if (result <? 1)%Z then
    match dum with
    | None => rows ++ [dummy cols rows]
    | Some _ => rows
    end
  else
    match dum with
    | Some d => remove_node (node d) rows
    | None => rows
    end.

Definition summary (dum : option Tr) (rowLength : nat) (result : Z)
  : paginationInfo :=
  let rowLength := Z.of_nat rowLength in
  let toNumber := fun v => Pagination.toNumber v (Num 0) in
  mkInfo (Num 1) (Num 1)
         (toNumber (Math_min (Num result) (Num 1)))
         (toNumber (match dum with
                    | Some _ => Math_max (Num 0) (Num (result - 1))
                    | None => Num result
                    end))
         (toNumber (match dum with
                    | Some _ => Num (rowLength - 1)
                    | None => Num rowLength
                    end)).

(** The "local" branch of [toSearch]: the new body, the count of rows
    searched and the summary. *)
Definition search_local (exclude : list exclusion) (keyword : string)
           (cols : list Th) (rows : list Tr)
  : option (list Tr * Z * paginationInfo) :=
  let excludeIndex := excludeIndex exclude cols in
  let searchKeyword := escapeRegExp keyword in
  match new_RegExp_gi searchKeyword with
  | None => None   (* a SyntaxError; never the case, see [escape_parses] *)
  | Some searchPattern =>
      let rowLength := List.length rows in
      let '(rows', result, _) :=
        search_reduce excludeIndex searchPattern 0 rows in
      let dum := querySelector_dummy rows' in
      Some (settle_dummy cols dum rows' result, result,
            summary dum rowLength result)
  end.

(** [toFilter]: the patterns, one per truthy filter value. *)
Definition searchPatterns (filters : gmap string string)
  : list (option RegExp) :=
  map (fun filter => new_RegExp_gi (escapeRegExp filter))
      (List.filter (fun v => negb (String.eqb v ""))
                   (map snd (map_to_list filters))).

(** [searchPatterns.every(pattern => textContents.some(text =>
    new RegExp(pattern).test(text)))] *)
Definition isSearched (patterns : list RegExp) (texts : list string) : bool :=
  forallb (fun pattern =>
             existsb (fun text =>
                        let refresh := new_RegExp_copy pattern in
                        snd (RegExp_test refresh text))
                     texts)
          patterns.

Fixpoint filter_reduce (excludeIndex : list nat) (patterns : list RegExp)
         (searched : Z) (rows : list Tr) : list Tr * Z :=
  match rows with
  | [] => ([], searched)
  | row :: rest =>
      let isSearched := isSearched patterns (textContents excludeIndex row) in
      let row' := if isSearched || isDummy row then show false row
                  else hide row in
      let searched' := if isSearched then (searched + 1)%Z else searched in
      let '(rest', n) := filter_reduce excludeIndex patterns searched' rest in
      (row' :: rest', n)
  end.

(** All patterns compiled, or [None]. *)
Fixpoint compiled (ps : list (option RegExp)) : option (list RegExp) :=
  match ps with
  | [] => Some []
  | Some p :: rest => option_map (cons p) (compiled rest)
  | None :: _ => None
  end.

(** The "local" branch of [toFilter]. *)
Definition filter_local (exclude : list exclusion)
           (filters : gmap string string)
           (cols : list Th) (rows : list Tr)
  : option (list Tr * Z * paginationInfo) :=
  let excludeIndex := excludeIndex exclude cols in
  match compiled (searchPatterns filters) with
  | None => None
  | Some patterns =>
      let rowLength := List.length rows in
      let '(rows', result) := filter_reduce excludeIndex patterns 0 rows in
      let dum := querySelector_dummy rows' in
      Some (settle_dummy cols dum rows' result, result,
            summary dum rowLength result)
  end.

End Rows.

(** ** Sorting by a click on a header cell *)

Module Sort.
Import JS Value Dom.

(** [s.trim()]: white space and line terminators of the Latin-1 range. *)
Definition isWhiteSpace (c : ascii) : bool :=
  existsb (N.eqb (code c)) [9; 10; 11; 12; 13; 32; 160]%N.

Fixpoint trimStart (s : list ascii) : list ascii :=
  match s with
  | c :: rest => if isWhiteSpace c then trimStart rest else s
  | [] => []
  end.

Definition trim (s : string) : string :=
  string_of_list_ascii
    (rev (trimStart (rev (trimStart (list_ascii_of_string s))))).

(** What [toSort] leaves behind for its click handlers: the header
    cells, the body, and the array [rows] the handlers close over.
    [rows] holds the row elements themselves; a row still in the body
    is read there, a row no longer in the body keeps the index and the
    cells it had. *)
Record state : Type := mkState {
  ths : list Th;
  tbody : list Tr;
  rows : list Tr
}.

Definition attached (n : nat) (body : list Tr) : option Tr :=
  List.find (fun r => Nat.eqb (node r) n) body.

Definition current (body : list Tr) (r : Tr) : Tr :=
  default r (attached (node r) body).

(** [(a, b) => a.index - b.index] *)
Definition byIndex (a b : Tr) : number :=
  match index a, index b with
  | Some x, Some y => Num (x - y)
  | _, _ => NaN
  end.

(** [tbody.removeChild(row); tbody.appendChild(row)] for each row in
    turn; [removeChild] throws on a row that is not a child. *)
Fixpoint reappend (sorted : list Tr) (body : list Tr)
  : completion unit * list Tr :=
  match sorted with
  | [] => (Normal tt, body)
  | row :: rest =>
      match attached (node row) body with
      | Some r => reappend rest (remove_node (node row) body ++ [r])
      | None => (Throw NotFoundError, body)
      end
  end.

Definition marked (th : Th) : bool :=
  contains CLASS.SORT.ASCENDING (th_classList th)
  || contains CLASS.SORT.DESCENDING (th_classList th).

Definition sortable (exclude : list exclusion) (th : Th) : bool :=
  negb (existsb (excludes th) exclude).

(** [f] on the header cell at position [i], the others untouched. *)
Definition on_target (i : nat) (f : Th -> Th) (l : list Th) : list Th :=
  imap (fun j th => if Nat.eqb i j then f th else th) l.

Section Collation.

(** [a.localeCompare(b, undefined, { numeric: true, sensitivity:
    "base" })]: the collation of the host. *)
Variable localeCompare : string -> string -> Z.

(** The comparator of the second branch of the handler. *)
Definition byColumn (columnIndex : nat) (currentSort : bool) (a b : Tr)
  : number :=
  let aValue := option_map (fun td => trim (textContent td))
                           (nth_error (children a) columnIndex) in
  let bValue := option_map (fun td => trim (textContent td))
                           (nth_error (children b) columnIndex) in
  match aValue with
  | None => NaN     (* [undefined], or [-undefined] *)
  | Some av =>
      let comparison := localeCompare av (default "undefined" bValue) in
      Num (if currentSort then comparison else (- comparison)%Z)
  end.

(** The click handler [toSort] registers on the header cell at
    position [i] when the column is not excluded, the cell itself being
    the target of the event.  One call of [click] is one call of one
    handler; [toSort] adds a handler each time it is called. *)
Definition click (exclude : list exclusion) (ascending : bool) (i : nat)
           (st : state) : completion unit * state :=
  match ths st !! i with
  | None => (Normal tt, st)
  | Some target =>
      if negb (sortable exclude target) then (Normal tt, st)
      else
        let columnIndex := th_cellIndex target in
        let live := map (current (tbody st)) (rows st) in
        if contains CLASS.SORT.DESCENDING (th_classList target) then
          let sorted := Array_sort byIndex live in
          match reappend sorted (tbody st) with
          | (Throw e, body) => (Throw e, mkState (ths st) body sorted)
          | (Normal _, body) =>
              (Normal tt,
               mkState
                 (on_target i
                    (fun th => set_th_classList th
                       (remove CLASS.SORT.DESCENDING (th_classList th)))
                    (ths st))
                 body sorted)
          end
        else
          let currentSort :=
            if contains CLASS.SORT.ASCENDING (th_classList target)
            then negb ascending else ascending in
          let sorted := Array_sort (byColumn columnIndex currentSort) live in
          match reappend sorted (tbody st) with
          | (Throw e, body) => (Throw e, mkState (ths st) body sorted)
          | (Normal _, body) =>
              let cleared :=
                map (fun th => set_th_classList th
                       (remove CLASS.SORT.DESCENDING
                          (remove CLASS.SORT.ASCENDING (th_classList th))))
                    (ths st) in
              (Normal tt,
               mkState
                 (on_target i
                    (fun th => set_th_classList th
                       (add (if currentSort then CLASS.SORT.ASCENDING
                             else CLASS.SORT.DESCENDING)
                            (th_classList th)))
                    cleared)
                 body sorted)
          end
  end.

(** A run of clicks, stopping at the first that throws. *)
Fixpoint clicks (exclude : list exclusion) (ascending : bool)
         (targets : list nat) (st : state) : completion unit * state :=
  match targets with
  | [] => (Normal tt, st)
  | i :: rest =>
      match click exclude ascending i st with
      | (Normal _, st') => clicks exclude ascending rest st'
      | (Throw e, st') => (Throw e, st')
      end
  end.

End Collation.

End Sort.

(** ** The constraint interpreter: [validateVariable] *)

Module Validation.
Import JS Value.

(** A parameter given as one thing or as an array of them. *)
Inductive oneOrMany (A : Type) : Type :=
| One (a : A)
| Many (l : list A).
Arguments One {A} a.
Arguments Many {A} l.

Definition isMany {A : Type} (x : oneOrMany A) : bool :=
  match x with Many _ => true | One _ => false end.

Definition asArray {A : Type} (x : oneOrMany A) : list A :=
  match x with One a => [a] | Many l => l end.

(** What may stand under [instanceOf]: a constructor, a string, or
    something else. *)
Inductive classRef : Type :=
| Class (name : string)
| ClassString (s : string)
| ClassOther.

(** A function handed in by the caller, with the text [String(f)]. *)
Record callback : Type := mkCallback {
  fn_source : string;
  fn_call : value -> completion value
}.

Record pattern_t : Type := mkPattern {
  pattern_source : string;
  pattern_test : value -> bool
}.

(** An entry of [$and] or [$or]. *)
Inductive cond : Type :=
| InstanceOf (classes : oneOrMany classRef)
| TypeOf (types : oneOrMany string)
| In (object : value)
| Has (keys : oneOrMany string)
| Equals (reference : value)
| StrictEquals (reference : value)
| Execute (f : callback)
| Pattern (p : pattern_t)
| And (conds : list cond)
| Or (conds : list cond)
| Literal (v : value).

(** [$fallback] and [$transform]: absent, a function, or another value. *)
Inductive handler : Type :=
| Undefined
| Function (f : value -> completion value)
| Constant (v : value).

Record validations : Type := mkValidations {
  v_or : option (list cond);
  v_and : option (list cond);
  variableName : option string;
  v_typeOf : option (oneOrMany string);
  v_instanceOf : option (oneOrMany classRef);
  v_in : option value;
  v_has : option (oneOrMany string);
  v_equals : option value;
  v_strictEquals : option value;
  v_execute : option callback;
  v_fallback : handler;
  v_pattern : option pattern_t;
  v_transform : handler
}.

Definition ToBoolean (v : value) : bool :=
  match v with
  | VUndefined | VNull => false
  | VBoolean b => b
  | VNumber (Num 0) | VNumber NaN => false
  | VString s => negb (String.eqb s "")
  | _ => true
  end.

(** The comparison of [Array.prototype.includes]. *)
Definition sameValueZero (a b : value) : bool :=
  strictEquals a b
  || match a, b with
     | VNumber NaN, VNumber NaN => true
     | _, _ => false
     end.

Definition instanceof (v : value) (name : string) : bool :=
  match v with
  | VObject _ classes _ => existsb (String.eqb name) classes
  | VArray _ _ => existsb (String.eqb name) ["Array"; "Object"]
  | VFunction _ => existsb (String.eqb name) ["Function"; "Object"]
  | _ => false
  end.

Definition newline : string := String (ascii_of_nat 10) EmptyString.

Definition text_of_bool (b : bool) : string :=
  if b then "true" else "false".

(** [iconConstructor]: the two marks are the same empty text. *)
Definition iconConstructor (boolean : bool) : string :=
  if boolean then "" else "".

(** [wordsConstructor(words, connector)] *)
Definition wordsConstructor (words : list string) (connector : string)
  : string :=
  match words with
  | [w] => w
  | [w1; w2] => join (", " +:+ connector +:+ " ") words
  | _ =>
      let lastWord := default "undefined" (last words) in
      join ", " (removelast words) +:+ ", " +:+ connector +:+ " " +:+ lastWord
  end.

Section Host.

(** Operations of the host on arbitrary values. *)
Variable JSON_stringify : value -> option string.   (* [None]: undefined *)
Variable String_ : value -> string.                 (* [String(v)] *)
Variable IsLooselyEqual : value -> value -> bool.   (* [a == b] *)
Variable onPrototype : list string -> string -> bool.
                          (* a key found on the prototype chain *)

Definition stringified (v : value) : string :=
  default "undefined" (JSON_stringify v).

(** [key in object] *)
Definition HasProperty (object : value) (key : string) : completion bool :=
  match object with
  | VObject _ classes props =>
      Normal (hasKey key props || onPrototype classes key)
  | VArray _ elems =>
      Normal (hasKey key (combine (indexKeys (List.length elems)) elems)
              || String.eqb key "length"
              || onPrototype ["Array"; "Object"] key)
  | VFunction _ => Normal (onPrototype ["Function"; "Object"] key)
  | _ =>
      Throw (TypeError "Cannot use 'in' operator to search for a key")
  end.

Fixpoint everyC {A : Type} (p : A -> completion bool) (l : list A)
  : completion bool :=
  match l with
  | [] => Normal true
  | x :: rest =>
      bindC (p x) (fun b => if b then everyC p rest else Normal false)
  end.

Fixpoint someC {A : Type} (p : A -> completion bool) (l : list A)
  : completion bool :=
  match l with
  | [] => Normal false
  | x :: rest =>
      bindC (p x) (fun b => if b then Normal true else someC p rest)
  end.

Definition validateTypeOf (v : value) (types : oneOrMany string)
           (strict : bool) : bool :=
  let typeCallback := fun type => String.eqb (typeof v) type in
  if strict then forallb typeCallback (asArray types)
  else existsb typeCallback (asArray types).

Definition validateInstanceOf (v : value) (classes : oneOrMany classRef)
           (strict : bool) : bool :=
  let instanceOfCallback := fun cls =>
    match cls with
    | Class name => instanceof v name
    | ClassString _ => String.eqb (typeof v) "string"
    | ClassOther => false
    end in
  if strict then forallb instanceOfCallback (asArray classes)
  else existsb instanceOfCallback (asArray classes).

Definition validateInObject (v object : value) : completion bool :=
  if String.eqb (typeof object) "object" then
    match object with
    | VArray _ elems => Normal (existsb (sameValueZero v) elems)
    | _ => HasProperty object (String_ v)
    end
  else Normal false.

Definition validateHasObject (v : value) (keys : oneOrMany string)
           (strict : bool) : completion bool :=
  match v with
  | VArray _ elems =>
      let includes := fun key =>
        existsb (sameValueZero (VString key)) elems in
      match keys with
      | Many ks =>
          Normal (if strict then forallb includes ks
                  else existsb includes ks)
      | One k => Normal (includes k)
      end
  | _ =>
      if String.eqb (typeof v) "object" then
        match keys with
        | Many ks =>
            if strict then everyC (HasProperty v) ks
            else someC (HasProperty v) ks
        | One k => HasProperty v k
        end
      else Normal false
  end.

Definition validateEquals (v reference : value) : value * bool :=
  (reference, IsLooselyEqual v reference).

Definition validateStrictEquals (v reference : value) : value * bool :=
  (reference, strictEquals v reference).

(** [validateExecute]: an exception of the callback counts as a
    failed check. *)
Definition validateExecute (v : value) (verifyCallback : option callback)
  : value * bool :=
  match verifyCallback with
  | Some f =>
      match fn_call f v with
      | Normal callbackValue => (callbackValue, ToBoolean callbackValue)
      | Throw _ => (VBoolean false, false)
      end
  | None => (VUndefined, false)
  end.

Definition validatePattern (v : value) (p : pattern_t) : bool :=
  pattern_test p v.

Definition truthy_types (types : oneOrMany string) : bool :=
  match types with One s => negb (String.eqb s "") | Many _ => true end.

Definition truthy_classes (classes : oneOrMany classRef) : bool :=
  match classes with
  | One (ClassString s) => negb (String.eqb s "")
  | _ => true
  end.

(** [logicalCallback(value, cond, strict)] *)
Fixpoint logicalCallback (v : value) (c : cond) (strict : bool)
  : completion bool :=
  match c with
  | InstanceOf classes =>
      Normal (truthy_classes classes
              && validateInstanceOf v classes strict)
  | TypeOf types =>
      Normal (truthy_types types && validateTypeOf v types strict)
  | In object =>
      if ToBoolean object then validateInObject v object else Normal false
  | Has keys =>
      if truthy_types keys then validateHasObject v keys strict
      else Normal false
  | Equals reference =>
      Normal (ToBoolean reference && snd (validateEquals v reference))
  | StrictEquals reference =>
      Normal (ToBoolean reference
              && snd (validateStrictEquals v reference))
  | Execute f => Normal (snd (validateExecute v (Some f)))
  | And conds =>
      (fix every (l : list cond) : completion bool :=
         match l with
         | [] => Normal true
         | c' :: rest =>
             bindC (logicalCallback v c' true)
                   (fun b => if b then every rest else Normal false)
         end) conds
  | Or conds =>
      (fix some (l : list cond) : completion bool :=
         match l with
         | [] => Normal false
         | c' :: rest =>
             bindC (logicalCallback v c' false)
                   (fun b => if b then Normal true else some rest)
         end) conds
  | Pattern _ => Normal false
  | Literal lit =>
      Normal (match lit with VBoolean true => true | _ => false end)
  end.

Definition validateLogicalOr (v : value) (conditions : list cond)
  : completion bool :=
  someC (fun c => logicalCallback v c false) conditions.

Definition validateLogicalAnd (v : value) (conditions : list cond)
  : completion bool :=
  everyC (fun c => logicalCallback v c true) conditions.

(** [validationCallback(type)(opt)]: the line of the message that
    reports one entry of [$and] or [$or]. *)
Definition bracket (mark : string) (rest : string) : string :=
  newline +:+ "[" +:+ mark +:+ "] " +:+ rest.

Definition listed (vs : list value) : string :=
  join ", " (map (fun val => default "" (JSON_stringify val)) vs).

Definition validationCallback (type : string) (v : value) (opt : cond)
  : completion string :=
  let isAnd := String.eqb type "and" in
  match opt with
  | TypeOf types =>
      let mark := iconConstructor (validateTypeOf v types isAnd) in
      Normal
        (if isMany types
         then bracket mark
                ("typeof '[" +:+ wordsConstructor (asArray types) type
                 +:+ "]'")
         else bracket mark
                ("typeof '" +:+ join "," (asArray types) +:+ "'"))
  | InstanceOf classes =>
      let mark := iconConstructor (validateInstanceOf v classes isAnd) in
      let name := fun cls =>
        match cls with Class n => n | _ => "undefined" end in
      Normal
        (bracket mark
           ("instanceof "
            +:+ (if isMany classes
                 then wordsConstructor (map name (asArray classes)) type
                 else join "," (map name (asArray classes)))))
  | In object =>
      bindC (validateInObject v object) (fun ok =>
      match object with
      | VArray _ elems =>
          Normal (bracket (iconConstructor ok)
                          ("exist in [" +:+ listed elems +:+ "]"))
      | _ => Throw (TypeError "opt.in.map is not a function")
      end)
  | Has keys =>
      bindC (validateInObject v
               (match keys with
                | One k => VString k
                | Many ks => VArray 0 (map VString ks)
                end)) (fun ok =>
      Normal (bracket (iconConstructor ok)
                ("must have "
                 +:+ (match keys with
                      | Many ks => "[" +:+ listed (map VString ks) +:+ "]"
                      | One k => stringified (VString k)
                      end))))
  | Equals reference =>
      let '(equalsValue, equalsOutput) := validateEquals v reference in
      Normal (bracket (iconConstructor equalsOutput)
                ("equals to '" +:+ String_ equalsValue +:+ "'"))
  | StrictEquals reference =>
      let '(strictEqualsValue, strictEqualsOutput) :=
        validateStrictEquals v reference in
      Normal (bracket (iconConstructor strictEqualsOutput)
                ("strictly equals to '" +:+ String_ strictEqualsValue
                 +:+ "'"))
  | Execute f =>
      let '(andExecutionValue, andExecutionOutput) :=
        validateExecute v (Some f) in
      Normal (bracket (iconConstructor (ToBoolean andExecutionValue
                                        && andExecutionOutput))
                      (fn_source f))
  | Pattern p =>
      Normal (bracket (iconConstructor (validatePattern v p))
                ("regex pattern of '" +:+ pattern_source p
                 +:+ "' must be match to the value of "
                 +:+ stringified v))
  | And conds =>
      bindC (validateLogicalAnd v conds) (fun isAndValidation =>
      Normal (bracket (iconConstructor isAndValidation)
                ("logical '$and' with a value of '"
                 +:+ text_of_bool isAndValidation
                 +:+ "' must be 'true'")))
  | Or conds =>
      bindC (validateLogicalAnd v conds) (fun isOrValidation =>
      Normal (bracket (iconConstructor isOrValidation)
                ("logical '$or' with a value of '"
                 +:+ text_of_bool isOrValidation
                 +:+ "' must be 'true'")))
  | Literal lit =>
      let validOpt :=
        match lit with VBoolean true => true | _ => false end in
      Normal (bracket (iconConstructor validOpt)
                ("(" +:+ stringified lit +:+ ") "
                 +:+ (if String.eqb (typeof lit) "object" then ""
                      else "with a typeof '" +:+ typeof lit +:+ "' ")
                 +:+ "is not a valid query for type '$" +:+ type +:+ "'"))
  end.

Fixpoint mapC {A B : Type} (f : A -> completion B) (l : list A)
  : completion (list B) :=
  match l with
  | [] => Normal []
  | x :: rest =>
      bindC (f x) (fun y => bindC (mapC f rest) (fun ys => Normal (y :: ys)))
  end.

(** [validateFallback(errorMessage)] *)
Definition validateFallback (v : value) (fallback : handler)
           (errorMessage : string) : completion value :=
  match fallback with
  | Undefined | Constant VUndefined => Throw (TableJSError errorMessage)
  | Function f => f v
  | Constant c => Normal c
  end.

Definition expected (quoted : bool) (varName : string) (v : value)
  : string :=
  "Expected '" +:+ varName +:+ "' with a value of "
  +:+ (if quoted then "'" +:+ stringified v +:+ "'" else stringified v).

Definition defined (o : option value) : option value :=
  match o with
  | Some VUndefined | None => None
  | Some v => Some v
  end.

(** [validateVariable(value, validations)] *)
Definition validateVariable (v : value) (r : validations)
  : completion value :=
  let varName := default "variable" (variableName r) in
  let fallback := validateFallback v (v_fallback r) in
  let check_or (k : completion value) :=
    match v_or r with
    | Some conds =>
        bindC (validateLogicalOr v conds) (fun ok =>
        if ok then k else
          bindC (mapC (validationCallback "or" v) conds)
                (fun expectedTypes =>
          fallback (expected true varName v
                    +:+ " must attain any of the following: " +:+ newline
                    +:+ wordsConstructor expectedTypes "or" +:+ newline)))
    | None => k
    end in
  let check_and (k : completion value) :=
    match v_and r with
    | Some conds =>
        bindC (validateLogicalAnd v conds) (fun ok =>
        if ok then k else
          bindC (mapC (validationCallback "and" v) conds)
                (fun expectedTypes =>
          fallback (expected true varName v
                    +:+ " must attain all of the following: " +:+ newline
                    +:+ wordsConstructor expectedTypes "and" +:+ newline)))
    | None => k
    end in
  let check_typeOf (k : completion value) :=
    match v_typeOf r with
    | Some types =>
        if truthy_types types && negb (validateTypeOf v types false) then
          fallback (expected false varName v +:+ " must be of typeof '"
                    +:+ (if isMany types
                         then wordsConstructor (asArray types) "and"
                         else join "," (asArray types))
                    +:+ "'")
        else k
    | None => k
    end in
  let check_in (k : completion value) :=
    match defined (v_in r) with
    | Some inObject =>
        bindC (validateInObject v inObject) (fun ok =>
        if ok then k else
          fallback (expected false varName v
                    +:+ " must be in the array or object: "
                    +:+ stringified inObject))
    | None => k
    end in
  let check_has (k : completion value) :=
    match v_has r with
    | Some has =>
        bindC (validateHasObject v has false) (fun ok =>
        if ok then k else
          fallback (expected false varName v
                    +:+ " must have a key/s or value/s of "
                    +:+ (match has with
                         | One key => stringified (VString key)
                         | Many ks =>
                             stringified (VArray 0 (map VString ks))
                         end)))
    | None => k
    end in
  let check_instanceOf (k : completion value) :=
    match v_instanceOf r with
    | Some classes =>
        if truthy_classes classes
           && negb (validateInstanceOf v classes false) then
          let name := fun cls =>
            match cls with Class n => n | _ => "undefined" end in
          fallback (expected false varName v
                    +:+ " must be an instance of "
                    +:+ (if isMany classes
                         then wordsConstructor
                                (map name (asArray classes)) "or"
                         else join "," (map name (asArray classes))))
        else k
    | None => k
    end in
  let check_equals (k : completion value) :=
    match defined (v_equals r) with
    | Some equals =>
        if negb (snd (validateEquals v equals)) then
          (* the message reads [equalsValue], which nothing declares
             in this scope: building it throws before
             [validateFallback] is reached *)
          Throw (ReferenceError "equalsValue")
        else k
    | None => k
    end in
  let check_strictEquals (k : completion value) :=
    match defined (v_strictEquals r) with
    | Some reference =>
        if negb (snd (validateStrictEquals v reference)) then
          (* likewise for [strictEqualsValue] *)
          Throw (ReferenceError "strictEqualsValue")
        else k
    | None => k
    end in
  let check_execute (k : completion value) :=
    let '(executionValue, executionBoolean) :=
      validateExecute v (v_execute r) in
    match v_execute r with
    | Some _ =>
        if negb executionBoolean then
          fallback ("Expected '" +:+ varName +:+ "' with a value of '"
                    +:+ stringified executionValue
                    +:+ "' and an output of '"
                    +:+ text_of_bool executionBoolean
                    +:+ "'  must be 'true'")
        else k
    | None => k
    end in
  let check_pattern (k : completion value) :=
    match v_pattern r with
    | Some p =>
        if negb (validatePattern v p) then
          fallback ("Expected '" +:+ varName +:+ "' with a value of '"
                    +:+ String_ v +:+ "' must match the pattern of '"
                    +:+ pattern_source p +:+ "'")
        else k
    | None => k
    end in
  let transform :=
    match v_transform r with
    | Undefined | Constant VUndefined => Normal v
    | Function f => f v
    | Constant c => Normal c
    end in
  check_or (check_and (check_typeOf (check_in (check_has
    (check_instanceOf (check_equals (check_strictEquals
      (check_execute (check_pattern transform))))))))).

End Host.

End Validation.

(** ** Pages of rows: [createPaginationItems], [toLimit], [toPaginate] *)

Module Paging.
Import JS Value Store Pagination Dom.

(** *** Arithmetic on numbers *)

Definition num_neg (a : number) : number :=
  match a with
  | Num z => Num (- z)
  | PInf => NInf
  | NInf => PInf
  | NaN => NaN
  end.

(** [a + b] *)
Definition num_add (a b : number) : number :=
  match a, b with
  | NaN, _ | _, NaN => NaN
  | Num x, Num y => Num (x + y)
  | PInf, NInf | NInf, PInf => NaN
  | PInf, _ | _, PInf => PInf
  | NInf, _ | _, NInf => NInf
  end.

(** [a - b] *)
Definition num_sub (a b : number) : number := num_add a (num_neg b).

(** [a * b] *)
Definition num_mul (a b : number) : number :=
  match a, b with
  | NaN, _ | _, NaN => NaN
  | Num x, Num y => Num (x * y)
  | Num x, i | i, Num x =>
      if (x =? 0)%Z then NaN else if (0 <? x)%Z then i else num_neg i
  | PInf, PInf | NInf, NInf => PInf
  | PInf, NInf | NInf, PInf => NInf
  end.

(** [a < b]; [a > b] is [num_lt b a]. *)
Definition num_lt (a b : number) : bool :=
  match a, b with
  | NaN, _ | _, NaN => false
  | Num x, Num y => (x <? y)%Z
  | _, NInf | PInf, _ => false
  | NInf, _ | _, PInf => true
  end.

(** [a <= b]; [a >= b] is [num_le b a]. *)
Definition num_le (a b : number) : bool :=
  match a, b with
  | NaN, _ | _, NaN => false
  | Num x, Num y => (x <=? y)%Z
  | NInf, _ | _, PInf => true
  | _, NInf | PInf, _ => false
  end.

(** [Math.ceil(a / b)] on integer-valued operands: the quotient rounded
    up, [- floor (- a / b)]. *)
Definition Math_ceil_div (a b : number) : number :=
  match a, b with
  | NaN, _ | _, NaN => NaN
  | Num x, Num y =>
      if (y =? 0)%Z then
        if (x =? 0)%Z then NaN else if (0 <? x)%Z then PInf else NInf
      else Num (- ((- x) / y))
  | Num _, (PInf | NInf) => Num 0
  | (PInf | NInf), (PInf | NInf) => NaN
  | PInf, Num y => if (0 <=? y)%Z then PInf else NInf
  | NInf, Num y => if (0 <=? y)%Z then NInf else PInf
  end.

(** *** [Array.from({ length }, mapFn)] *)

(** The error [Array.from] raises on a length above 2^32 - 1. *)
Definition RangeError : exn :=
  UserError (VString "RangeError: Invalid array length").

(** [ToLength] *)
Definition ToLength (n : number) : Z :=
  match n with
  | NaN | NInf => 0
  | PInf => 2 ^ 53 - 1
  | Num z => Z.min (Z.max z 0) (2 ^ 53 - 1)
  end.

(** The indices [mapFn] is called on, in order. *)
Definition Array_from_length (length : number) : completion (list Z) :=
  let len := ToLength length in
  if (2 ^ 32 - 1 <? len)%Z then Throw RangeError
  else Normal (map Z.of_nat (seq 0 (Z.to_nat len))).

(** [createPaginationItems(rowLength, rowLimit)] *)
Definition createPaginationItems (rowLength rowLimit : number)
  : completion (list (list number)) :=
  let pageCount := Math_ceil_div rowLength rowLimit in
  bindC (Array_from_length pageCount) (fun pageIndexes =>
  Validation.mapC
    (fun pageIndex =>
       let start := num_mul (Num pageIndex) rowLimit in
       let end_ := Math_min (num_add start rowLimit) rowLength in
       bindC (Array_from_length (num_sub end_ start)) (fun indexes =>
       Normal (map (fun index => num_add start (Num index)) indexes)))
    pageIndexes).

(** *** The window of [toLimit] *)

(** [limitCount]: what [validateVariable] makes of the page size under
    the rules [{ $transform: rowLength, $fallback: n => Number(n) >=
    rowLength ? rowLength : Number(n), $and: [{ typeOf: "string" },
    { strictEquals: "*" }] }]. *)
Definition limitCount (limitSize : limit) (rowLength : nat) : number :=
  match limitSize with
  | ALL => Num (Z.of_nat rowLength)
  | Limit number =>
      if num_le (Num (Z.of_nat rowLength)) number then Num (Z.of_nat rowLength)
      else number
  end.

(** A property read in arithmetic: a number, or [undefined], which
    counts as NaN there.  Other values are outside the embedding. *)
Definition numeric (v : value) : option number :=
  match v with
  | VNumber n => Some n
  | VUndefined => Some NaN
  | _ => None
  end.

(** [table.properties.total_rows ?? rowLength] *)
Definition totalLength (total_rows : value) (rowLength : nat)
  : option number :=
  match total_rows with
  | VUndefined | VNull => Some (Num (Z.of_nat rowLength))
  | VNumber n => Some n
  | _ => None
  end.

(** [array[i]] for a number [i]. *)
Definition at_index {A : Type} (array : list A) (i : number) : option A :=
  match i with
  | Num z => if (z <? 0)%Z then None else nth_error array (Z.to_nat z)
  | _ => None
  end.

(** [paginationItems.includes(row.index)] *)
Definition includes_index (paginationItems : list number) (row : Tr) : bool :=
  match index row with
  | Some z => existsb (number_eqb (Num z)) paginationItems
  | None => false
  end.

(** The rows [tbody tr:not(.tjs-row-no-data)] selects. *)
Definition selected (row : Tr) : bool :=
  negb (contains CLASS.TR.NO_DATA (classList row)).

Definition set_index (row : Tr) (i : Z) : Tr :=
  mkTr (node row) (Some i) (children row) (classList row).

(** [row.index = index + offset] on a row without index; an offset
    that is no integer is outside the embedding. *)
Definition assign_index (offset : number) (index_ : nat) (row : Tr)
  : option Tr :=
  match index row, offset with
  | Some _, _ => Some row
  | None, Num o => Some (set_index row (Z.of_nat index_ + o))
  | None, _ => None
  end.

(** The [rows.forEach] that closes [applyLimitation], over the body:
    the selected rows are counted from [index_], indexed when they are
    not, removed when they are placeholders, and shown or hidden. *)
Fixpoint limit_rows (paginationItems : list number) (offset : number)
         (index_ : nat) (body : list Tr) : option (list Tr) :=
  match body with
  | [] => Some []
  | row :: rest =>
      if selected row then
        match assign_index offset index_ row,
              limit_rows paginationItems offset (S index_) rest with
        | Some row', Some rest' =>
            if isDummy row' then Some rest'
            else if includes_index paginationItems row'
                 then Some (Rows.show false row' :: rest')
                 else Some (Rows.hide row' :: rest')
        | _, _ => None
        end
      else option_map (cons row) (limit_rows paginationItems offset index_ rest)
  end.

(** The summary handed to [output]. *)
Definition window_info (currentPage paginationLength : number)
           (paginationItems : list number) (paginationItemsLength : number)
           (totalLength : number)
  : Rows.paginationInfo :=
  let toNumber := fun v => toNumber v (Num 0) in
  let item := fun i => default NaN (at_index paginationItems i) in
  Rows.mkInfo
    (toNumber currentPage)
    (toNumber paginationLength)
    (toNumber (num_add (item (Num 0)) (Num 1)))
    (toNumber (num_add (item (num_sub paginationItemsLength (Num 1))) (Num 1)))
    (toNumber totalLength).

(** [applyLimitation()], the closure of [toLimit], on the body of the
    table.  [None] marks a run outside the embedding.  The rebuilding
    of the options of the page-size control, which no row depends on,
    is left out. *)
Definition applyLimitation (limitSize : limit) (pagingLength : number)
           (body : list Tr)
  : M (option (list Tr * Rows.paginationInfo)) :=
  let rowLength := List.length (List.filter selected body) in
  let limitCount := limitCount limitSize rowLength in
  total_rows ← get "total_rows";
  match totalLength total_rows rowLength with
  | None => mret None
  | Some totalLength =>
      match createPaginationItems totalLength limitCount with
      | Throw e => throw e
      | Normal pagination =>
          let paginationLength :=
            toNumber pagingLength (Num (Z.of_nat (List.length pagination))) in
          page ← get "page";
          match numeric page with
          | None => mret None
          | Some page =>
              let currentPage :=
                Math_min (Math_max (Num 1) page) paginationLength in
              proxy_set "page" (VNumber currentPage);;
              let paginationItems :=
                default [] (at_index pagination (num_sub currentPage (Num 1))) in
              let paginationItemsLength :=
                toNumber (Num (Z.of_nat (List.length paginationItems)))
                         (Num 0) in
              let paginationInfo :=
                window_info currentPage paginationLength paginationItems
                            paginationItemsLength totalLength in
              let offset := num_mul (num_sub currentPage (Num 1)) limitCount in
              mret (option_map (fun body' => (body', paginationInfo))
                               (limit_rows paginationItems offset 0 body))
          end
      end
  end.

(** [toLimit({ table, limitSize, to: "local" })], arguments validated. *)
Definition toLimit_local (limitSize : limit) (body : list Tr)
  : M (option (list Tr * Rows.paginationInfo)) :=
  total_rows ← get "total_rows";
  let pagingLength :=
    Math_round_div (ToNumber total_rows) (ToNumber (limit_value limitSize)) in
  toLimit_head limitSize;;
  applyLimitation limitSize pagingLength body.

(** *** [toPaginate] *)

Inductive direction : Type :=
| Next
| Previous.

(** The page size as [table.properties] holds it: "*" (also the
    default of the destructuring) or a number.  Other values are
    outside the embedding. *)
Definition as_limit (v : value) : option limit :=
  match v with
  | VUndefined => Some ALL
  | VString s => if String.eqb s DEFAULT.LIMIT then Some ALL else None
  | VNumber n => Some (Limit n)
  | _ => None
  end.

(** A destructured number with its default. *)
Definition number_or (d : number) (v : value) : option number :=
  match v with
  | VUndefined => Some d
  | VNumber n => Some n
  | _ => None
  end.

(** The class updates of the row loop of [toPaginate]. *)
Definition paginate_row (paginationItems : list number) (limit_ : limit)
           (row : Tr) : Tr :=
  let all := match limit_ with ALL => true | Limit _ => false end in
  if negb (selected row) then row
  else if includes_index paginationItems row || all then
    set_classList row
      (remove CLASS.TR.HIDDEN (add CLASS.TR.VISIBLE (classList row)))
  else
    set_classList row
      (remove CLASS.TR.VISIBLE (add CLASS.TR.HIDDEN (classList row))).

(** [toPaginate({ table, as, to: "local" })], arguments validated;
    [None] marks a run outside the embedding. *)
Definition toPaginate_local (as_ : direction) (body : list Tr)
  : M (option (list Tr * Rows.paginationInfo)) :=
  let rowLength := List.length (List.filter selected body) in
  limit_ ← get "limit";
  page ← get "page";
  total_rows ← get "total_rows";
  proxy_set "search" (VString DEFAULT.SEARCH);;
  match as_limit limit_, number_or (Num DEFAULT.PAGE) page,
        number_or (Num (Z.of_nat rowLength)) total_rows,
        numeric total_rows with
  | Some limit_, Some page, Some totalLength, Some total_rows =>
      let limitCount := limitCount limit_ rowLength in
      let pagingLength := Math_round_div total_rows limitCount in
      match createPaginationItems totalLength limitCount with
      | Throw e => throw e
      | Normal pagination =>
          let paginationLength :=
            toNumber pagingLength (Num (Z.of_nat (List.length pagination))) in
          match as_ with
          | Next =>
              if num_lt (Num 0) page && num_lt page paginationLength then
                proxy_set "page"
                  (VNumber (Math_min (num_add page (Num 1)) paginationLength));;
                mret tt
              else mret tt
          | Previous =>
              if num_lt (Num 0) page && num_le page paginationLength then
                proxy_set "page"
                  (VNumber (Math_max (Num 1) (num_sub page (Num 1))));;
                mret tt
              else mret tt
          end;;
          page' ← get "page";
          match numeric page' with
          | None => mret None
          | Some page' =>
              match at_index pagination (num_sub page' (Num 1)) with
              | None =>
                  throw (TypeError
                    "Cannot read properties of undefined (reading '0')")
              | Some paginationItems =>
                  let paginationItemsLength :=
                    Num (Z.of_nat (List.length paginationItems)) in
                  let paginationInfo :=
                    window_info page' paginationLength paginationItems
                                paginationItemsLength totalLength in
                  mret (Some (map (paginate_row paginationItems limit_) body,
                              paginationInfo))
              end
          end
      end
  | _, _, _, _ => mret None
  end.

End Paging.

(** ** The rules the operations check their arguments with *)

Module Contracts.
Import JS Value Validation Pagination Paging.

(** [Array.isArray(v)] *)
Definition isArray (v : value) : bool :=
  match v with VArray _ _ => true | _ => false end.

(** Rules made of [$or], [$and], [variableName], [$fallback] and
    [$transform] alone. *)
Definition rules (or and : option (list cond)) (name : option string)
           (fallback transform : handler) : validations :=
  mkValidations or and name None None None None None None None
                fallback None transform.

(** The rules of [output] in [toLimit], [toPaginate], [toSearch] and
    [toFilter]: [{ variableName, $or: [{ typeOf: "function" },
    { typeOf: "string" }, { instanceOf: Element }] }]. *)
Definition output_rules (name : string) : validations :=
  rules (Some [TypeOf (One "function"); TypeOf (One "string");
               InstanceOf (One (Class "Element"))])
        None (Some name) Undefined Undefined.

(** A function, a selector or an element. *)
Definition reportsTo (v : value) : bool :=
  String.eqb (typeof v) "function" || String.eqb (typeof v) "string"
  || instanceof v "Element".

(** The rules of [limitSize] in [toLimit]: [{ variableName, $fallback:
    (n) => Number(n), $and: [{ typeOf: "string" }, { strictEquals:
    DEFAULT.LIMIT }] }]. *)
Definition limitSize_rules : validations :=
  rules None
        (Some [TypeOf (One "string"); StrictEquals (VString DEFAULT.LIMIT)])
        (Some "toLimit.limitSize")
        (Function (fun n => Normal (VNumber (ToNumber n))))
        Undefined.

(** The rules [limitCount] comes from in [toLimit] and [toPaginate]:
    [{ $transform: rowLength, $fallback: (n) => { let number =
    Number(n); return number >= rowLength ? rowLength : number; },
    $and: [{ typeOf: "string" }, { strictEquals: DEFAULT.LIMIT }] }]. *)
Definition limitCount_rules (name : option string) (rowLength : nat)
  : validations :=
  rules None
        (Some [TypeOf (One "string"); StrictEquals (VString DEFAULT.LIMIT)])
        name
        (Function (fun n =>
           let number := ToNumber n in
           Normal (VNumber (if num_le (Num (Z.of_nat rowLength)) number
                            then Num (Z.of_nat rowLength) else number))))
        (Constant (VNumber (Num (Z.of_nat rowLength)))).

(** [(object) => !Array.isArray(object)] *)
Definition not_an_array : callback :=
  mkCallback "(object) => !Array.isArray(object)"
             (fun object => Normal (VBoolean (negb (isArray object)))).

(** The rules [preInitialize] checks [table], [exportAs] and [colvis]
    of [instance.elements] with. *)
Definition table_rules : validations :=
  rules None
        (Some [InstanceOf (One (Class "Element")); TypeOf (One "object")])
        (Some "preInitialize.table") Undefined Undefined.

Definition exportAs_rules : validations :=
  rules None (Some [TypeOf (One "object"); Execute not_an_array])
        (Some "preInitialize.exportAs") Undefined Undefined.

Definition colvis_rules : validations :=
  rules None (Some [TypeOf (One "object"); Execute not_an_array])
        (Some "preInitialize.colvis") Undefined Undefined.

(** An object (or [null]) that is not an array. *)
Definition plainObject (v : value) : bool :=
  String.eqb (typeof v) "object" && negb (isArray v).

Section Host.
Variable JSON_stringify : value -> option string.
Variable String_ : value -> string.
Variable IsLooselyEqual : value -> value -> bool.
Variable onPrototype : list string -> string -> bool.

(** [preInitialize(instance)] from its first line to the last of the
    three checks: the elements as the rest of the function uses
    them. *)
Definition preInitialize_elements (table exportAs colvis : value)
  : completion (value * value * value) :=
  let validateVariable :=
    validateVariable JSON_stringify String_ IsLooselyEqual onPrototype in
  bindC (validateVariable table table_rules) (fun table =>
  bindC (validateVariable exportAs exportAs_rules) (fun exportAs =>
  bindC (validateVariable colvis colvis_rules) (fun colvis =>
  Normal (table, exportAs, colvis)))).

End Host.

End Contracts.

(** ** The click handlers the calls of [toSort] add up *)

Module Handlers.
Import JS Value Dom Sort.

(** What one call of [toSort] leaves on the page: the array [rows] its
    handlers share, its [ascending] option and the positions of the
    header cells it gave a handler. *)
Record call : Type := mkCall {
  captured : list Tr;
  call_ascending : bool;
  targets : list nat
}.

(** A table whose head is one row of header cells and whose other
    rows are those of its body, with the calls of [toSort] made on it
    so far, oldest first. *)
Record table : Type := mkTable {
  heads : list Th;
  body : list Tr;
  calls : list call
}.

(** [tr:not(.tjs-row-no-data)] *)
Definition counted (row : Tr) : bool :=
  negb (contains CLASS.TR.NO_DATA (classList row)).

(** [if (!row.classList.contains(CLASS.TR.BASE))
    row.classList.add(CLASS.TR.BASE)] on the rows selected. *)
Definition based (row : Tr) : Tr :=
  if counted row then set_classList row (add CLASS.TR.BASE (classList row))
  else row.

(** [th.classList.add(CLASS.TH.BASE)], which comes ahead of the test
    of [exclude]. *)
Definition th_based (th : Th) : Th :=
  set_th_classList th (add CLASS.TH.BASE (th_classList th)).

(** The header cell gets a handler: no entry of [exclude] fits it. *)
Definition listens (exclude : list exclusion) (th : Th) : bool :=
  negb (existsb (excludes (th_based th)) exclude).

(** The classes a header cell leaves [ths.forEach] with. *)
Definition enable (exclude : list exclusion) (th : Th) : Th :=
  let th := th_based th in
  if existsb (excludes th) exclude then
    set_th_classList th
      (remove CLASS.SORT.ENABLED (add CLASS.SORT.DISABLED (th_classList th)))
  else
    set_th_classList th
      (remove CLASS.SORT.DISABLED (add CLASS.SORT.ENABLED (th_classList th))).

(** [toSort({ table, ascending, exclude })] with [to] "local" and
    [sorting] not switched off, arguments validated: the rows but the
    first (the row of the head) are captured, and every header cell
    that is not excluded gets a handler that closes over them. *)
Definition toSort (ascending : bool) (exclude : list exclusion) (t : table)
  : table :=
  let body' := map based (body t) in
  let rows := List.filter counted body' in
  let targets :=
    List.filter (fun i => match heads t !! i with
                          | Some th => listens exclude th
                          | None => false
                          end)
                (seq 0 (List.length (heads t))) in
  mkTable (map (enable exclude) (heads t)) body'
          (calls t ++ [mkCall rows ascending targets]).

Section Collation.
Variable localeCompare : string -> string -> Z.

(** A click on the header cell at position [i]: the handlers on that
    cell run in the order they were added, each on the array of its
    own call; what a handler throws is reported and does not keep the
    next one from running.  Returns what was reported. *)
Fixpoint dispatch (i : nat) (cs : list call) (hs : list Th) (b : list Tr)
  : list exn * (list Th * list Tr * list call) :=
  match cs with
  | [] => ([], (hs, b, []))
  | c :: rest =>
      if existsb (Nat.eqb i) (targets c) then
        let '(outcome, st) :=
          click localeCompare [] (call_ascending c) i
                (mkState hs b (captured c)) in
        let c' := mkCall (rows st) (call_ascending c) (targets c) in
        let '(reported, (hs', b', rest')) :=
          dispatch i rest (ths st) (tbody st) in
        (match outcome with
         | Throw e => e :: reported
         | Normal _ => reported
         end,
         (hs', b', c' :: rest'))
      else
        let '(reported, (hs', b', rest')) := dispatch i rest hs b in
        (reported, (hs', b', c :: rest'))
  end.

Definition clicked (i : nat) (t : table) : list exn * table :=
  let '(reported, (hs, b, cs)) := dispatch i (calls t) (heads t) (body t) in
  (reported, mkTable hs b cs).

End Collation.

(** The sort markers of the header cell at position [i]: ascending,
    descending. *)
Definition markers (hs : list Th) (i : nat) : option (bool * bool) :=
  option_map (fun th => (contains CLASS.SORT.ASCENDING (th_classList th),
                         contains CLASS.SORT.DESCENDING (th_classList th)))
             (hs !! i).

End Handlers.

(** ** The table instance: view state, document and remote source *)

Module Table.
Import JS Value Dom.

(** How [api.rendering] tells [success] to read a response: an object
    naming the key that holds the rows, or nothing, the response being
    the rows themselves. *)
Inductive rendering : Type :=
| RenderingObject (target : string)
| RenderingDefault.

(** [instance.api]: the address, [init], [rendering] and the payload;
    no [method] (the request is a GET) and no [headers]. *)
Record Api : Type := mkApi {
  url : string;
  init : bool;
  api_rendering : rendering;
  data : option (gmap string value)   (* [None]: no [data] yet *)
}.

(** A response body once parsed: the rows as records of cell texts,
    and [total_rows] when the body carries one. *)
Record response : Type := mkResponse {
  resp_rows : list (list (string * string));
  resp_total_rows : option Z
}.

(** What [HttpRequest.request] hands to [fetch]: the address and the
    payload, which the request writes into the query string.  Nothing
    else of the instance travels with a request. *)
Record request : Type := mkRequest {
  req_url : string;
  req_data : option (gmap string value)
}.

(** [table.sort], as the constructor leaves it: the [sort] option, or
    [{ ascending: true, exclude: [] }]; the columns excluded are given
    by index, and there is no [to]. *)
Record Sorting : Type := mkSorting {
  ascending : bool;
  sorting : bool;
  sort_exclude : list nat
}.

(** What the instance holds next to the table and the paginate
    controls, as the constructor leaves it: [elements.colvis] is the
    element of the [colvis] option (given without a [hide] list) or
    undefined, [elements.exportAs] the object made of the [exportAs]
    option or undefined; [outputs] are the [output] entries of the
    paginate controls, by control. *)
Record Elements : Type := mkElements {
  colvis : bool;
  exportAs : bool;
  sort : Sorting;
  outputs : gmap nat value
}.

Record world : Type := mkWorld {
  view : Store.state;
  thead : list Th;
  tbody : list Tr;
  api : option Api;
  fetches : list (option request);
    (* the fetches issued so far, oldest first; [None] once settled *)
  elements : Elements
}.

Definition W (A : Type) : Type := world -> completion A * world.

#[export] Instance W_ret : MRet W := fun A a w => (Normal a, w).
#[export] Instance W_bind : MBind W := fun A B k m w =>
  match m w with
  | (Normal a, w') => k a w'
  | (Throw e, w') => (Throw e, w')
  end.

(** A computation that may leave the embedding: [None] marks a run the
    embedding does not cover. *)
Definition R (A : Type) : Type := world -> option (completion A * world).

#[export] Instance R_ret : MRet R := fun A a w => Some (Normal a, w).
#[export] Instance R_bind : MBind R := fun A B k m w =>
  match m w with
  | Some (Normal a, w') => k a w'
  | Some (Throw e, w') => Some (Throw e, w')
  | None => None
  end.

Definition inside {A : Type} (m : W A) : R A := fun w => Some (m w).

(** A call whose exception nobody receives: a callback of a promise.
    What it throws rejects the promise and the caller goes on. *)
Definition unheard {A : Type} (m : R A) : R unit :=
  fun w =>
    match m w with
    | Some (_, w') => Some (Normal tt, w')
    | None => None
    end.

(** A computation on the view state, run inside the instance. *)
Definition on_view {A : Type} (m : Store.M A) : W A :=
  fun w =>
    let '(c, st) := m (view w) in
    (c, mkWorld st (thead w) (tbody w) (api w) (fetches w) (elements w)).

Definition set_document (heads : list Th) (body : list Tr) : W unit :=
  fun w => (Normal tt,
            mkWorld (view w) heads body (api w) (fetches w) (elements w)).

Definition set_api (a : option Api) : W unit :=
  fun w => (Normal tt,
            mkWorld (view w) (thead w) (tbody w) a (fetches w) (elements w)).

(** [toRender({ data, table, instance })] on an array of records. *)
Definition rendered_head (keys : list string) : list Th :=
  imap (fun i _ => mkTh i [CLASS.TH.BASE; CLASS.TH.VISIBLE] []) keys.

Definition lookup_text (key : string) (item : list (string * string))
  : string :=
  match List.find (fun kv => String.eqb key (fst kv)) item with
  | Some kv => snd kv
  | None => ""
  end.

Definition rendered_row (base : nat) (keys : list string) (i : nat)
           (item : list (string * string)) : Tr :=
  mkTr (base + i) (Some (Z.of_nat i))
       (imap (fun j key => mkTd j 1 (lookup_text key item) true) keys)
       [].

Definition rendered_body (base : nat) (rows : list (list (string * string)))
  : list Tr :=
  match rows with
  | [] => []
  | first :: _ => imap (rendered_row base (map fst first)) rows
  end.

Definition toRender (rows : list (list (string * string))) : W unit :=
  fun w =>
    match rows with
    | [] => (Normal tt, w)
    | first :: _ =>
        set_document (rendered_head (map fst first))
                     (rendered_body (fresh (tbody w)) rows) w
    end.

(** The [success] callback [toInitialize] gives the request. *)
Definition success (a : Api) (r : response) : W unit :=
  match api_rendering a with
  | RenderingObject _ =>
      let renderData := resp_rows r in
      let total_rows :=
        match resp_total_rows r with
        | Some n => if (n =? 0)%Z then Z.of_nat (List.length renderData)
                    else n
        | None => Z.of_nat (List.length renderData)
        end in
      on_view (Store.proxy_set "total_rows" (VNumber (Num total_rows)));;
      toRender renderData
  | RenderingDefault => toRender (resp_rows r)
  end.

(** What [toSort({ table, ...table.sort })] leaves on the head and the
    body: the classes [Handlers.toSort] gives them.  The click
    handlers it adds are those of [Handlers]; no event of an instance
    below is a click, and they are not kept here. *)
Definition toSort : W unit :=
  fun w =>
    let s := sort (elements w) in
    if sorting s then
      let t := Handlers.toSort (ascending s) (map ByIndex (sort_exclude s))
                 (Handlers.mkTable (thead w) (tbody w) []) in
      set_document (Handlers.heads t) (Handlers.body t) w
    else (Normal tt, w).

(** The message of a check of [validateVariable] that failed, cut down
    to the name of the variable. *)
Definition refused (variableName : string) : exn :=
  TableJSError variableName.

(** [preInitialize(instance)].  The three checks; [toColvis], which
    without a [hide] list builds its list beside the table and leaves
    head, body and properties alone; [toSort]; then the listeners of
    the export and paginate controls, which are added once and change
    nothing until an event comes. *)
Definition preInitialize : W unit :=
  fun w =>
    if negb (exportAs (elements w)) then
      (Throw (refused "preInitialize.exportAs"), w)
    else if negb (colvis (elements w)) then
      (Throw (refused "preInitialize.colvis"), w)
    else toSort w.

(** The controls [paginate[to][as]] holds; none when the key is not
    there. *)
Definition assoc {A : Type} (k : string) (l : list (string * A)) : option A :=
  option_map snd (List.find (fun kv => String.eqb k (fst kv)) l).

Definition controls_of (to as_ : string) (p : Store.paginate_t) : list nat :=
  match assoc to p with
  | Some roles => default [] (assoc as_ roles)
  | None => []
  end.

(** [toLimit({ table, limitSize: table.properties.limit, ...el, to:
    "local", instance })] for a page-size control [el] whose entry
    holds [to], [as], [element] and possibly [output]: the check of
    [output], which has no fallback, then [Paging.toLimit_local]. *)
Definition toLimit_control (el : nat) : R unit :=
  fun w =>
    if negb (Contracts.reportsTo
               (default VUndefined (outputs (elements w) !! el)))
    then Some (Throw (refused "toLimit.output"), w)
    else
      match Paging.as_limit
              (default VUndefined (Store.target (view w) !! "limit")) with
      | None => None
      | Some limitSize =>
          match Paging.toLimit_local limitSize (tbody w) (view w) with
          | (Normal (Some (body, _)), st) =>
              Some (Normal tt,
                    mkWorld st (thead w) body (api w) (fetches w)
                            (elements w))
          | (Normal None, _) => None
          | (Throw e, st) =>
              Some (Throw e,
                    mkWorld st (thead w) (tbody w) (api w) (fetches w)
                            (elements w))
          end
      end.

Fixpoint forEach (f : nat -> R unit) (els : list nat) : R unit :=
  match els with
  | [] => mret tt
  | el :: rest => f el;; forEach f rest
  end.

(** [postInitialize(instance, isDisable)].  The three checks (a
    [paginate] that is undefined and a [colvis] that is no element
    fail them), [toColvis] and [toSort] as in [preInitialize], then
    [toLimit] with [to: "local"] for every page-size control, those
    declared for "local" first, those for "api" after.  [isDisable]
    only sets [disabled] on the controls. *)
Definition postInitialize : R unit :=
  fun w =>
    match Store.paginate (view w) with
    | None => Some (Throw (refused "postInitialize.paginate"), w)
    | Some p =>
        if negb (colvis (elements w)) then
          Some (Throw (refused "preInitialize.colvis"), w)
        else
          (inside toSort;;
           forEach toLimit_control (controls_of "local" "limit" p);;
           forEach toLimit_control (controls_of "api" "limit" p)) w
    end.

(** [url.includes(":" + key)] for some key of the payload: the address
    holds a placeholder. *)
Definition includes (needle hay : string) : bool :=
  match matchFrom false (list_ascii_of_string needle)
                  (list_ascii_of_string hay) 0 with
  | Some _ => true
  | None => false
  end.

Definition placeholders (url : string) (data : option (gmap string value))
  : bool :=
  match data with
  | Some d =>
      existsb (fun key => includes (String ":"%char key) url)
              (map fst (map_to_list d))
  | None => false
  end.

(** [ajax.request()].  An address that holds a placeholder of the
    payload is rewritten key by key, in the order of the keys, and the
    keys leave the payload: that is outside the embedding.  Otherwise
    [beforeSend], which is [preInitialize], runs inside the promise:
    when it throws the promise is rejected and nothing is fetched;
    when it returns there is one more fetch in flight. *)
Definition HttpRequest_request (a : Api) : R unit :=
  fun w =>
    if placeholders (url a) (data a) then None
    else
      match preInitialize w with
      | (Throw _, w') => Some (Normal tt, w')
      | (Normal _, w') =>
          Some (Normal tt,
                mkWorld (view w') (thead w') (tbody w') (api w')
                        (fetches w' ++ [Some (mkRequest (url a) (data a))])
                        (elements w'))
      end.

(** [toInitialize(instance, instance.api.rendering)] on an instance
    without local [dataset]: a request leaves when the instance has an
    address and either does not wait for a first render or is given
    one; otherwise [preInitialize] and [postInitialize] run on the
    spot. *)
Definition toInitialize : R unit :=
  fun w =>
    let render := match option_map api_rendering (api w) with
                  | Some (RenderingObject _) => true
                  | _ => false
                  end in
    match api w with
    | Some a =>
        if negb (String.eqb (url a) "") && (negb (init a) || render)
        then HttpRequest_request a w
        else (inside preInitialize;; postInitialize) w
    | None => (inside preInitialize;; postInitialize) w
    end.

Inductive destination : Type :=
| Local
| Remote.

(** The three writes that open [toSearch]. *)
Definition toSearch_head (keyword : string) : W unit :=
  on_view (Store.proxy_set "search" (VString keyword));;
  on_view (Store.proxy_set "limit" (VString DEFAULT.LIMIT));;
  on_view (Store.proxy_set "page" (VNumber (Num DEFAULT.PAGE)));;
  mret tt.

(** What the "api" branch of [toSearch] makes of [instance.api.data]. *)
Definition search_payload (keyword : string)
           (data : option (gmap string value)) : gmap string value :=
  let d := default ∅ data in
  let d := <["search" := VString keyword]> d in
  let d := delete "page" (delete "limit" d) in
  if String.eqb keyword "" then delete "search" d else d.

(** The [switch (to)] of [toSearch]; the summary is what [output]
    receives, [None] when nothing is reported. *)
Definition toSearch_switch (to : destination) (keyword : string)
           (exclude : list exclusion) : R (option Rows.paginationInfo) :=
  match to with
  | Local =>
      inside
        (fun w =>
           match Rows.search_local exclude keyword (thead w) (tbody w) with
           | Some (body, _, info) =>
               (Normal (Some info),
                mkWorld (view w) (thead w) body (api w) (fetches w)
                        (elements w))
           | None => (Throw (UserError (VString "SyntaxError")), w)
           end)
  | Remote =>
      inside
        (fun w =>
           match api w with
           | Some a =>
               set_api (Some (mkApi (url a) (init a) (api_rendering a)
                                    (Some (search_payload keyword (data a)))))
                       w
           | None => (Normal tt, w)
           end);;
      toInitialize;;
      mret None
  end.

(** [toSearch({ table, to, keyword, exclude, instance })], arguments
    validated. *)
Definition toSearch (to : destination) (keyword : string)
           (exclude : list exclusion) : R (option Rows.paginationInfo) :=
  inside (toSearch_head keyword);;
  toSearch_switch to keyword exclude.

(** What happens to an instance: a remote search is asked for, or a
    fetch in flight settles.  [success] reads the rendering from the
    [api] object its request was built from; a search changes the
    payload of that object and nothing else. *)
Inductive event : Type :=
| Search (keyword : string)
| Resolve (i : nat) (r : response)
| Reject (i : nat).

Definition settle (i : nat) : W unit :=
  fun w =>
    (Normal tt,
     mkWorld (view w) (thead w) (tbody w) (api w)
             (<[i := None]> (fetches w)) (elements w)).

(** An event of the instance.  When a fetch resolves, [success] runs,
    and [afterSend], which is [postInitialize], after it whether
    [success] threw or not; when a fetch fails [afterSend] runs alone.
    Both run as callbacks of the promise. *)
Definition step (e : event) : R unit :=
  match e with
  | Search keyword => toSearch Remote keyword [];; mret tt
  | Resolve i r =>
      fun w =>
        match fetches w !! i, api w with
        | Some (Some _), Some a =>
            (inside (settle i);;
             unheard (inside (success a r));;
             unheard postInitialize) w
        | _, _ => Some (Normal tt, w)
        end
  | Reject i =>
      fun w =>
        match fetches w !! i with
        | Some (Some _) => (inside (settle i);; unheard postInitialize) w
        | _ => Some (Normal tt, w)
        end
  end.

Fixpoint run (es : list event) : R unit :=
  match es with
  | [] => mret tt
  | e :: rest => step e;; run rest
  end.

(** The table shows the rows of a response. *)
Definition shows (w : world) (r : response) : Prop :=
  map (fun row => map textContent (children row)) (tbody w)
  = map (fun row => map textContent (children row))
        (rendered_body 0 (resp_rows r)).

End Table.


(** ** Vocabulary of the specification *)

Module Spec.
Import JS.

(** The keyword occurs in the text, letter case aside. *)
Definition same_letter (a b : ascii) : Prop :=
  Canonicalize a = Canonicalize b.

Definition occurs_ci (keyword text : string) : Prop :=
  exists before middle behind,
    list_ascii_of_string text = before ++ middle ++ behind
    /\ Forall2 same_letter (list_ascii_of_string keyword) middle.

(** An entry of an [exclude] list names the column of a header cell:
    by the index of the cell, or by a selector or a class the cell
    answers to. *)
Definition names (item : Dom.exclusion) (th : Dom.Th) : Prop :=
  match item with
  | Dom.ByIndex i => i = Dom.th_cellIndex th
  | Dom.BySelector s =>
      In s (Dom.th_selectors th) \/ In s (Dom.th_classList th)
  end.

(** The cell stands in a column that the [exclude] list names. *)
Definition excluded (exclude : list Dom.exclusion) (cols : list Dom.Th)
           (td : Dom.Td) : Prop :=
  exists th item,
    In th cols /\ In item exclude /\ names item th
    /\ Dom.th_cellIndex th = Dom.cellIndex td.

(** The value of a filter read as a pattern in which a dot stands for
    any character and every other character for itself, letter case
    aside: the least of what reading the value as a regular expression
    would mean. *)
Definition dot_or_letter (p t : ascii) : Prop :=
  p = "."%char \/ same_letter p t.

Definition occurs_as_pattern (value text : string) : Prop :=
  exists before middle behind,
    list_ascii_of_string text = before ++ middle ++ behind
    /\ Forall2 dot_or_letter (list_ascii_of_string value) middle.

(** [ceilingOptions] in the words of the specification, on an
    ascending sequence: its prefix up through the first candidate at
    least [n], the whole sequence when there is none. *)
Fixpoint ceiling (n : Z) (sorted : list Z) : list Z :=
  match sorted with
  | [] => []
  | x :: rest => if (n <=? x)%Z then [x] else x :: ceiling n rest
  end.

(** The same for any number that is not NaN: no candidate is at least
    +Infinity, every candidate is at least -Infinity. *)
Definition ceiling_of (n : number) (sorted : list Z) : list Z :=
  match n with
  | Num z => ceiling z sorted
  | NInf => firstn 1 sorted
  | PInf | NaN => sorted
  end.

(** [clampPage] in the words of the specification. *)
Definition clampPage (requested pageCount : Z) : Z :=
  Z.max 1 (Z.min requested pageCount).

(** Ascending order of rows by [row.index]. *)
Definition index_le (a b : Dom.Tr) : Prop :=
  match Dom.index a, Dom.index b with
  | Some x, Some y => (x <= y)%Z
  | _, _ => False
  end.

Definition index_lt (a b : Dom.Tr) : Prop :=
  match Dom.index a, Dom.index b with
  | Some x, Some y => (x < y)%Z
  | _, _ => False
  end.

(** At most one header cell carries a sort marker. *)
Definition at_most_one_marked (ths : list Dom.Th) : Prop :=
  forall j k thj thk,
    ths !! j = Some thj -> ths !! k = Some thk ->
    Sort.marked thj = true -> Sort.marked thk = true -> j = k.

(** The rows of a body that are not among the captured ones. *)
Definition others (captured body : list Dom.Tr) : list Dom.Tr :=
  List.filter
    (fun r => negb (existsb (Nat.eqb (Dom.node r)) (map Dom.node captured)))
    body.

(** The instance is wired and its remote source is [a], whatever the
    payload has become. *)
Definition sourced (a : Table.Api) (w : Table.world) : Prop :=
  Store.wired (Table.view w)
  /\ exists d, Table.api w
               = Some (Table.mkApi (Table.url a) (Table.init a)
                                   (Table.api_rendering a) d).

(** The instance was made with the [colvis] and the [exportAs] option:
    [preInitialize] and [postInitialize] get past their checks of
    [instance.elements]. *)
Definition equipped (w : Table.world) : Prop :=
  Table.exportAs (Table.elements w) = true
  /\ Table.colvis (Table.elements w) = true.

(** The address holds no colon, so no placeholder of a payload. *)
Definition plain_address (url : string) : Prop :=
  Table.includes ":" url = false.

(** A row count the library can read: a number, or none stored. *)
Definition countable (total_rows : Value.value) : Prop :=
  match total_rows with
  | Value.VUndefined | Value.VNull | Value.VNumber _ => True
  | _ => False
  end.

(** [rows'] are the rows [rows] with other classes: same elements,
    same indices, same cells, placeholders still placeholders. *)
Definition relabel (rows rows' : list Dom.Tr) : Prop :=
  Forall2 (fun r r' => Dom.node r' = Dom.node r
                       /\ Dom.index r' = Dom.index r
                       /\ Dom.children r' = Dom.children r
                       /\ Dom.isDummy r' = Dom.isDummy r) rows rows'.

(** A row as [toRender] makes it: indexed, and no placeholder. *)
Definition ingested (r : Dom.Tr) : Prop :=
  Dom.index r <> None /\ Dom.isDummy r = false.

(** The instance is ready for the [toLimit] that follows a response to
    a search: wired, page size "*", the page a number, the row count
    readable, and the rows those of a rendering. *)
Definition searched (w : Table.world) : Prop :=
  Store.wired (Table.view w)
  /\ Store.target (Table.view w) !! "limit"
     = Some (Value.VString DEFAULT.LIMIT)
  /\ (exists p, Store.target (Table.view w) !! "page"
                = Some (Value.VNumber (Num p)))
  /\ countable (default Value.VUndefined
                        (Store.target (Table.view w) !! "total_rows"))
  /\ Forall ingested (Table.tbody w).

(** What a callback leaves of the instance but the classes of head and
    body and the page: the rows with their cells, the columns, the
    remote settings, the fetches, the elements, the row count and the
    search text. *)
Definition kept (w w' : Table.world) : Prop :=
  relabel (Table.tbody w) (Table.tbody w')
  /\ map Dom.th_cellIndex (Table.thead w')
     = map Dom.th_cellIndex (Table.thead w)
  /\ Table.api w' = Table.api w /\ Table.fetches w' = Table.fetches w
  /\ Table.elements w' = Table.elements w
  /\ Store.target (Table.view w') !! "total_rows"
     = Store.target (Table.view w) !! "total_rows"
  /\ Store.target (Table.view w') !! "search"
     = Store.target (Table.view w) !! "search".

End Spec.

(** ** Sample tables *)

Module Sample.
Import JS Value Dom.

(** A body row with one displayed cell. *)
Definition row (n : nat) (text : string) : Tr :=
  mkTr n (Some (Z.of_nat n)) [mkTd 0 1 text true] [].

Definition one_column : list Th := [mkTh 0 [] []].

Definition fruit : list Tr := [row 0 "Apple"; row 1 "Banana"].

Definition twins : list Tr := [row 0 "ab"; row 1 "ab"].

(** A view state with a search, a filter and a limit control, showing
    page [page] of [total_rows] rows, all on one page. *)
Definition view (page total_rows : Z) : Store.state :=
  Store.mkState
    (<["page" := VNumber (Num page)]>
       (<["limit" := VString DEFAULT.LIMIT]>
          (<["search" := VString ""]>
             (<["total_rows" := VNumber (Num total_rows)]> ∅))))
    (Some [("local", [("search", [1]); ("filter", [2]); ("limit", [3])])])
    ∅ [].

(** The same view with one filter set, and a second object holding the
    same filter. *)
Definition filtered_view : Store.state :=
  Store.mkState
    (<["filters" := VObject 1 ["Object"] [("status", VString "active")]]>
       (Store.target (view 1 3)))
    (Store.paginate (view 1 3)) ∅ [].

Definition same_filters : value :=
  VObject 2 ["Object"] [("status", VString "active")].

(** What an instance made with the [colvis] and [exportAs] options and
    the default sorting holds, its page-size control (control 3)
    reporting to a function. *)
Definition equipped : Table.Elements :=
  Table.mkElements true true (Table.mkSorting true true [])
                   {[ 3 := VFunction 0 ]}.

(** The same without the two options. *)
Definition bare : Table.Elements :=
  Table.mkElements false false (Table.mkSorting true true []) ∅.

(** An instance showing page 2 of 30 rows ten at a time, fed by a
    remote source that answers with [{ rows: [...], total_rows }]. *)
Definition remote_world : Table.world :=
  Table.mkWorld
    (Store.mkState
       (<["limit" := VNumber (Num 10)]> (Store.target (view 2 30)))
       (Store.paginate (view 2 30)) ∅ [])
    one_column fruit
    (Some (Table.mkApi "/rows" false (Table.RenderingObject "rows") None))
    [] equipped.

(** A searched instance, one fetch in flight: page 1 of 2 rows, all on
    one page. *)
Definition awaiting : Table.world :=
  Table.mkWorld
    (view 1 2) one_column fruit
    (Some (Table.mkApi "/rows" false (Table.RenderingObject "rows") None))
    [Some (Table.mkRequest "/rows" None)] equipped.

(** A one-column table sorted descending by a click on its header. *)
Definition descending : Sort.state :=
  Sort.mkState [mkTh 0 [CLASS.SORT.DESCENDING] []]
               [row 1 "b"; row 0 "a"]
               [row 1 "b"; row 0 "a"].

(** Rules with one top-level constraint on the value and the fallback
    0: [{ strictEquals: 1, $fallback: 0 }], [{ equals: 1, $fallback: 0 }],
    and the same without fallback. *)
Definition with_fallback (r : Validation.validations) (h : Validation.handler)
  : Validation.validations :=
  Validation.mkValidations
    (Validation.v_or r) (Validation.v_and r) (Validation.variableName r)
    (Validation.v_typeOf r) (Validation.v_instanceOf r) (Validation.v_in r)
    (Validation.v_has r) (Validation.v_equals r)
    (Validation.v_strictEquals r) (Validation.v_execute r) h
    (Validation.v_pattern r) (Validation.v_transform r).

Definition strictEquals_one : Validation.validations :=
  Validation.mkValidations None None None None None None None None
    (Some (VNumber (Num 1))) None Validation.Undefined None
    Validation.Undefined.

Definition equals_one : Validation.validations :=
  Validation.mkValidations None None None None None None None
    (Some (VNumber (Num 1))) None None Validation.Undefined None
    Validation.Undefined.

(** [{ $and: [{ typeOf: "string" }] }] *)
Definition a_string : Validation.validations :=
  Validation.mkValidations None
    (Some [Validation.TypeOf (Validation.One "string")])
    None None None None None None None None Validation.Undefined None
    Validation.Undefined.

(** Two responses of the remote source. *)
Definition apples : Table.response :=
  Table.mkResponse [[("name", "Apple")]; [("name", "Pineapple")]] (Some 2%Z).

Definition bananas : Table.response :=
  Table.mkResponse [[("name", "Banana")]] (Some 1%Z).

End Sample.

(** ** The constructor: controls and first properties *)

Module Instance.
Import JS Value Store.

(** An entry of [options.paginate]: [{ to, as, element }], the element
    resolved. *)
Record control : Type := mkControl {
  to : string;
  as_ : string;
  element : nat
}.

(** [if (!roles[as]) roles[as] = []; roles[as].push(element)] *)
Fixpoint push_role (as_ : string) (element : nat)
         (roles : list (string * list nat)) : list (string * list nat) :=
  match roles with
  | [] => [(as_, [element])]
  | (k, els) :: rest =>
      if String.eqb as_ k then (k, els ++ [element]) :: rest
      else (k, els) :: push_role as_ element rest
  end.

(** [if (typeof acc[to] === "undefined") acc[to] = {}] and the push
    into [acc[to]]. *)
Fixpoint push_target (to as_ : string) (element : nat) (acc : paginate_t)
  : paginate_t :=
  match acc with
  | [] => [(to, [(as_, [element])])]
  | (k, roles) :: rest =>
      if String.eqb to k then (k, push_role as_ element roles) :: rest
      else (k, roles) :: push_target to as_ element rest
  end.

(** The [$transform] of [options.paginate]: the controls grouped by
    target and by role, in the order given. *)
Definition group (array : list control) : paginate_t :=
  fold_left (fun acc c => push_target (to c) (as_ c) (element c) acc)
            array [].

(** The view state the constructor starts from: [own] are the
    properties the table element has of its own when the proxy is
    made; [elements.paginate] is there when the option is. *)
Definition construct (options_paginate : option (list control))
           (own : gmap string value) (controls : gmap nat string) : state :=
  mkState own (option_map group options_paginate) controls [].

(** The table element holds none of the four properties the
    constructor assigns, as when no instance was made on it before. *)
Definition unused (own : gmap string value) : Prop :=
  own !! "page" = None /\ own !! "limit" = None
  /\ own !! "search" = None /\ own !! "filters" = None.

(** [Object.assign(table.properties, { page: DEFAULT.PAGE, limit:
    DEFAULT.LIMIT, search: "", filters: {} })], the new object of
    identity [filters]. *)
Definition assign_properties (filters : nat) : M unit :=
  proxy_set "page" (VNumber (Num DEFAULT.PAGE));;
  proxy_set "limit" (VString DEFAULT.LIMIT);;
  proxy_set "search" (VString "");;
  proxy_set "filters" (VObject filters ["Object"] []);;
  mret tt.

End Instance.

(** ** Notions the further properties are stated with *)

Module Notions.
Import JS Dom.

(** The integers from 0 up to [len] - 1. *)
Definition upto (len : Z) : list Z := map Z.of_nat (seq 0 (Z.to_nat len)).

(** The quotient [n / l] rounded up, and rounded to the nearest
    integer with halves going up, for a positive [l]. *)
Definition ceil_div (n l : Z) : Z := (- ((- n) / l))%Z.

Definition round_div (n l : Z) : Z := ((2 * n + l) / (2 * l))%Z.

(** Page [i] (from 0) of [n] rows taken [l] at a time. *)
Definition chunk (n l i : Z) : list Z :=
  map (Z.add (i * l)) (upto (Z.min l (n - i * l))).

(** The row carries an index, as every row the library ingested does. *)
Definition indexed (row : Tr) : Prop := index row <> None.

(** The row is displayed as far as its classes go. *)
Definition shown (row : Tr) : bool :=
  contains CLASS.TR.VISIBLE (classList row)
  && negb (contains CLASS.TR.HIDDEN (classList row)).

Definition concealed (row : Tr) : bool :=
  contains CLASS.TR.HIDDEN (classList row)
  && negb (contains CLASS.TR.VISIBLE (classList row)).

End Notions.

(** ** Further sample tables *)

Module Samples.
Import JS Value Dom.

(** [n] body rows, indexed by position, one cell each. *)
Definition numbered (n : nat) : list Tr :=
  map (fun i => Sample.row i "x") (seq 0 n).

(** The view of a table that holds all its rows: [page], [limit],
    [search] and [filters] as the constructor leaves them, no
    [total_rows]. *)
Definition local_view (page : Z) (limit : value) : Store.state :=
  Store.mkState
    (<["page" := VNumber (Num page)]>
       (<["limit" := limit]>
          (<["search" := VString ""]>
             (<["filters" := VObject 0 ["Object"] []]> ∅))))
    (Store.paginate (Sample.view 1 1)) ∅ [].

End Samples.

(** ** Header names of a request: [camelToTitleCase], [convertHeaders] *)

Module Http.
Import JS Value.

(** The classes [[A-Z]] and [[a-z]]. *)
Definition isUpperAZ (c : ascii) : bool :=
  ((65 <=? code c) && (code c <=? 90))%N.

Definition isLowerAZ (c : ascii) : bool :=
  ((97 <=? code c) && (code c <=? 122))%N.

(** [g1.toUpperCase()] on a character of [[a-z]]. *)
Definition upper (c : ascii) : ascii := ascii_of_N (code c - 32).

(** [c !== c.toUpperCase()] on one code unit of the Latin-1 range: the
    letters [a-z], [µ], [ß] and [à-ÿ] except [÷] have an upper case
    (inside the range or not), nothing else has. *)
Definition hasUpperCase (c : ascii) : bool :=
  (isLowerAZ c
   || (code c =? 181)
   || ((223 <=? code c) && (code c <=? 255) && negb (code c =? 247)))%N.

(** [s.replace(/[A-Z]/g, (match) => '-' + match)] *)
Fixpoint hyphenate (s : list ascii) : list ascii :=
  match s with
  | [] => []
  | c :: rest =>
      if isUpperAZ c then "-"%char :: c :: hyphenate rest
      else c :: hyphenate rest
  end.

(** [s.replace(/(?:^|-)([a-z])/g, (_, g1) => g1.toUpperCase())] past
    the start of the text: a hyphen followed by a letter of [[a-z]]
    becomes the letter in upper case. *)
Fixpoint capitalizeAfterHyphen (s : list ascii) : list ascii :=
  match s with
  | [] => []
  | c :: rest =>
      if Ascii.eqb c "-"%char then
        match rest with
        | d :: rest' =>
            if isLowerAZ d then upper d :: capitalizeAfterHyphen rest'
            else c :: capitalizeAfterHyphen rest
        | [] => [c]
        end
      else c :: capitalizeAfterHyphen rest
  end.

(** The same replacement from the start of the text, where a letter of
    [[a-z]] matches without a hyphen before it. *)
Definition capitalizeWords (s : list ascii) : list ascii :=
  match s with
  | c :: rest =>
      if isLowerAZ c then upper c :: capitalizeAfterHyphen rest
      else capitalizeAfterHyphen s
  | [] => []
  end.

(** [camelToTitleCase(inputString)]; [inputString[0]] is [undefined]
    on the empty string. *)
Definition camelToTitleCase (inputString : string) : completion string :=
  match inputString with
  | EmptyString =>
      Throw (TypeError
               "Cannot read properties of undefined (reading 'toUpperCase')")
  | String c _ =>
      if negb (hasUpperCase c) then Normal inputString
      else Normal (string_of_list_ascii
                     (capitalizeWords
                        (hyphenate (list_ascii_of_string inputString))))
  end.

(** [convertHeaders(headers)]: the headers are the entries of the
    object in the order of [Object.keys]; [None] stands for a falsy
    [headers].  The result is read as a map. *)
Fixpoint convertEntries (entries : list (string * value))
         (convertedHeaders : gmap string value)
  : completion (gmap string value) :=
  match entries with
  | [] => Normal convertedHeaders
  | (key, v) :: rest =>
      match key with
      | EmptyString =>
          Throw (TypeError
                   "Cannot read properties of undefined (reading 'toUpperCase')")
      | String c _ =>
          bindC (if negb (hasUpperCase c) then Normal key
                 else camelToTitleCase key)
                (fun header =>
                   convertEntries rest (<[header := v]> convertedHeaders))
      end
  end.

Definition convertHeaders (headers : option (list (string * value)))
  : completion (gmap string value) :=
  match headers with
  | Some entries => convertEntries entries ∅
  | None => Normal ∅
  end.

End Http.

(** ** Words of a header name *)

Module Words.
Import JS Http.

(** A word: a letter of [[a-z]] followed by characters that are
    neither letters of [[A-Z]] nor hyphens. *)
Definition plain (c : ascii) : bool :=
  negb (isUpperAZ c) && negb (Ascii.eqb c "-"%char).

Definition word (w : list ascii) : bool :=
  match w with
  | c :: rest => isLowerAZ c && forallb plain rest
  | [] => false
  end.

(** The word with its first letter in upper case. *)
Definition capitalized (w : list ascii) : list ascii :=
  match w with
  | c :: rest => upper c :: rest
  | [] => []
  end.

(** The words written one after the other with a hyphen between
    them. *)
Fixpoint hyphenated (ws : list (list ascii)) : list ascii :=
  match ws with
  | [] => []
  | [w] => w
  | w :: rest => w ++ "-"%char :: hyphenated rest
  end.

End Words.

(** ** A sample page *)

Module Pages.
Import JS Value Dom Handlers.

(** A collation: the order of the code units. *)
Definition collate (a b : string) : Z :=
  match String.compare a b with
  | Lt => (-1)%Z
  | Eq => 0%Z
  | Gt => 1%Z
  end.

(** A table of one column and two rows, "a" above "b", before any
    call of [toSort]. *)
Definition letters : table :=
  mkTable Sample.one_column [Sample.row 0 "a"; Sample.row 1 "b"] [].

End Pages.

(** ** [toFilter] on an instance *)

Module Filtering.
Import JS Value Dom Store Table.

(** The object [filters]: its identity and its entries, every value a
    text. *)
Definition filters_object (id : nat) (filters : gmap string string) : value :=
  VObject id ["Object"]
          (map (fun kv => (fst kv, VString (snd kv))) (map_to_list filters)).

(** The [switch (to)] of [toFilter]: the rows of the table for "local",
    nothing for "api", whose branch is empty. *)
Definition toFilter_switch (to : destination) (filters : gmap string string)
           (exclude : list exclusion) : W (option Rows.paginationInfo) :=
  match to with
  | Local =>
      fun w =>
        match Rows.filter_local exclude filters (thead w) (tbody w) with
        | Some (body, _, info) =>
            (Normal (Some info),
             mkWorld (view w) (thead w) body (api w) (fetches w)
                     (elements w))
        | None => (Throw (UserError (VString "SyntaxError")), w)
        end
  | Remote => mret None
  end.

(** [toFilter({ table, to, filters, exclude, instance })], arguments
    validated. *)
Definition toFilter (to : destination) (id : nat)
           (filters : gmap string string) (exclude : list exclusion)
  : W (option Rows.paginationInfo) :=
  on_view (proxy_set "filters" (filters_object id filters));;
  toFilter_switch to filters exclude.

End Filtering.

(** ** [toPaginate] through the remote source *)

Module RemotePaging.
Import JS Value Store Pagination Dom Table Paging.

(** [toNumber(value, fallback)] on a property: a number, or
    [undefined].  Other values are outside the embedding. *)
Definition property_toNumber (v : value) (fallback : number)
  : option number :=
  match v with
  | VNumber n => Some (toNumber n fallback)
  | VUndefined => Some fallback
  | _ => None
  end.

(** What the "api" branch of [toPaginate] makes of
    [instance.api.data]: [processPagination({ ...data, page:
    toNumber(page, 1), limit }, total_rows)] without its [search]. *)
Definition paginate_payload (page limit_ total_rows : value)
           (data : option (gmap string value))
  : option (gmap string value) :=
  option_map
    (fun page =>
       delete "search"
         (processPagination
            (<["limit" := limit_]>
               (<["page" := VNumber page]> (default ∅ data)))
            total_rows))
    (property_toNumber page (Num 1)).

(** The "api" branch of the [switch (to)] that closes [toPaginate], on
    an instance; [None] marks a run outside the embedding. *)
Definition toPaginate_switch_api (info : Rows.paginationInfo)
  : R (option Rows.paginationInfo) :=
  fun w =>
    let property := fun name =>
      default VUndefined (target (view w) !! name) in
    match api w with
    | Some a =>
        match paginate_payload (property "page") (property "limit")
                               (property "total_rows") (data a) with
        | Some d =>
            (inside (set_api (Some (mkApi (url a) (init a) (api_rendering a)
                                          (Some d))));;
             toInitialize;;
             mret (Some info)) w
        | None => None
        end
    | None => (toInitialize;; mret (Some info)) w
    end.

(** [toPaginate({ table, as, to: "api", instance })], arguments
    validated: what comes ahead of the [switch (to)] is what
    [toPaginate_local] does ahead of its loop over the rows, which the
    "api" branch does not have. *)
Definition toPaginate_remote (as_ : direction)
  : R (option Rows.paginationInfo) :=
  fun w =>
    match toPaginate_local as_ (tbody w) (view w) with
    | (Normal (Some (_, info)), st) =>
        toPaginate_switch_api info
          (mkWorld st (thead w) (tbody w) (api w) (fetches w) (elements w))
    | (Normal None, st) => None
    | (Throw e, st) =>
        Some (Throw e,
              mkWorld st (thead w) (tbody w) (api w) (fetches w)
                      (elements w))
    end.

(** An instance showing page [page] of [total_rows] rows, [limit] at
    a time, the rows [body] on display, fed by a remote source. *)
Definition remote_page (page limit_ total_rows : Z) (body : list Tr)
  : world :=
  mkWorld
    (Store.mkState
       (<["limit" := VNumber (Num limit_)]>
          (Store.target (Sample.view page total_rows)))
       (Store.paginate (Sample.view page total_rows)) ∅ [])
    Sample.one_column body
    (Some (mkApi "/rows" false (RenderingObject "rows") None))
    [] Sample.equipped.

End RemotePaging.

(* ===================================================================== *)
(** * Part II: properties                                                 *)
(* ===================================================================== *)

(** ** Patterns built from escaped text *)

Section RegExpFacts.
Import JS Spec.

Lemma backslash_is_syntax : isSyntaxCharacter "\"%char = true.
Proof. reflexivity. Qed.

Lemma not_syntax_not_backslash c :
  isSyntaxCharacter c = false -> Ascii.eqb c "\"%char = false.
Proof.
  intros H. destruct (Ascii.eqb c "\"%char) eqn:E; [|reflexivity].
  apply Ascii.eqb_eq in E. subst c. discriminate H.
Qed.

(** Escaping then reading the pattern back gives the text itself. *)
Lemma parse_escape (s : list ascii) : parsePattern (escapeChars s) = Some s.
Proof.
  induction s as [|c s IH]; [reflexivity|].
  simpl. destruct (isSyntaxCharacter c) eqn:E.
  - cbn [parsePattern]. rewrite Ascii.eqb_refl, E, IH. reflexivity.
  - cbn [parsePattern]. rewrite (not_syntax_not_backslash _ E), E, IH.
    reflexivity.
Qed.

Lemma escape_parses (keyword : string) :
  new_RegExp_gi (escapeRegExp keyword)
  = Some (mkRegExp (list_ascii_of_string keyword) true true 0).
Proof.
  unfold new_RegExp_gi, escapeRegExp.
  rewrite list_ascii_of_string_of_list_ascii, parse_escape. reflexivity.
Qed.

Lemma charEq_same_letter a b : charEq true a b = true <-> same_letter a b.
Proof. unfold charEq, same_letter. apply Ascii.eqb_eq. Qed.

Lemma matchHere_spec pat text :
  matchHere true pat text = true
  <-> exists middle behind,
        text = middle ++ behind /\ Forall2 same_letter pat middle.
Proof.
  revert text. induction pat as [|p pat IH]; intros text.
  - split; [intros _; exists [], text; split; [reflexivity|constructor]|].
    reflexivity.
  - destruct text as [|t text]; cbn [matchHere].
    + split; [discriminate|].
      intros (middle & behind & Heq & Hall).
      inversion Hall; subst. discriminate Heq.
    + rewrite andb_true_iff, charEq_same_letter, IH. split.
      * intros (Hc & middle & behind & -> & Hall).
        exists (t :: middle), behind. split; [reflexivity|].
        constructor; assumption.
      * intros (middle & behind & Heq & Hall).
        inversion Hall as [|? m ? middle' Hc Hall']; subst.
        injection Heq as -> ->. split; [assumption|].
        exists middle', behind. split; [reflexivity|assumption].
Qed.

Lemma matchFrom_some pat text i :
  (exists j, matchFrom true pat text i = Some j)
  <-> exists before rest,
        text = before ++ rest /\ matchHere true pat rest = true.
Proof.
  revert i. induction text as [|t text IH]; intros i; simpl.
  - destruct (matchHere true pat []) eqn:E.
    + split; [|eauto]. intros _. exists [], []. split; [reflexivity|exact E].
    + split; [intros [j Hj]; discriminate|].
      intros (before & rest & Heq & Hm).
      symmetry in Heq. apply app_eq_nil in Heq as [-> ->]. congruence.
  - destruct (matchHere true pat (t :: text)) eqn:E.
    + split; [|eauto]. intros _. exists [], (t :: text).
      split; [reflexivity|exact E].
    + rewrite IH. split.
      * intros (before & rest & -> & Hm). exists (t :: before), rest.
        split; [reflexivity|exact Hm].
      * intros (before & rest & Heq & Hm).
        destruct before as [|b before].
        -- simpl in Heq. subst rest. congruence.
        -- injection Heq as -> ->. exists before, rest.
           split; [reflexivity|exact Hm].
Qed.

(** A pattern taken at [lastIndex] 0 finds the keyword wherever it
    occurs. *)
Lemma fresh_test_occurs (keyword text : string) (g : bool) :
  snd (RegExp_test (mkRegExp (list_ascii_of_string keyword) g true 0) text)
  = true
  <-> occurs_ci keyword text.
Proof.
  assert (Hsnd : snd (RegExp_test
                        (mkRegExp (list_ascii_of_string keyword) g true 0)
                        text)
                 = match matchFrom true (list_ascii_of_string keyword)
                                   (list_ascii_of_string text) 0 with
                   | Some _ => true
                   | None => false
                   end).
  { unfold RegExp_test. cbn [global lastIndex atoms ignoreCase].
    destruct g; cbn [Nat.ltb Nat.leb skipn];
      destruct (matchFrom true _ _ 0); reflexivity. }
  rewrite Hsnd. clear Hsnd.
  destruct (matchFrom true (list_ascii_of_string keyword)
                      (list_ascii_of_string text) 0) as [j|] eqn:E.
  - split; [intros _|reflexivity].
    assert (Hex : exists j, matchFrom true (list_ascii_of_string keyword)
                              (list_ascii_of_string text) 0 = Some j)
      by eauto.
    apply matchFrom_some in Hex as (before & rest & Heq & Hm).
    apply matchHere_spec in Hm as (middle & behind & -> & Hall).
    exists before, middle, behind. split; assumption.
  - split; [discriminate|].
    intros (before & middle & behind & Heq & Hall). exfalso.
    assert (Hex : exists j, matchFrom true (list_ascii_of_string keyword)
                              (list_ascii_of_string text) 0 = Some j).
    { apply matchFrom_some. exists before, (middle ++ behind).
      split; [exact Heq|]. apply matchHere_spec. eauto. }
    destruct Hex as [j Hj]. congruence.
Qed.

(** The empty keyword occurs in every text. *)
Lemma occurs_ci_empty (text : string) : occurs_ci "" text.
Proof.
  exists [], [], (list_ascii_of_string text).
  split; [reflexivity|constructor].
Qed.

End RegExpFacts.

(** ** Class lists *)

Section ClassListFacts.
Import Dom.

Lemma contains_app c cl cl' :
  contains c (cl ++ cl') = contains c cl || contains c cl'.
Proof. unfold contains. apply existsb_app. Qed.

Lemma contains_add c d cl :
  contains c (add d cl) = String.eqb c d || contains c cl.
Proof.
  unfold add. destruct (contains d cl) eqn:E.
  - destruct (String.eqb c d) eqn:Ecd; [|reflexivity].
    apply String.eqb_eq in Ecd. subst. rewrite E. reflexivity.
  - rewrite contains_app. cbn. rewrite orb_false_r. apply orb_comm.
Qed.

Lemma contains_remove c d cl :
  contains c (remove d cl) = negb (String.eqb d c) && contains c cl.
Proof.
  unfold remove, contains. induction cl as [|x cl IH]; cbn.
  - rewrite andb_false_r. reflexivity.
  - destruct (String.eqb d x) eqn:Edx; cbn.
    + apply String.eqb_eq in Edx. subst x. rewrite IH.
      rewrite (String.eqb_sym c d).
      destruct (String.eqb d c); reflexivity.
    + rewrite IH. destruct (String.eqb c x) eqn:Ecx; cbn.
      * apply String.eqb_eq in Ecx. subst x. rewrite Edx. reflexivity.
      * reflexivity.
Qed.

Lemma isDummy_show b row : isDummy (Rows.show b row) = isDummy row.
Proof.
  unfold isDummy, Rows.show. cbn [classList set_classList].
  rewrite contains_remove. destruct b; rewrite !contains_add; reflexivity.
Qed.

Lemma isDummy_hide row : isDummy (Rows.hide row) = isDummy row.
Proof.
  unfold isDummy, Rows.hide. cbn [classList set_classList].
  rewrite contains_remove, !contains_add. reflexivity.
Qed.

Lemma visible_show b row :
  contains CLASS.TR.VISIBLE (classList (Rows.show b row)) = true.
Proof.
  unfold Rows.show. cbn [classList set_classList].
  rewrite contains_remove. destruct b; rewrite !contains_add; reflexivity.
Qed.

Lemma visible_hide row :
  contains CLASS.TR.VISIBLE (classList (Rows.hide row)) = false.
Proof.
  unfold Rows.hide. cbn [classList set_classList].
  rewrite contains_remove. reflexivity.
Qed.

End ClassListFacts.

(** ** Search *)

Section SearchFacts.
Import JS Dom Rows Spec.

Lemma relabel_show b row : 
  node (show b row) = node row /\ index (show b row) = index row
  /\ children (show b row) = children row
  /\ isDummy (show b row) = isDummy row.
Proof. repeat split; try reflexivity. apply isDummy_show. Qed.

Lemma relabel_hide row : 
  node (hide row) = node row /\ index (hide row) = index row
  /\ children (hide row) = children row
  /\ isDummy (hide row) = isDummy row.
Proof. repeat split; try reflexivity. apply isDummy_hide. Qed.

(** The loop of [toSearch] touches classes only and counts at most
    one per row. *)
Lemma search_reduce_shape ei rows :
  forall p n rows' n' p',
    search_reduce ei p n rows = (rows', n', p') ->
    relabel rows rows'
    /\ (n <= n' <= n + Z.of_nat (List.length rows))%Z.
Proof.
  induction rows as [|row rows IH]; intros p n rows' n' p' H.
  - cbn in H. injection H as <- <- <-. split; [constructor|cbn; lia].
  - cbn [search_reduce] in H.
    destruct (RegExp_test p (join " " (textContents ei row)))
      as [p1 isSearched] eqn:Et.
    destruct (search_reduce ei p1
                (if isSearched then (n + 1)%Z else n) rows)
      as [[rest n1] p2] eqn:Er.
    injection H as <- <- <-.
    apply IH in Er as [Hrel Hn]. split.
    + constructor; [|exact Hrel].
      destruct (isSearched || isDummy row);
        [apply relabel_show | apply relabel_hide].
    + cbn [List.length]. destruct isSearched; lia.
Qed.

Lemma relabel_length rows rows' :
  relabel rows rows' -> List.length rows' = List.length rows.
Proof. intros H. symmetry. eapply Forall2_length, H. Qed.

Lemma relabel_dummies rows rows' :
  relabel rows rows' -> 
  List.length (List.filter isDummy rows')
  = List.length (List.filter isDummy rows)
  /\ (querySelector_dummy rows = None <-> querySelector_dummy rows' = None).
Proof.
  unfold querySelector_dummy.
  induction 1 as [|r r' rows rows' (_ & _ & _ & Hd) _ [IH1 IH2]];
    [split; [reflexivity|tauto]|].
  cbn. rewrite Hd. destruct (isDummy r); cbn.
  - split; [congruence|]. split; discriminate.
  - split; assumption.
Qed.

Lemma find_none_filter {A} (p : A -> bool) l :
  List.find p l = None -> List.filter p l = [].
Proof.
  induction l as [|x l IH]; [reflexivity|]. cbn.
  destruct (p x); [discriminate|exact IH].
Qed.

Lemma find_some_filter {A} (p : A -> bool) l x :
  List.find p l = Some x -> 1 <= List.length (List.filter p l).
Proof.
  induction l as [|y l IH]; [discriminate|]. cbn.
  destruct (p y); cbn; [lia|exact IH].
Qed.

Lemma filter_partition_length {A} (p : A -> bool) l :
  List.length (List.filter p l)
  + List.length (List.filter (fun x => negb (p x)) l)
  = List.length l.
Proof.
  induction l as [|x l IH]; [reflexivity|]. cbn.
  destruct (p x); cbn; lia.
Qed.

Lemma toNumber_Num z : Pagination.toNumber (Num z) (Num 0) = Num z.
Proof. destruct z; reflexivity. Qed.

End SearchFacts.

Section SearchSummary.
Import JS Dom Rows Spec.




(** C4 fails in the code.  Two rows with the same text "ab" are
    searched for "ab", which occurs in both: the pattern object keeps
    the [lastIndex] the first row left (2), the test on the second row
    starts there and fails, so the search counts one row and hides the
    other. *)
Theorem search_same_text_different_verdict :
  map (fun r => map textContent (children r)) Sample.twins
  = [["ab"]; ["ab"]]
  /\ occurs_ci "ab" "ab"
  /\ exists body info,
       search_local [] "ab" Sample.one_column Sample.twins
       = Some (body, 1%Z, info)
       /\ map (fun r => contains CLASS.TR.VISIBLE (classList r)) body
          = [true; false]
       /\ map (fun r => contains CLASS.TR.HIDDEN (classList r)) body
          = [false; true].
Proof.
  split; [reflexivity|]. split.
  - exists [], (list_ascii_of_string "ab"), [].
    split; [reflexivity|]. repeat constructor.
  - eexists _, _. split; [vm_compute; reflexivity|].
    split; reflexivity.
Qed.

End SearchSummary.

(** ** Filter *)

Section FilterFacts.
Import JS Dom Rows Spec.

Lemma compiled_escaped (vs : list string) :
  compiled (map (fun v => new_RegExp_gi (escapeRegExp v)) vs)
  = Some (map (fun v => mkRegExp (list_ascii_of_string v) true true 0) vs).
Proof.
  induction vs as [|v vs IH]; [reflexivity|].
  cbn [map compiled]. rewrite escape_parses, IH. reflexivity.
Qed.

(** The values [Object.values(filters).filter(Boolean)] keeps. *)
Lemma kept_values (filters : gmap string string) (v : string) :
  In v (List.filter (fun v => negb (String.eqb v ""))
                    (map snd (map_to_list filters)))
  <-> v <> "" /\ exists field, filters !! field = Some v.
Proof.
  rewrite filter_In, in_map_iff, negb_true_iff, String.eqb_neq. split.
  - intros [([field v'] & Hv & Hin) Hne]. cbn in Hv. subst v'.
    split; [exact Hne|]. exists field.
    apply elem_of_map_to_list, list_elem_of_In, Hin.
  - intros [Hne [field Hf]]. split; [|exact Hne].
    exists (field, v). split; [reflexivity|].
    apply list_elem_of_In, elem_of_map_to_list, Hf.
Qed.

Lemma searched_texts ei row text :
  In text (textContents ei row)
  <-> exists td, In td (children row) /\ searchable ei td = true
                 /\ textContent td = text.
Proof.
  unfold textContents. rewrite in_map_iff. split.
  - intros (td & Ht & Hin). apply filter_In in Hin as [Hin Hs]. eauto.
  - intros (td & Hin & Hs & Ht). exists td. split; [exact Ht|].
    apply filter_In. split; assumption.
Qed.

Lemma filter_reduce_spec ei patterns rows :
  forall n,
    filter_reduce ei patterns n rows
    = (map (fun row =>
              if isSearched patterns (textContents ei row) || isDummy row
              then show false row else hide row) rows,
       (n + Z.of_nat
              (List.length
                 (List.filter
                    (fun row => isSearched patterns (textContents ei row))
                    rows)))%Z).
Proof.
  induction rows as [|row rows IH]; intros n.
  - cbn. f_equal. lia.
  - cbn [filter_reduce map List.filter]. rewrite IH.
    destruct (isSearched patterns (textContents ei row));
      cbn [List.length]; f_equal; lia.
Qed.

(** The filter reads a cell when the cell is displayed and no entry of
    the [exclude] list names the column it stands in. *)
Lemma excludes_names (th : Th) (item : exclusion) :
  excludes th item = true <-> names item th.
Proof.
  destruct item as [i|sel]; cbn [excludes names].
  - rewrite Nat.eqb_eq. reflexivity.
  - rewrite orb_true_iff, !existsb_exists. split.
    + intros [(x & Hin & Heq)|(x & Hin & Heq)];
        apply String.eqb_eq in Heq; subst x; [left|right]; exact Hin.
    + intros [Hin|Hin]; [left|right]; exists sel;
        (split; [exact Hin|apply String.eqb_refl]).
Qed.

Lemma searchable_spec (exclude : list exclusion) (cols : list Th) (td : Td) :
  searchable (excludeIndex exclude cols) td = true
  <-> displayed td = true /\ ~ excluded exclude cols td.
Proof.
  unfold searchable, includes, excludeIndex, excluded.
  rewrite andb_true_iff, negb_true_iff. split.
  - intros [Hex Hd]. split; [exact Hd|].
    intros (th & item & Hth & Hitem & Hn & Hc).
    apply not_true_iff_false in Hex. apply Hex.
    apply existsb_exists. exists (th_cellIndex th). split.
    + apply in_map, filter_In. split; [exact Hth|].
      apply existsb_exists. exists item. split; [exact Hitem|].
      apply excludes_names, Hn.
    + apply Nat.eqb_eq. symmetry. exact Hc.
  - intros [Hd Hno]. split; [|exact Hd].
    apply not_true_iff_false. intros Hex. apply Hno.
    apply existsb_exists in Hex as (i & Hin & Heq).
    apply Nat.eqb_eq in Heq. subst i.
    apply in_map_iff in Hin as (th & Hc & Hin).
    apply filter_In in Hin as [Hth Hsome].
    apply existsb_exists in Hsome as (item & Hitem & Hfit).
    exists th, item. split; [exact Hth|]. split; [exact Hitem|].
    split; [apply excludes_names, Hfit|exact Hc].
Qed.



End FilterFacts.

(** ** Sorting arrays *)

Section ArraySortFacts.
Import JS.
Context {A : Type}.
Variable comparefn : A -> A -> number.

Lemma sort_insert_perm x l : Permutation (sort_insert comparefn x l) (x :: l).
Proof.
  induction l as [|y l IH]; [reflexivity|]. cbn.
  destruct (positive_result (comparefn x y)); [|reflexivity].
  rewrite IH. apply perm_swap.
Qed.

Lemma Array_sort_perm l : Permutation (Array_sort comparefn l) l.
Proof.
  induction l as [|x l IH]; [reflexivity|]. cbn.
  rewrite sort_insert_perm. constructor. exact IH.
Qed.

Lemma Array_sort_length l :
  List.length (Array_sort comparefn l) = List.length l.
Proof. apply Permutation_length, Array_sort_perm. Qed.

(** A comparator that subtracts keys sorts by key. *)
Variable key : A -> Z.
Hypothesis by_key : forall a b, comparefn a b = Num (key a - key b).

Local Abbreviation key_le := (fun a b : A => (key a <= key b)%Z).

Lemma sort_insert_sorted x l :
  Sorted key_le l -> Sorted key_le (sort_insert comparefn x l).
Proof.
  induction l as [|y l IH]; intros Hs.
  - cbn. repeat constructor.
  - cbn. rewrite by_key. cbn [positive_result].
    destruct (0 <? key x - key y)%Z eqn:E.
    + inversion Hs as [|? ? Hs' Hhd]; subst. constructor; [auto|].
      destruct l as [|z l].
      * cbn. constructor. cbn beta. lia.
      * cbn. rewrite by_key. cbn [positive_result].
        destruct (0 <? key x - key z)%Z.
        -- constructor. inversion Hhd; subst. assumption.
        -- constructor. cbn beta. lia.
    + constructor; [exact Hs|]. constructor. cbn beta. lia.
Qed.

Lemma Array_sort_sorted l : Sorted key_le (Array_sort comparefn l).
Proof.
  induction l as [|x l IH]; [constructor|].
  cbn. apply sort_insert_sorted, IH.
Qed.

End ArraySortFacts.

(** ** Page-size options *)

Section CeilingFacts.
Import JS Pagination Spec.

Local Abbreviation zminus := (fun a b : Z => Num (a - b)).

Lemma sort_insert_items x l :
  sort_insert minus (Item x) (map Item l)
  = map Item (sort_insert zminus x l).
Proof.
  induction l as [|y l IH]; [reflexivity|]. cbn.
  destruct (0 <? x - y)%Z; [|reflexivity]. cbn. f_equal. exact IH.
Qed.

Lemma Array_sort_items l :
  Array_sort minus (map Item l) = map Item (Array_sort zminus l).
Proof.
  induction l as [|x l IH]; [reflexivity|].
  cbn [map Array_sort]. rewrite IH. apply sort_insert_items.
Qed.

(** Nothing compares greater than the sentinel, nor the sentinel
    greater than anything: at the head of the array it stays there. *)
Lemma Array_sort_All_first l :
  Array_sort minus (All :: l) = All :: Array_sort minus l.
Proof. cbn. destruct (Array_sort minus l); reflexivity. Qed.

Lemma slice_ceiling n sorted :
  slice0 (match findIndex (fun item => geq item (Num n)) (map Item sorted)
          with
          | Some i => i + 1
          | None => List.length sorted
          end) (map Item sorted)
  = map Item (ceiling n sorted).
Proof.
  unfold slice0. induction sorted as [|x rest IH]; [reflexivity|].
  cbn [map findIndex geq ceiling]. destruct (n <=? x)%Z; [reflexivity|].
  destruct (findIndex (fun item => geq item (Num n)) (map Item rest))
    as [i|]; cbn [option_map List.length] in *.
  - replace (S i + 1) with (S (i + 1)) by lia.
    cbn [firstn map]. f_equal. exact IH.
  - cbn [firstn map]. f_equal. exact IH.
Qed.

(** The prefix named by the specification: every candidate kept but
    the last is below [n], and so is the last when nothing reaches
    [n]. *)
Lemma ceiling_prefix n sorted :
  exists behind,
    sorted = ceiling n sorted ++ behind
    /\ Forall (fun x => (x < n)%Z) (removelast (ceiling n sorted))
    /\ ((forall x, In x sorted -> (x < n)%Z) -> behind = [])
    /\ (behind <> [] -> exists x, last (ceiling n sorted) = Some x
                                  /\ (n <= x)%Z).
Proof.
  induction sorted as [|x rest (behind & Heq & Hlt & Hall & Hlast)].
  - exists []. repeat split; [constructor|congruence].
  - cbn [ceiling]. destruct (n <=? x)%Z eqn:E.
    + exists rest. split; [reflexivity|]. split; [constructor|]. split.
      * intros H. specialize (H x (or_introl eq_refl)). lia.
      * intros _. exists x. split; [reflexivity|lia].
    + exists behind. split; [cbn; f_equal; exact Heq|]. split; [|split].
      * destruct (ceiling n rest) eqn:Ec; [constructor|].
        cbn [removelast]. constructor; [lia|exact Hlt].
      * intros H. apply Hall. intros y Hy. apply H. right. exact Hy.
      * intros Hne. destruct (Hlast Hne) as (y & Hy & Hge).
        exists y. split; [|exact Hge].
        destruct (ceiling n rest) eqn:Ec; [discriminate Hy|].
        rewrite last_cons, Hy. reflexivity.
Qed.

Lemma findIndex_none_items (p : item -> bool) (l : list Z) :
  (forall x, p (Item x) = false) ->
  findIndex p (map Item l) = None.
Proof.
  intros Hp. induction l as [|x l IH]; [reflexivity|].
  cbn [map findIndex]. rewrite Hp, IH. reflexivity.
Qed.

(** C8, as the code has it.  For numeric candidates, with or without
    the sentinel ahead of them: when [n] is NaN the candidates come
    back as they were given, unsorted; for every other number the
    result is the candidates in ascending order cut after the first
    one at least [n], whole when none is, and the sentinel ahead of
    the candidates stays ahead of the result.  Nothing else retains a
    sentinel. *)
Theorem ceiling_options (n : number) (nums : list Z) :
  exists sorted,
    Permutation sorted nums
    /\ Sorted Z.le sorted
    /\ createPaginationCeiling n (map Item nums)
       = (if isNaN n then map Item nums
          else map Item (ceiling_of n sorted))
    /\ createPaginationCeiling n (All :: map Item nums)
       = (if isNaN n then All :: map Item nums
          else All :: map Item (ceiling_of n sorted))
    /\ createPaginationCeiling (Num 30)
         [All; Item 10; Item 25; Item 50; Item 100]
       = [All; Item 10; Item 25; Item 50].
Proof.
  exists (Array_sort zminus nums).
  split; [apply Array_sort_perm|].
  split; [apply (Array_sort_sorted zminus (fun z => z)); reflexivity|].
  assert (Hlen : List.length (map Item nums)
                 = List.length (Array_sort zminus nums))
    by (rewrite length_map, Array_sort_length; reflexivity).
  split; [|split; [|reflexivity]].
  - destruct n as [n| | |]; [| | |reflexivity];
      unfold createPaginationCeiling; cbn [isNaN ceiling_of];
      rewrite Array_sort_items, Hlen.
    + apply slice_ceiling.
    + rewrite findIndex_none_items by reflexivity.
      unfold slice0. rewrite <- (length_map Item). apply firstn_all.
    + destruct (Array_sort zminus nums) as [|x rest]; reflexivity.
  - destruct n as [n| | |]; [| | |reflexivity];
      unfold createPaginationCeiling; cbn [isNaN ceiling_of];
      rewrite Array_sort_All_first, Array_sort_items;
      cbn [findIndex geq List.length]; rewrite Hlen.
    + pose proof (slice_ceiling n (Array_sort zminus nums)) as H.
      unfold slice0 in *.
      destruct (findIndex (fun item => geq item (Num n))
                          (map Item (Array_sort zminus nums))) as [i|];
        cbn [option_map].
      * replace (S i + 1) with (S (i + 1)) by lia.
        cbn [firstn]. f_equal. exact H.
      * cbn [firstn]. f_equal. exact H.
    + rewrite findIndex_none_items by reflexivity.
      cbn [option_map]. unfold slice0. cbn [firstn]. f_equal.
      rewrite <- (length_map Item). apply firstn_all.
    + destruct (Array_sort zminus nums) as [|x rest]; reflexivity.
Qed.

(** C8 as stated fails: the sentinel is among the candidates and is
    not retained. *)
Lemma ceiling_drops_sentinel_counterexample :
  In All [Item 10; All]
  /\ createPaginationCeiling (Num 5) [Item 10; All] = [Item 10]
  /\ ~ In All (createPaginationCeiling (Num 5) [Item 10; All]).
Proof.
  split; [right; left; reflexivity|]. split; [reflexivity|].
  cbn. intros [H|[]]. discriminate H.
Qed.

End CeilingFacts.

(** ** The view state *)

Section StoreFacts.
Import JS Value Store.

Lemma strictEquals_string a s : strictEquals a (VString s) = true -> a = VString s.
Proof.
destruct a; cbn; try discriminate.
intros H. apply String.eqb_eq in H. congruence.
Qed.

Lemma strictEquals_finite a z :
  strictEquals a (VNumber (Num z)) = true -> a = VNumber (Num z).
Proof.
destruct a as [| | |n| | | |]; cbn; try discriminate.
destruct n; cbn; try discriminate.
intros H. apply Z.eqb_eq in H. congruence.
Qed.

(** The listener never writes to the table's properties, is recorded
    once, and returns when the controls are wired. *)
Lemma propertiesListener_frame property v st :
  target (snd (propertiesListener property v st)) = target st
  /\ paginate (snd (propertiesListener property v st)) = paginate st
  /\ notified (snd (propertiesListener property v st))
     = notified st ++ [(property, v)]
  /\ (wired st -> fst (propertiesListener property v st) = Normal tt).
Proof.
unfold propertiesListener, mbind, M_bind, record_call, paginate_entries, wired.
cbn [paginate target controls notified].
destruct (paginate st) as [p|] eqn:Ep.
- destruct (String.eqb property "limit" || String.eqb property "page").
  + unfold forEach_collection, reset_controls, throw.
    destruct (collect p !! "search") as [cs|] eqn:Es;
      [destruct (collect p !! "filter") as [cf|] eqn:Ef|];
      cbn; repeat split; try reflexivity.
    * intros (p' & Hp & _ & [x Hx]). congruence.
    * intros (p' & Hp & [x Hx] & _). congruence.
  + cbn. repeat split; reflexivity.
- cbn. repeat split; try reflexivity.
  intros (p' & Hp & _). discriminate Hp.
Qed.

Lemma proxy_set_same property v st :
  strictEquals (default VUndefined (target st !! property)) v = true ->
  proxy_set property v st = (Normal true, st).
Proof.
intros H. unfold proxy_set, mbind, M_bind, get. rewrite H. reflexivity.
Qed.

Lemma proxy_set_change property v st :
  strictEquals (default VUndefined (target st !! property)) v = false ->
  exists outcome st',
    proxy_set property v st = (outcome, st')
    /\ target st' = <[property := v]> (target st)
    /\ paginate st' = paginate st
    /\ notified st' = notified st ++ [(property, v)]
    /\ (wired st -> outcome = Normal true).
Proof.
intros H. unfold proxy_set, mbind, M_bind, get, put. rewrite H.
cbn [negb].
set (st1 := mkState (<[property := v]> (target st)) (paginate st)
                    (controls st) (notified st)).
destruct (propertiesListener_frame property v st1) as (Ht & Hp & Hn & Hw).
destruct (propertiesListener property v st1) as [c st2] eqn:El.
cbn [fst snd] in *.
assert (Hwired : wired st -> wired st1) by (intros Hx; exact Hx).
destruct c as [[]|e].
- eexists _, _. split; [reflexivity|]. repeat split; assumption.
- eexists _, _. split; [reflexivity|]. repeat split; try assumption.
  intros Hx. specialize (Hw (Hwired Hx)). discriminate Hw.
Qed.

(** C6, as the code has it.  For a property the library keeps on the
    table (page, limit, search, filters, total_rows), a write through
    the proxy is a no-op when the value is strictly equal ([===]) to
    the current one: the same primitive or the same reference.  Any
    other value, a distinct object with equal contents included, is
    committed and [propertiesListener] is called exactly once with the
    property and the value, before the write returns; it returns
    normally when the controls are wired. *)
Theorem proxy_set_strict (property : string) (v : value) (st : state) :
  In property view_properties ->
  (strictEquals (default VUndefined (target st !! property)) v = true ->
   proxy_set property v st = (Normal true, st))
  /\ (strictEquals (default VUndefined (target st !! property)) v = false ->
      exists outcome st',
        proxy_set property v st = (outcome, st')
        /\ target st' = <[property := v]> (target st)
        /\ notified st' = notified st ++ [(property, v)]
        /\ (wired st -> outcome = Normal true)).
Proof.
intros _. split; [apply proxy_set_same|].
intros H. destruct (proxy_set_change property v st H)
  as (outcome & st' & He & Ht & _ & Hn & Hw).
exists outcome, st'. repeat split; assumption.
Qed.

(** C6 as stated fails: the filters are replaced by a distinct object
    with the same single entry, shallow-equal to the current one; the
    write is committed and the listener is called. *)
Lemma proxy_set_shallow_equal_counterexample :
  shallowEqual
    (default VUndefined (target Sample.filtered_view !! "filters"))
    Sample.same_filters = true
  /\ notified Sample.filtered_view = []
  /\ notified (snd (proxy_set "filters" Sample.same_filters
                              Sample.filtered_view))
     = [("filters", Sample.same_filters)]
  /\ target (snd (proxy_set "filters" Sample.same_filters
                            Sample.filtered_view)) !! "filters"
     = Some Sample.same_filters
  /\ target Sample.filtered_view !! "filters" <> Some Sample.same_filters.
Proof.
split; [reflexivity|]. split; [reflexivity|].
split; [vm_compute; reflexivity|]. split; [vm_compute; reflexivity|].
vm_compute. discriminate.
Qed.

(** A write of text or of a finite number leaves the property holding
    it, and the other properties as they were. *)
Lemma proxy_set_plain property v st :
  wired st ->
  (forall a, strictEquals a v = true -> a = v) ->
  v <> VUndefined ->
  exists st',
    proxy_set property v st = (Normal true, st')
    /\ target st' !! property = Some v
    /\ (forall q, q <> property -> target st' !! q = target st !! q)
    /\ wired st'.
Proof.
intros Hw Hplain Hdef.
destruct (strictEquals (default VUndefined (target st !! property)) v) eqn:E.
- exists st. split; [apply proxy_set_same, E|].
  apply Hplain in E. split; [|split; [reflexivity|exact Hw]].
  destruct (target st !! property) as [x|]; cbn in E; congruence.
- destruct (proxy_set_change property v st E)
    as (outcome & st' & He & Ht & Hp & _ & Ho).
  exists st'. rewrite (Ho Hw) in He. split; [exact He|]. rewrite Ht.
  split; [apply lookup_insert_eq|]. split.
  + intros q Hq. apply lookup_insert_ne. congruence.
  + unfold wired. rewrite Hp. exact Hw.
Qed.

End StoreFacts.

Section ViewWitnesses.
Import JS Value Store.

Lemma sample_view_wired page total_rows : wired (Sample.view page total_rows).
Proof.
eexists. split; [reflexivity|].
split; eexists; vm_compute; reflexivity.
Qed.

(** On the sample view: writing the page it shows changes nothing,
    writing another page commits it and calls the listener once. *)
Lemma proxy_set_strict_witness :
  In "page" view_properties
  /\ proxy_set "page" (VNumber (Num 1)) (Sample.view 1 3)
  = (Normal true, Sample.view 1 3)
  /\ exists outcome st',
       proxy_set "page" (VNumber (Num 2)) (Sample.view 1 3) = (outcome, st')
       /\ target st'
          = <["page" := VNumber (Num 2)]> (target (Sample.view 1 3))
       /\ notified st'
          = notified (Sample.view 1 3) ++ [("page", VNumber (Num 2))]
       /\ outcome = Normal true.
Proof.
assert (Hin : In "page" view_properties) by (left; reflexivity).
split; [exact Hin|]. split.
- apply (proj1 (proxy_set_strict "page" (VNumber (Num 1)) (Sample.view 1 3)
                                 Hin)).
  vm_compute. reflexivity.
- destruct (proj2 (proxy_set_strict "page" (VNumber (Num 2))
                                    (Sample.view 1 3) Hin))
    as (outcome & st' & He & Ht & Hn & Hw).
  + vm_compute. reflexivity.
  + exists outcome, st'. repeat split; try assumption.
    apply Hw, sample_view_wired.
Defined.

End ViewWitnesses.

(** ** Changing the page size *)

Section LimitFacts.
Import JS Value Store Pagination Spec.

(** With a positive page count the page [toLimit] computes is the
    requested page clamped into [1, pageCount]. *)
Lemma clamp_positive (requested pageCount : Z) :
  (1 <= pageCount)%Z ->
  Math_min (Math_max (Num 1) (Num requested)) (Num pageCount)
  = Num (clampPage requested pageCount).
Proof. intros H. cbn. unfold clampPage. f_equal. lia. Qed.

Lemma clamp_examples :
  Math_min (Math_max (Num 1) (Num 5)) (Num 3) = Num 3
  /\ Math_min (Math_max (Num 1) (Num 0)) (Num 3) = Num 1.
Proof. split; reflexivity. Qed.

(** Without a page count (NaN) [toLimit] keeps the page it read. *)
Lemma toLimit_page_nan page total_rows n :
  Math_round_div (ToNumber total_rows) n = NaN ->
  toLimit_page page total_rows (Limit n) = page.
Proof.
intros H. unfold toLimit_page. cbn [limit_value ToNumber]. rewrite H.
destruct (Math_max (Num 1) (ToNumber page)); reflexivity.
Qed.

(** The first write of the page in [toLimit], for a page count of 0.
    With 3 rows and a page size of 10, [Math.round(3 / 10)] is 0;
    [toLimit] computes [Math.min(Math.max(1, 1), 0) = 0], which is not
    NaN, and stores page 0 in place of the page 1 it read, before the
    rows are windowed. *)
Lemma toLimit_zero_pages_stores_page_zero :
  Math_round_div (Num 3) (Num 10) = Num 0
  /\ target (Sample.view 1 3) !! "page" = Some (VNumber (Num 1))
  /\ toLimit_page (VNumber (Num 1)) (VNumber (Num 3)) (Limit (Num 10))
     = VNumber (Num 0)
  /\ exists st',
       toLimit_head (Limit (Num 10)) (Sample.view 1 3) = (Normal tt, st')
       /\ target st' !! "page" = Some (VNumber (Num 0)).
Proof.
split; [reflexivity|]. split; [vm_compute; reflexivity|].
split; [reflexivity|].
eexists. split; vm_compute; reflexivity.
Qed.

End LimitFacts.

(** ** The opening of a search *)

Section SearchHeadFacts.
Import JS Value Store Table.

Lemma on_view_proxy_set property v w :
  wired (view w) ->
  (forall a, strictEquals a v = true -> a = v) ->
  v <> VUndefined ->
  exists st',
    on_view (proxy_set property v) w
    = (Normal true, mkWorld st' (thead w) (tbody w) (api w) (fetches w)
                    (elements w))
    /\ target st' !! property = Some v
    /\ (forall q, q <> property -> target st' !! q = target (view w) !! q)
    /\ wired st'.
Proof.
intros Hw Hplain Hdef.
destruct (proxy_set_plain property v (view w) Hw Hplain Hdef)
  as (st' & He & Hv & Hq & Hw').
exists st'. unfold on_view. rewrite He. repeat split; assumption.
Qed.

(** The three writes that open a search, on a wired instance. *)
Lemma toSearch_head_wired (keyword : string) (w : world) :
  wired (view w) ->
  exists st,
    toSearch_head keyword w
    = (Normal tt, mkWorld st (thead w) (tbody w) (api w) (fetches w)
                    (elements w))
    /\ target st !! "search" = Some (VString keyword)
    /\ target st !! "limit" = Some (VString DEFAULT.LIMIT)
    /\ target st !! "page" = Some (VNumber (Num DEFAULT.PAGE))
    /\ wired st.
Proof.
intros Hw.
destruct (on_view_proxy_set "search" (VString keyword) w Hw
            (fun a => strictEquals_string a keyword) ltac:(discriminate))
  as (st1 & E1 & Hs1 & _ & Hw1).
set (w1 := mkWorld st1 (thead w) (tbody w) (api w) (fetches w)
                    (elements w)) in *.
destruct (on_view_proxy_set "limit" (VString DEFAULT.LIMIT) w1 Hw1
            (fun a => strictEquals_string a _) ltac:(discriminate))
  as (st2 & E2 & Hl2 & Hq2 & Hw2).
set (w2 := mkWorld st2 (thead w1) (tbody w1) (api w1) (fetches w1)
                    (elements w1)) in *.
destruct (on_view_proxy_set "page" (VNumber (Num DEFAULT.PAGE)) w2 Hw2
            (fun a => strictEquals_finite a _) ltac:(discriminate))
  as (st3 & E3 & Hp3 & Hq3 & Hw3).
exists st3. split.
{ unfold toSearch_head, mbind, W_bind. rewrite E1, E2, E3. reflexivity. }
split.
{ rewrite Hq3 by discriminate. cbn. rewrite Hq2 by discriminate.
  exact Hs1. }
split.
{ rewrite Hq3 by discriminate. exact Hl2. }
split; [exact Hp3|exact Hw3].
Qed.

(** The three writes that open a search leave the other properties
    alone. *)
Lemma toSearch_head_frame (keyword : string) (w : world) :
  wired (view w) ->
  exists st,
    toSearch_head keyword w
    = (Normal tt, mkWorld st (thead w) (tbody w) (api w) (fetches w)
                    (elements w))
    /\ target st !! "limit" = Some (VString DEFAULT.LIMIT)
    /\ target st !! "page" = Some (VNumber (Num DEFAULT.PAGE))
    /\ target st !! "total_rows" = target (view w) !! "total_rows"
    /\ wired st.
Proof.
intros Hw.
destruct (on_view_proxy_set "search" (VString keyword) w Hw
            (fun a => strictEquals_string a keyword) ltac:(discriminate))
  as (st1 & E1 & _ & Hq1 & Hw1).
set (w1 := mkWorld st1 (thead w) (tbody w) (api w) (fetches w)
                    (elements w)) in *.
destruct (on_view_proxy_set "limit" (VString DEFAULT.LIMIT) w1 Hw1
            (fun a => strictEquals_string a _) ltac:(discriminate))
  as (st2 & E2 & Hl2 & Hq2 & Hw2).
set (w2 := mkWorld st2 (thead w1) (tbody w1) (api w1) (fetches w1)
                    (elements w1)) in *.
destruct (on_view_proxy_set "page" (VNumber (Num DEFAULT.PAGE)) w2 Hw2
            (fun a => strictEquals_finite a _) ltac:(discriminate))
  as (st3 & E3 & Hp3 & Hq3 & Hw3).
exists st3. split.
{ unfold toSearch_head, mbind, W_bind. rewrite E1. cbn beta iota.
  fold w1. rewrite E2. cbn beta iota. fold w2. rewrite E3. reflexivity. }
cbn [view] in Hq1, Hq2, Hq3.
split; [rewrite Hq3 by discriminate; exact Hl2|].
split; [exact Hp3|]. split; [|exact Hw3].
rewrite Hq3, Hq2, Hq1 by discriminate. reflexivity.
Qed.

(** C10.  Whatever the destination, a search on a wired instance first
    stores the keyword, sets the limit to [DEFAULT.LIMIT] and the page
    to [DEFAULT.PAGE]; rows, head, remote settings and fetches are as
    they were when the [switch] on the destination starts, and the
    [switch] runs in the state those three writes left. *)
Theorem toSearch_resets_limit_and_page (to : destination) (keyword : string)
        (exclude : list Dom.exclusion) (w : world) :
  wired (view w) ->
  exists w1,
    toSearch_head keyword w = (Normal tt, w1)
    /\ target (view w1) !! "search" = Some (VString keyword)
    /\ target (view w1) !! "limit" = Some (VString DEFAULT.LIMIT)
    /\ target (view w1) !! "page" = Some (VNumber (Num DEFAULT.PAGE))
    /\ thead w1 = thead w /\ tbody w1 = tbody w
    /\ api w1 = api w /\ fetches w1 = fetches w
    /\ wired (view w1)
    /\ toSearch to keyword exclude w = toSearch_switch to keyword exclude w1.
Proof.
intros Hw.
destruct (toSearch_head_wired keyword w Hw)
  as (st & Hhead & Hs & Hl & Hp & Hw').
eexists. split; [exact Hhead|]. cbn [view thead tbody api fetches].
repeat (split; [first [assumption|reflexivity]|]).
unfold toSearch, inside, mbind at 1, R_bind. rewrite Hhead. reflexivity.
Qed.

(** A remote search on the sample instance, which shows page 2 with a
    page size of 10 beforehand. *)
Lemma toSearch_resets_limit_and_page_witness :
  wired (view Sample.remote_world)
  /\ exists w1,
       toSearch_head "an" Sample.remote_world = (Normal tt, w1)
       /\ target (view w1) !! "search" = Some (VString "an")
       /\ target (view w1) !! "limit" = Some (VString DEFAULT.LIMIT)
       /\ target (view w1) !! "page" = Some (VNumber (Num DEFAULT.PAGE))
       /\ thead w1 = thead Sample.remote_world
       /\ tbody w1 = tbody Sample.remote_world
       /\ api w1 = api Sample.remote_world
       /\ fetches w1 = fetches Sample.remote_world
       /\ wired (view w1)
       /\ toSearch Remote "an" [] Sample.remote_world
          = toSearch_switch Remote "an" [] w1.
Proof.
split.
- apply sample_view_wired.
- apply (toSearch_resets_limit_and_page Remote "an" [] Sample.remote_world).
  apply sample_view_wired.
Defined.

End SearchHeadFacts.

(** ** Sorting by a click *)

Section ReappendFacts.
Import JS Value Dom Sort Spec.

Lemma Array_sort_ext {A} (f g : A -> A -> number) l :
  (forall a b, In a l -> In b l -> f a b = g a b) ->
  Array_sort f l = Array_sort g l.
Proof.
induction l as [|x l IH]; intros H; [reflexivity|].
cbn [Array_sort]. rewrite IH by (intros; apply H; right; assumption).
assert (Hin : forall b, In b (Array_sort g l) -> In b l)
  by (intros b; apply Permutation_in, Array_sort_perm).
assert (Hx : forall b, In b (Array_sort g l) -> f x b = g x b)
  by (intros b Hb; apply H; [left; reflexivity|right; apply Hin, Hb]).
clear IH H Hin. induction (Array_sort g l) as [|y l' IH]; [reflexivity|].
cbn. rewrite Hx by (left; reflexivity).
destruct (positive_result (g x y)); [|reflexivity].
f_equal. apply IH. intros b Hb. apply Hx. right. exact Hb.
Qed.

Lemma StronglySorted_weaken {A} (R R' : A -> A -> Prop) l :
  StronglySorted R l ->
  (forall a b, In a l -> In b l -> R a b -> R' a b) ->
  StronglySorted R' l.
Proof.
induction 1 as [|x l Hs IH Hall]; intros H; constructor.
- apply IH. intros a b Ha Hb. apply H; right; assumption.
- rewrite List.Forall_forall in *. intros b Hb.
  apply H; [left; reflexivity|right; exact Hb|apply Hall, Hb].
Qed.

(** Rows that all carry an index come out of the index sort in
    ascending order. *)
Lemma byIndex_sorted (l : list Tr) :
  (forall r, In r l -> index r <> None) ->
  StronglySorted index_le (Array_sort byIndex l).
Proof.
intros Hdef.
set (key := fun r : Tr => default 0%Z (index r)).
set (cmp := fun a b : Tr => Num (key a - key b)).
assert (Hext : Array_sort byIndex l = Array_sort cmp l).
{ apply Array_sort_ext. intros a b Ha Hb. unfold byIndex, cmp, key.
  destruct (index a) eqn:Ea; [|exfalso; exact (Hdef a Ha Ea)].
  destruct (index b) eqn:Eb; [|exfalso; exact (Hdef b Hb Eb)].
  reflexivity. }
rewrite Hext.
assert (Hperm : forall r, In r (Array_sort cmp l) -> In r l)
  by (intros r; apply Permutation_in, Array_sort_perm).
apply (StronglySorted_weaken (fun a b => (key a <= key b)%Z)).
- apply Sorted.Sorted_StronglySorted.
  + intros a b c Hab Hbc. cbn beta in *. lia.
  + apply (Array_sort_sorted cmp key). reflexivity.
- intros a b Ha Hb. unfold index_le, key.
  destruct (index a) eqn:Ea; [|exfalso; exact (Hdef a (Hperm a Ha) Ea)].
  destruct (index b) eqn:Eb; [|exfalso; exact (Hdef b (Hperm b Hb) Eb)].
  cbn. tauto.
Qed.

Lemma index_lt_le a b : index_lt a b -> index_le a b.
Proof.
unfold index_lt, index_le.
destruct (index a), (index b); try tauto. lia.
Qed.

Lemma strictly_sorted_inj l :
  StronglySorted index_lt l ->
  forall a b, In a l -> In b l -> index_le a b -> index_le b a -> a = b.
Proof.
induction 1 as [|x l Hs IH Hall]; intros a b Ha Hb Hab Hba; [destruct Ha|].
rewrite List.Forall_forall in Hall.
assert (Hno : forall c, In c l -> index_le c x -> False).
{ intros c Hc Hcx. specialize (Hall c Hc).
  unfold index_lt, index_le in *.
  destruct (index x), (index c); try tauto. lia. }
destruct Ha as [Ha|Ha], Hb as [Hb|Hb].
- congruence.
- subst a. exfalso. exact (Hno b Hb Hba).
- subst b. exfalso. exact (Hno a Ha Hab).
- apply IH; assumption.
Qed.

(** The ascending order is the ingestion order, when ingestion gave
    the rows increasing indices. *)
Lemma sorted_is_ingested (sorted ingested : list Tr) :
  StronglySorted index_le sorted ->
  StronglySorted index_lt ingested ->
  Permutation ingested sorted ->
  sorted = ingested.
Proof.
intros Hs Hi Hp.
apply (StronglySorted_unique_strong index_le).
- intros a b Ha Hb Hab Hba.
  apply (strictly_sorted_inj ingested Hi); try assumption.
  + apply list_elem_of_In in Ha.
    eapply Permutation_in; [symmetry; exact Hp|exact Ha].
  + apply list_elem_of_In, Hb.
- exact Hs.
- eapply StronglySorted_weaken; [exact Hi|].
  intros a b _ _. apply index_lt_le.
- symmetry. exact Hp.
Qed.

Lemma attached_In body r :
  NoDup (map node body) -> In r body -> attached (node r) body = Some r.
Proof.
unfold attached. induction body as [|x body IH]; intros Hnd Hin; [destruct Hin|].
cbn in *. inversion Hnd as [|? ? Hnot Hnd']; subst.
destruct Hin as [->|Hin]; [rewrite Nat.eqb_refl; reflexivity|].
destruct (Nat.eqb (node x) (node r)) eqn:E; [|apply IH; assumption].
apply Nat.eqb_eq in E. exfalso. apply Hnot. rewrite E.
apply list_elem_of_In, in_map, Hin.
Qed.

Lemma filter_all {A} (l : list A) : List.filter (fun _ => true) l = l.
Proof. induction l as [|y b IH]; [reflexivity|]. cbn. f_equal. exact IH. Qed.

Lemma remove_node_filter n body :
  NoDup (map node body) ->
  remove_node n body
  = List.filter (fun r => negb (Nat.eqb (node r) n)) body.
Proof.
induction body as [|x body IH]; intros Hnd; [reflexivity|].
cbn in *. inversion Hnd as [|? ? Hnot Hnd']; subst.
destruct (Nat.eqb (node x) n) eqn:E; cbn.
- apply Nat.eqb_eq in E. subst n.
  rewrite <- (filter_all body) at 1. apply filter_ext_in.
  intros y Hy. symmetry. apply negb_true_iff, Nat.eqb_neq.
  intros Heq. apply Hnot. rewrite <- Heq. apply list_elem_of_In, in_map, Hy.
- f_equal. apply IH, Hnd'.
Qed.

Lemma others_cons row rest body :
  others (row :: rest) body
  = others rest (List.filter (fun r => negb (Nat.eqb (node r) (node row))) body).
Proof.
unfold others. induction body as [|x body IH]; [reflexivity|].
cbn [List.filter map existsb].
destruct (Nat.eqb (node x) (node row)) eqn:E; cbn [negb orb].
- exact IH.
- cbn [List.filter]. destruct (existsb (Nat.eqb (node x)) (map node rest));
    cbn [negb]; [exact IH|f_equal; exact IH].
Qed.

Lemma NoDup_filter_nodes (p : Tr -> bool) body :
  NoDup (map node body) -> NoDup (map node (List.filter p body)).
Proof.
induction body as [|x b IH]; intros Hb; [constructor|].
cbn in *. inversion Hb as [|? ? Hnot Hb']; subst.
destruct (p x); [|auto].
cbn. constructor; [|auto].
intros Hx. apply list_elem_of_In, in_map_iff in Hx as (y & Hy & Hin).
apply filter_In in Hin as [Hin _]. apply Hnot. rewrite <- Hy.
apply list_elem_of_In, in_map, Hin.
Qed.

(** Every captured row being in the body, the loop moves them behind
    the other rows, in the order of the array. *)
Lemma reappend_all sorted :
  forall body,
    NoDup (map node body) ->
    NoDup (map node sorted) ->
    (forall r, In r sorted -> In r body) ->
    reappend sorted body = (Normal tt, others sorted body ++ sorted).
Proof.
induction sorted as [|row rest IH]; intros body Hb Hs Hin.
- cbn. unfold others. cbn. rewrite filter_all, app_nil_r. reflexivity.
- cbn [reappend].
  rewrite (attached_In body row Hb) by (apply Hin; left; reflexivity).
  cbn [map] in Hs. inversion Hs as [|? ? Hnot Hs']; subst.
  rewrite remove_node_filter by exact Hb.
  set (kept := List.filter (fun r => negb (Nat.eqb (node r) (node row))) body).
  assert (Hkept : forall r, In r kept <-> In r body /\ node r <> node row).
  { intros r. unfold kept. rewrite filter_In, negb_true_iff, Nat.eqb_neq.
    reflexivity. }
  rewrite IH.
  + f_equal. rewrite others_cons. fold kept. unfold others.
    rewrite List.filter_app. cbn [List.filter].
    assert (Hrow : existsb (Nat.eqb (node row)) (map node rest) = false).
    { apply not_true_is_false. intros Hex.
      apply existsb_exists in Hex as (n & Hn & Heq).
      apply Nat.eqb_eq in Heq. subst n.
      apply Hnot, list_elem_of_In, Hn. }
    rewrite Hrow. cbn [negb]. rewrite <- app_assoc. reflexivity.
  + rewrite map_app. cbn [map]. apply NoDup_app. split; [|split].
    * apply NoDup_filter_nodes, Hb.
    * intros n Hn Hn'. apply list_elem_of_In in Hn, Hn'.
      destruct Hn' as [<-|[]].
      apply in_map_iff in Hn as (y & Hy & Hin'). apply Hkept in Hin'. tauto.
    * repeat constructor. intros H. apply list_elem_of_In in H. destruct H.
  + exact Hs'.
  + intros r Hr. apply in_or_app. left. apply Hkept. split.
    * apply Hin. right. exact Hr.
    * intros Heq. apply Hnot. rewrite <- Heq.
      apply list_elem_of_In, in_map, Hr.
Qed.

End ReappendFacts.

Section ClickFacts.
Import JS Value Dom Sort Spec.
Variable localeCompare : string -> string -> Z.

Lemma on_target_lookup i f (l : list Th) j :
  on_target i f l !! j
  = (fun th => if Nat.eqb i j then f th else th) <$> l !! j.
Proof. unfold on_target. apply list_lookup_imap. Qed.

Lemma marked_without_descending th :
  marked (set_th_classList th
            (remove CLASS.SORT.DESCENDING (th_classList th)))
  = contains CLASS.SORT.ASCENDING (th_classList th).
Proof.
unfold marked. cbn [th_classList set_th_classList].
rewrite !contains_remove. cbn. apply orb_false_r.
Qed.

Lemma marked_cleared th :
  marked (set_th_classList th
            (remove CLASS.SORT.DESCENDING
               (remove CLASS.SORT.ASCENDING (th_classList th))))
  = false.
Proof.
unfold marked. cbn [th_classList set_th_classList].
rewrite !contains_remove. reflexivity.
Qed.

Lemma marked_added (b : bool) th :
  marked (set_th_classList th
            (add (if b then CLASS.SORT.ASCENDING else CLASS.SORT.DESCENDING)
                 (th_classList th)))
  = true.
Proof.
unfold marked. cbn [th_classList set_th_classList].
rewrite !contains_add. destruct b; cbn; [reflexivity|].
apply orb_true_r.
Qed.

(** The rows the handler sorts: the captured rows as the body has
    them. *)
Lemma live_rows body rows :
  (forall r, In r rows -> exists r', In r' body /\ node r' = node r) ->
  map node (map (current body) rows) = map node rows
  /\ forall r, In r (map (current body) rows) -> In r body.
Proof.
intros Hatt.
assert (Hcur : forall r, In r rows ->
                 In (current body r) body /\ node (current body r) = node r).
{ intros r Hr. destruct (Hatt r Hr) as (r' & Hin & Hn).
  unfold current, attached.
  destruct (List.find (fun x => Nat.eqb (node x) (node r)) body) as [x|] eqn:E.
  - apply find_some in E as [Hx Hb]. apply Nat.eqb_eq in Hb.
    cbn. split; assumption.
  - exfalso. eapply find_none in E; [|exact Hin].
    apply Nat.eqb_neq in E. exact (E Hn). }
split.
- rewrite map_map. apply map_ext_in. intros r Hr. apply Hcur, Hr.
- intros r Hr. apply in_map_iff in Hr as (r0 & <- & Hr0). apply Hcur, Hr0.
Qed.

Lemma others_same_nodes c1 c2 body :
  (forall n, In n (map node c1) <-> In n (map node c2)) ->
  others c1 body = others c2 body.
Proof.
intros H. unfold others. apply filter_ext. intros r. f_equal.
destruct (existsb (Nat.eqb (node r)) (map node c2)) eqn:E.
- apply existsb_exists in E as (n & Hn & Heq). apply existsb_exists.
  exists n. split; [apply H, Hn|exact Heq].
- apply not_true_is_false. intros E'.
  apply existsb_exists in E' as (n & Hn & Heq).
  assert (Hex : existsb (Nat.eqb (node r)) (map node c2) = true)
    by (apply existsb_exists; exists n; split; [apply H, Hn|exact Heq]).
  congruence.
Qed.

(** Sorting the live rows and moving them never throws when every
    captured row is in the body; the body then ends with the sorted
    rows. *)
Lemma sort_and_reappend (comparefn : Tr -> Tr -> number) body rows :
  NoDup (map node body) ->
  NoDup (map node rows) ->
  (forall r, In r rows -> exists r', In r' body /\ node r' = node r) ->
  reappend (Array_sort comparefn (map (current body) rows)) body
  = (Normal tt,
     others rows body ++ Array_sort comparefn (map (current body) rows)).
Proof.
intros Hb Hr Hatt. destruct (live_rows body rows Hatt) as [Hnodes Hin].
set (live := map (current body) rows) in *.
pose proof (Array_sort_perm comparefn live) as Hperm.
rewrite reappend_all.
- f_equal. f_equal. apply others_same_nodes. intros n.
  rewrite <- Hnodes. split; apply Permutation_in, Permutation_map;
    [exact Hperm|symmetry; exact Hperm].
- exact Hb.
- rewrite (Permutation_map node Hperm), Hnodes. exact Hr.
- intros r Hr'. apply Hin. eapply Permutation_in; [exact Hperm|exact Hr'].
Qed.

(** A click never lets a second marker appear. *)
Lemma click_keeps_one_marker exclude ascending i st :
  at_most_one_marked (ths st) ->
  at_most_one_marked (ths (snd (click localeCompare exclude ascending i st))).
Proof.
intros Hone. unfold click.
destruct (ths st !! i) as [target|] eqn:Et; [|exact Hone].
destruct (negb (sortable exclude target)); [exact Hone|].
destruct (contains CLASS.SORT.DESCENDING (th_classList target)).
- destruct (reappend _ (tbody st)) as [[[]|e] body]; cbn [snd ths];
    [|exact Hone].
  intros j k thj thk Hj Hk Hmj Hmk.
  rewrite on_target_lookup in Hj, Hk.
  destruct (ths st !! j) as [tj|] eqn:Ej; [|discriminate].
  destruct (ths st !! k) as [tk|] eqn:Ek; [|discriminate].
  cbn in Hj, Hk. injection Hj as <-. injection Hk as <-.
  apply (Hone j k tj tk Ej Ek).
  + destruct (Nat.eqb i j); [|exact Hmj].
    rewrite marked_without_descending in Hmj. unfold marked.
    rewrite Hmj. reflexivity.
  + destruct (Nat.eqb i k); [|exact Hmk].
    rewrite marked_without_descending in Hmk. unfold marked.
    rewrite Hmk. reflexivity.
- destruct (reappend _ (tbody st)) as [[[]|e] body]; cbn [snd ths];
    [|exact Hone].
  intros j k thj thk Hj Hk Hmj Hmk.
  rewrite on_target_lookup, list_lookup_fmap in Hj, Hk.
  destruct (ths st !! j) as [tj|] eqn:Ej; [|discriminate].
  destruct (ths st !! k) as [tk|] eqn:Ek; [|discriminate].
  cbn in Hj, Hk. injection Hj as <-. injection Hk as <-.
  destruct (Nat.eqb i j) eqn:Eij;
    [|rewrite marked_cleared in Hmj; discriminate].
  destruct (Nat.eqb i k) eqn:Eik;
    [|rewrite marked_cleared in Hmk; discriminate].
  apply Nat.eqb_eq in Eij, Eik. congruence.
Qed.

Lemma clicks_keep_one_marker exclude ascending targets :
  forall st,
    at_most_one_marked (ths st) ->
    at_most_one_marked
      (ths (snd (clicks localeCompare exclude ascending targets st))).
Proof.
induction targets as [|i rest IH]; intros st Hone; [exact Hone|].
cbn [clicks].
pose proof (click_keeps_one_marker exclude ascending i st Hone) as H.
destruct (click localeCompare exclude ascending i st) as [[[]|e] st'];
  cbn [snd] in *; [apply IH, H|exact H].
Qed.

(** One handler, the one a single call of [toSort] adds.  On a
    sortable header cell, with every captured row in the body (and
    carrying an index), a run of the handler returns and leaves the
    captured rows, reordered, behind the other rows of the body.  If
    the cell is marked DESCENDING the rows come back in ascending order
    of [row.index], which is the ingestion order when ingestion gave
    increasing indices, the mark is taken off the cell and no other cell
    changes.  Otherwise the rows are sorted by the comparator, every
    other cell loses its marks and the cell gets exactly one.  Through
    any run of that handler, at most one cell is marked if at most one
    was. *)
Theorem sort_click_cycle (exclude : list exclusion) (ascending : bool)
        (i : nat) (target : Th) (st : state) :
  ths st !! i = Some target ->
  sortable exclude target = true ->
  NoDup (map node (tbody st)) ->
  NoDup (map node (rows st)) ->
  (forall r, In r (rows st) ->
             exists r', In r' (tbody st) /\ node r' = node r
                        /\ index r' <> None) ->
  exists st',
    click localeCompare exclude ascending i st = (Normal tt, st')
    /\ Permutation (rows st') (map (current (tbody st)) (rows st))
    /\ tbody st' = others (rows st) (tbody st) ++ rows st'
    /\ (contains CLASS.SORT.DESCENDING (th_classList target) = true ->
        StronglySorted index_le (rows st')
        /\ (forall ingested,
              StronglySorted index_lt ingested ->
              Permutation ingested (rows st') ->
              rows st' = ingested)
        /\ (exists target',
              ths st' !! i = Some target'
              /\ contains CLASS.SORT.DESCENDING (th_classList target') = false
              /\ marked target'
                 = contains CLASS.SORT.ASCENDING (th_classList target))
        /\ (forall j, j <> i -> ths st' !! j = ths st !! j))
    /\ (contains CLASS.SORT.DESCENDING (th_classList target) = false ->
        (exists target',
            ths st' !! i = Some target'
            /\ marked target' = true
            /\ contains CLASS.SORT.ASCENDING (th_classList target')
               && contains CLASS.SORT.DESCENDING (th_classList target')
               = false)
        /\ (forall j th, j <> i -> ths st' !! j = Some th ->
                         marked th = false))
    /\ (forall targets st0,
          at_most_one_marked (ths st0) ->
          at_most_one_marked
            (ths (snd (clicks localeCompare exclude ascending targets st0)))).
Proof.
intros Ht Hs Hb Hr Hatt.
assert (Hatt' : forall r, In r (rows st) ->
                  exists r', In r' (tbody st) /\ node r' = node r).
{ intros r Hin. destruct (Hatt r Hin) as (r' & ? & ? & _). eauto. }
assert (Hdef : forall r, In r (map (current (tbody st)) (rows st)) ->
                 index r <> None).
{ intros r Hin. apply in_map_iff in Hin as (r0 & <- & Hr0).
  destruct (Hatt r0 Hr0) as (r' & Hin' & Hn & Hi).
  unfold current. rewrite <- Hn, (attached_In _ _ Hb Hin'). exact Hi. }
unfold click. rewrite Ht, Hs. cbn [negb].
destruct (contains CLASS.SORT.DESCENDING (th_classList target)) eqn:Ed.
- rewrite (sort_and_reappend byIndex _ _ Hb Hr Hatt').
  eexists. split; [reflexivity|]. cbn [rows tbody ths].
  split; [apply Array_sort_perm|]. split; [reflexivity|].
  split; [|split; [discriminate|apply clicks_keep_one_marker]].
  intros _. split; [apply byIndex_sorted, Hdef|].
  split.
  { intros ingested Hi Hp. apply sorted_is_ingested; try assumption.
    apply byIndex_sorted, Hdef. }
  split.
  + eexists. rewrite on_target_lookup, Ht. cbn. rewrite Nat.eqb_refl.
    split; [reflexivity|]. split.
    * cbn [th_classList set_th_classList]. rewrite contains_remove.
      reflexivity.
    * apply marked_without_descending.
  + intros j Hj. rewrite on_target_lookup.
    destruct (Nat.eqb i j) eqn:E; [apply Nat.eqb_eq in E; congruence|].
    destruct (ths st !! j); reflexivity.
- set (currentSort := if contains CLASS.SORT.ASCENDING (th_classList target)
                      then negb ascending else ascending).
  rewrite (sort_and_reappend
             (byColumn localeCompare (th_cellIndex target) currentSort)
             _ _ Hb Hr Hatt').
  eexists. split; [reflexivity|]. cbn [rows tbody ths].
  split; [apply Array_sort_perm|]. split; [reflexivity|].
  split; [discriminate|split; [|apply clicks_keep_one_marker]].
  intros _. split.
  + eexists. rewrite on_target_lookup, list_lookup_fmap, Ht. cbn.
    rewrite Nat.eqb_refl. split; [reflexivity|].
    split; [apply marked_added|].
    cbn [th_classList set_th_classList].
    destruct currentSort; rewrite !contains_add, !contains_remove; reflexivity.
  + intros j th Hj Hth. rewrite on_target_lookup, list_lookup_fmap in Hth.
    destruct (Nat.eqb i j) eqn:E; [apply Nat.eqb_eq in E; congruence|].
    destruct (ths st !! j) as [tj|]; [|discriminate].
    cbn in Hth. injection Hth as <-. apply marked_cleared.
Qed.

End ClickFacts.

Section ClickWitness.
Import JS Value Dom Sort Spec.

(** A body of two rows sorted descending on its one column: the click
    puts row 0 back ahead of row 1 and takes the mark off. *)
Lemma sort_click_cycle_witness :
  exists st',
    click (fun _ _ => 0%Z) [] true 0 Sample.descending = (Normal tt, st')
    /\ tbody st' = [Sample.row 0 "a"; Sample.row 1 "b"]
    /\ map marked (ths st') = [false].
Proof.
destruct (sort_click_cycle (fun _ _ => 0%Z) [] true 0
            (mkTh 0 [CLASS.SORT.DESCENDING] []) Sample.descending)
  as (st' & Hc & _).
- reflexivity.
- reflexivity.
- apply (bool_decide_unpack _). vm_compute. exact I.
- apply (bool_decide_unpack _). vm_compute. exact I.
- intros r [<-|[<-|[]]]; eexists; (split; [|split; [reflexivity|discriminate]]).
  + left. reflexivity.
  + right. left. reflexivity.
- exists st'. split; [exact Hc|].
  vm_compute in Hc. injection Hc as <-. split; reflexivity.
Defined.

End ClickWitness.

(** ** Validation *)

Section ValidationFacts.
Import JS Value Validation.
Variable JSON_stringify : value -> option string.
Variable String_ : value -> string.
Variable IsLooselyEqual : value -> value -> bool.
Variable onPrototype : list string -> string -> bool.

Local Abbreviation validate :=
  (validateVariable JSON_stringify String_ IsLooselyEqual onPrototype).

(** What [validateFallback] does with the three kinds of fallback. *)
Lemma validateFallback_cases v message :
  validateFallback v Undefined message = Throw (TableJSError message)
  /\ (forall f, validateFallback v (Function f) message = f v)
  /\ (forall c, c <> VUndefined ->
                validateFallback v (Constant c) message = Normal c).
Proof.
split; [reflexivity|]. split; [reflexivity|].
intros c Hc. destruct c; try reflexivity. congruence.
Qed.

(** A failed [$and] does reach the fallback: a number checked against
    [{ $and: [{ typeOf: "string" }] }] gives the fallback value, the
    result of the fallback function on the number, or a
    [TableJSError]. *)
Lemma validateVariable_and_fallback (z : Z) :
  validate (VNumber (Num z))
           (Sample.with_fallback Sample.a_string (Constant (VString "")))
  = Normal (VString "")
  /\ (forall f,
        validate (VNumber (Num z))
                 (Sample.with_fallback Sample.a_string (Function f))
        = f (VNumber (Num z)))
  /\ exists message,
       validate (VNumber (Num z)) Sample.a_string
       = Throw (TableJSError message).
Proof.
split; [reflexivity|]. split; [reflexivity|].
eexists. reflexivity.
Qed.

(** C9 fails in the code for the top-level constraints [equals] and
    [strictEquals].  The value 2 fails [strictEquals: 1]; the message
    that is to go to [validateFallback] reads [strictEqualsValue], which
    no scope declares there, so a [ReferenceError] is thrown, with the
    fallback 0, with a fallback function, and without fallback alike
    (where a [TableJSError] was due).  The same holds of [equals: 1] and
    [equalsValue] whenever 2 is not loosely equal to 1. *)
Theorem validateVariable_fallback_not_reached :
  validate (VNumber (Num 2))
           (Sample.with_fallback Sample.strictEquals_one
                                 (Constant (VNumber (Num 0))))
  = Throw (ReferenceError "strictEqualsValue")
  /\ validate (VNumber (Num 2))
              (Sample.with_fallback Sample.strictEquals_one
                                    (Function (fun v => Normal v)))
     = Throw (ReferenceError "strictEqualsValue")
  /\ validate (VNumber (Num 2)) Sample.strictEquals_one
     = Throw (ReferenceError "strictEqualsValue")
  /\ validate (VNumber (Num 2))
              (Sample.with_fallback Sample.equals_one
                                    (Constant (VNumber (Num 0))))
     = (if IsLooselyEqual (VNumber (Num 2)) (VNumber (Num 1))
        then Normal (VNumber (Num 2))
        else Throw (ReferenceError "equalsValue")).
Proof.
split; [reflexivity|]. split; [reflexivity|]. split; [reflexivity|].
unfold validateVariable, Sample.with_fallback, Sample.equals_one. cbn.
destruct (IsLooselyEqual (VNumber (Num 2)) (VNumber (Num 1))); reflexivity.
Qed.

End ValidationFacts.

(** ** Complements *)

Section SearchComplements.
Import JS Dom Rows Spec.

Lemma test_empty_pattern (text : string) :
  RegExp_test (mkRegExp [] true true 0) text
  = (mkRegExp [] true true 0, true).
Proof.
unfold RegExp_test. cbn [global lastIndex atoms ignoreCase Nat.ltb Nat.leb].
cbn [skipn]. destruct (list_ascii_of_string text); reflexivity.
Qed.

(** The empty keyword: the empty pattern matches at [lastIndex] 0 and
    leaves it there, so every row is searched and shown. *)
Lemma search_empty_keyword ei rows :
  forall n,
    search_reduce ei (mkRegExp [] true true 0) n rows
    = (map (show true) rows, (n + Z.of_nat (List.length rows))%Z,
       mkRegExp [] true true 0).
Proof.
induction rows as [|row rows IH]; intros n.
- cbn. rewrite Z.add_0_r. reflexivity.
- cbn [search_reduce]. rewrite test_empty_pattern, IH.
  cbn [orb map List.length].
  replace (n + Z.of_nat (S (List.length rows)))%Z
    with (n + 1 + Z.of_nat (List.length rows))%Z by lia.
  reflexivity.
Qed.

(** The first row a search tests is judged by occurrence of the
    keyword. *)
Lemma search_first_row ei keyword row rows n :
  exists row' rows' n' p',
    search_reduce ei (mkRegExp (list_ascii_of_string keyword) true true 0)
                  n (row :: rows)
    = (row' :: rows', n', p')
    /\ (contains CLASS.TR.HIDDEN (classList row') = false
        <-> occurs_ci keyword (join " " (textContents ei row))
            \/ isDummy row = true).
Proof.
cbn [search_reduce].
pose proof (fresh_test_occurs keyword (join " " (textContents ei row)) true)
  as Hocc.
destruct (RegExp_test _ (join " " (textContents ei row))) as [p1 b] eqn:Et.
cbn [snd] in Hocc.
destruct (search_reduce ei p1 _ rows) as [[rows' n'] p'].
eexists _, _, _, _. split; [reflexivity|].
destruct b; cbn [orb].
- unfold show. cbn [classList set_classList]. rewrite contains_remove.
  cbn. split; [intros _; left; apply Hocc; reflexivity|reflexivity].
- destruct (isDummy row) eqn:Ed.
  + unfold show. cbn [classList set_classList]. rewrite contains_remove.
    cbn. split; [intros _; right; reflexivity|reflexivity].
  + unfold hide. cbn [classList set_classList].
    rewrite contains_remove, !contains_add. cbn. split; [discriminate|].
    intros [H|H]; [apply Hocc in H|]; discriminate.
Qed.

End SearchComplements.

Section PaginationComplements.
Import JS Value Pagination Spec.

(** [processPagination] clamps the same way for a positive page count
    and answers 1 when the page count is 0 or NaN. *)
Lemma processPagination_page (data : gmap string value)
      (page total_rows limit : Z) :
  data !! "page" = Some (VNumber (Num page)) ->
  data !! "limit" = Some (VNumber (Num limit)) ->
  processPagination data (VNumber (Num total_rows)) !! "page"
  = Some (VNumber
            (match Math_round_div (Num total_rows) (Num limit) with
             | Num pageCount =>
                 if (1 <=? pageCount)%Z then Num (clampPage page pageCount)
                 else if (pageCount =? 0)%Z then Num 1
                 else Num (Z.min (Z.max 1 page) pageCount)
             | PInf => Num (Z.max 1 page)
             | NInf => NInf
             | NaN => Num 1
             end)).
Proof.
intros Hp Hl. unfold processPagination. rewrite Hp, Hl. cbn [orDefault].
rewrite lookup_insert_eq. f_equal. f_equal. cbn [ToNumber].
destruct (Math_round_div (Num total_rows) (Num limit)) as [pc| | |];
  cbn [Math_max Math_min toNumber]; try reflexivity.
- destruct (1 <=? pc)%Z eqn:E1.
  + apply Z.leb_le in E1. unfold clampPage.
    replace (Z.min (Z.max 1 page) pc) with (Z.max 1 (Z.min page pc)) by lia.
    destruct (Z.max 1 (Z.min page pc)) eqn:E; try reflexivity. lia.
  + apply Z.leb_gt in E1. destruct (pc =? 0)%Z eqn:E0.
    * apply Z.eqb_eq in E0. subst pc.
      replace (Z.min (Z.max 1 page) 0) with 0%Z by lia. reflexivity.
    * apply Z.eqb_neq in E0.
      destruct (Z.min (Z.max 1 page) pc) eqn:E; try reflexivity. lia.
- destruct (Z.max 1 page) eqn:E; try reflexivity. lia.
Qed.

(** The default options, for a table of 30 rows. *)
Lemma ceiling_of_default_items :
  createPaginationCeiling (Num 30) ITEMS = [All; Item 10; Item 25; Item 50].
Proof. reflexivity. Qed.

End PaginationComplements.

(** ** Pages of rows *)

Section PageItemsFacts.
Import JS Value Store Pagination Dom Paging Notions.

Lemma upto_In (len k : Z) : In k (upto len) <-> (0 <= k < len)%Z.
Proof.
unfold upto. rewrite in_map_iff. split.
- intros (i & <- & Hi). apply in_seq in Hi. lia.
- intros H. exists (Z.to_nat k). split; [lia|]. apply in_seq. lia.
Qed.

Lemma upto_length (len : Z) : List.length (upto len) = Z.to_nat len.
Proof. unfold upto. rewrite length_map, length_seq. reflexivity. Qed.

Lemma seq_from (s b : nat) :
  map Z.of_nat (seq s b)
  = map (Z.add (Z.of_nat s)) (map Z.of_nat (seq 0 b)).
Proof.
revert s. induction b as [|b IH]; intros s; [reflexivity|].
cbn [seq map]. rewrite (IH (S s)), (IH 1). rewrite !map_map.
f_equal; [lia|]. apply map_ext. intros i. lia.
Qed.

Lemma upto_app (a b : Z) :
  (0 <= a)%Z -> (0 <= b)%Z ->
  upto (a + b) = upto a ++ map (Z.add a) (upto b).
Proof.
intros Ha Hb. unfold upto. rewrite Z2Nat.inj_add by lia.
rewrite seq_app, map_app. f_equal. cbn [Nat.add].
rewrite seq_from. rewrite Z2Nat.id by lia. reflexivity.
Qed.

Lemma upto_succ (m : Z) : (0 <= m)%Z -> upto (m + 1) = upto m ++ [m].
Proof.
intros H. rewrite upto_app by lia. f_equal.
change (upto 1) with [0%Z]. cbn [map]. f_equal. lia.
Qed.

Lemma upto_lookup (len : Z) (i : nat) :
  (Z.of_nat i < len)%Z -> upto len !! i = Some (Z.of_nat i).
Proof.
intros H. unfold upto. rewrite list_lookup_fmap.
rewrite lookup_seq_lt by lia. reflexivity.
Qed.

Lemma mapC_Normal {A B : Type} (f : A -> completion B) (g : A -> B) l :
  (forall x, In x l -> f x = Normal (g x)) ->
  Validation.mapC f l = Normal (map g l).
Proof.
induction l as [|x l IH]; intros H; [reflexivity|].
cbn. rewrite (H x (or_introl eq_refl)). cbn.
rewrite IH by (intros y Hy; apply H; right; exact Hy). reflexivity.
Qed.

Lemma Array_from_length_Num (len : Z) :
  (0 <= len <= 2 ^ 32 - 1)%Z ->
  Array_from_length (Num len) = Normal (upto len).
Proof.
intros H. unfold Array_from_length, ToLength.
replace (Z.min (Z.max len 0) (2 ^ 53 - 1)) with len by lia.
destruct (2 ^ 32 - 1 <? len)%Z eqn:E; [lia|reflexivity].
Qed.

Lemma ceil_div_bounds (n l : Z) :
  (0 < l)%Z -> ((ceil_div n l - 1) * l < n <= ceil_div n l * l)%Z.
Proof.
intros Hl. unfold ceil_div.
pose proof (Z.div_mod (- n) l ltac:(lia)) as Hdm.
pose proof (Z.mod_pos_bound (- n) l Hl) as Hm. nia.
Qed.

Lemma ceil_div_nonneg (n l : Z) :
  (0 <= n)%Z -> (0 < l)%Z -> (0 <= ceil_div n l <= n)%Z.
Proof.
intros Hn Hl. pose proof (ceil_div_bounds n l Hl) as H. nia.
Qed.

(** The pages, spelled out. *)
Lemma createPaginationItems_pages (n l : Z) :
  (0 <= n <= 2 ^ 32 - 1)%Z -> (0 < l)%Z ->
  createPaginationItems (Num n) (Num l)
  = Normal (map (fun i => map Num (chunk n l i)) (upto (ceil_div n l))).
Proof.
intros Hn Hl. unfold createPaginationItems.
assert (Hc : Math_ceil_div (Num n) (Num l) = Num (ceil_div n l)).
{ cbn. destruct (l =? 0)%Z eqn:E; [lia|reflexivity]. }
rewrite Hc. pose proof (ceil_div_nonneg n l ltac:(lia) Hl) as Hb.
pose proof (ceil_div_bounds n l Hl) as Hcb.
rewrite Array_from_length_Num by lia. cbn [bindC].
apply mapC_Normal. intros i Hi. apply upto_In in Hi.
cbn [num_mul num_add Math_min num_sub num_neg].
assert (Hlen : (0 <= Z.min (i * l + l) n + - (i * l) <= 2 ^ 32 - 1)%Z) by nia.
rewrite Array_from_length_Num by exact Hlen. cbn [bindC]. f_equal.
unfold chunk. rewrite !map_map.
replace (Z.min (i * l + l) n + - (i * l))%Z with (Z.min l (n - i * l)) by lia.
apply map_ext. intros k. reflexivity.
Qed.

Lemma concat_chunks (n l : Z) (m : nat) :
  (0 <= n)%Z -> (0 < l)%Z -> (Z.of_nat m <= ceil_div n l)%Z ->
  concat (map (chunk n l) (upto (Z.of_nat m)))
  = upto (Z.min (Z.of_nat m * l) n).
Proof.
intros Hn Hl. pose proof (ceil_div_bounds n l Hl) as Hcb.
induction m as [|m IH]; intros Hm.
- change (Z.of_nat 0) with 0%Z.
  replace (Z.min (0 * l) n) with 0%Z by lia. reflexivity.
- replace (Z.of_nat (S m)) with (Z.of_nat m + 1)%Z by lia.
  rewrite upto_succ by lia. rewrite map_app, concat_app, IH by lia.
  cbn [map concat]. rewrite app_nil_r. unfold chunk.
  replace (Z.min (Z.of_nat m * l) n) with (Z.of_nat m * l)%Z by nia.
  rewrite <- upto_app by nia. f_equal. nia.
Qed.

Lemma chunk_In (n l i k : Z) :
  In k (chunk n l i) <-> (i * l <= k < Z.min ((i + 1) * l) n)%Z.
Proof.
unfold chunk. rewrite in_map_iff. split.
- intros (j & <- & Hj). apply upto_In in Hj. lia.
- intros H. exists (k - i * l)%Z. split; [lia|]. apply upto_In. lia.
Qed.

(** X1.  [createPaginationItems] cuts the row positions 0 .. n-1 into
    consecutive pages: put end to end the pages give every position
    once and in order, there are [ceil (n / l)] of them, none is empty,
    none is longer than [l] and all but the last hold exactly [l]. *)
Theorem createPaginationItems_partition (n l : Z) :
  (0 <= n <= 2 ^ 32 - 1)%Z -> (0 < l)%Z ->
  exists pages,
    createPaginationItems (Num n) (Num l) = Normal (map (map Num) pages)
    /\ concat pages = upto n
    /\ Z.of_nat (List.length pages) = ceil_div n l
    /\ forall i page,
         pages !! i = Some page ->
         page = chunk n l (Z.of_nat i)
         /\ (1 <= Z.of_nat (List.length page) <= l)%Z
         /\ (S i < List.length pages ->
             Z.of_nat (List.length page) = l).
Proof.
intros Hn Hl. exists (map (chunk n l) (upto (ceil_div n l))).
pose proof (ceil_div_nonneg n l ltac:(lia) Hl) as Hb.
pose proof (ceil_div_bounds n l Hl) as Hcb.
split; [rewrite createPaginationItems_pages, map_map by assumption;
        reflexivity|].
split.
{ rewrite <- (Z2Nat.id (ceil_div n l)) at 1 by lia.
  rewrite concat_chunks by lia. f_equal. lia. }
split; [rewrite length_map, upto_length; lia|].
intros i page Hi. rewrite length_map, upto_length.
rewrite list_lookup_fmap in Hi.
destruct (upto (ceil_div n l) !! i) as [j|] eqn:Ej; [|discriminate].
assert (Hlt : (Z.of_nat i < ceil_div n l)%Z).
{ apply lookup_lt_Some in Ej. rewrite upto_length in Ej. lia. }
rewrite upto_lookup in Ej by exact Hlt. injection Ej as <-.
cbn in Hi. injection Hi as <-.
split; [reflexivity|]. unfold chunk. rewrite length_map, upto_length.
split; [nia|]. intros Hlast. nia.
Qed.

Lemma createPaginationItems_partition_witness :
  exists pages,
    createPaginationItems (Num 25) (Num 10) = Normal (map (map Num) pages)
    /\ concat pages = upto 25
    /\ Z.of_nat (List.length pages) = ceil_div 25 10
    /\ forall i page,
         pages !! i = Some page ->
         page = chunk 25 10 (Z.of_nat i)
         /\ (1 <= Z.of_nat (List.length page) <= 10)%Z
         /\ (S i < List.length pages ->
             Z.of_nat (List.length page) = 10%Z).
Proof.
apply (createPaginationItems_partition 25 10); [vm_compute|lia].
split; discriminate.
Defined.

(** X2.  Where no page can be cut: without rows, and for a page size that
    is no number, there is no page at all; for a page size of 0 over
    some rows the page count is infinite and [Array.from] throws a
    [RangeError]. *)
Theorem createPaginationItems_without_pages (n l : Z) :
  createPaginationItems (Num n) NaN = Normal []
  /\ createPaginationItems NaN (Num l) = Normal []
  /\ ((n <= 0)%Z -> (0 < l)%Z ->
      createPaginationItems (Num n) (Num l) = Normal [])
  /\ ((0 < n)%Z ->
      createPaginationItems (Num n) (Num 0) = Throw RangeError)
  /\ createPaginationItems (Num 0) (Num 0) = Normal [].
Proof.
split; [reflexivity|]. split; [reflexivity|]. split; [|split].
- intros Hn Hl. unfold createPaginationItems.
  assert (Hc : Math_ceil_div (Num n) (Num l) = Num (ceil_div n l)).
  { cbn. destruct (l =? 0)%Z eqn:E; [lia|reflexivity]. }
  rewrite Hc. pose proof (ceil_div_bounds n l Hl) as Hcb.
  unfold Array_from_length, ToLength.
  replace (Z.min (Z.max (ceil_div n l) 0) (2 ^ 53 - 1)) with 0%Z by nia.
  reflexivity.
- intros Hn. unfold createPaginationItems. cbn [Math_ceil_div Z.eqb].
  destruct (n =? 0)%Z eqn:E0; [lia|].
  destruct (0 <? n)%Z eqn:E1; [reflexivity|lia].
- reflexivity.
Qed.

End PageItemsFacts.

Section WindowFacts.
Import JS Value Store Pagination Dom Paging Notions.

Lemma strictEquals_number a n :
  strictEquals a (VNumber n) = true -> a = VNumber n.
Proof.
destruct a as [| | |m| | | |]; cbn; try discriminate.
destruct m, n; cbn; try discriminate; try reflexivity.
intros H. apply Z.eqb_eq in H. congruence.
Qed.

(** The row loop on a body whose selected rows all carry an index. *)
Lemma limit_rows_indexed items offset body :
  Forall (fun r => selected r = true -> indexed r) body ->
  forall i,
    limit_rows items offset i body
    = Some (map (fun r => if selected r
                          then if includes_index items r
                               then Rows.show false r else Rows.hide r
                          else r)
                (List.filter (fun r => negb (selected r && isDummy r)) body)).
Proof.
induction 1 as [|r body Hr _ IH]; intros i; [reflexivity|].
cbn [limit_rows List.filter]. destruct (selected r) eqn:Es.
- specialize (Hr eq_refl). unfold indexed in Hr. unfold assign_index.
  destruct (index r) as [z|] eqn:Ei; [|congruence].
  rewrite IH. cbn [andb]. destruct (isDummy r); cbn [negb map]; [reflexivity|].
  rewrite Es. destruct (includes_index items r); reflexivity.
- rewrite IH. cbn [andb negb map option_map]. rewrite Es. reflexivity.
Qed.

Lemma applyLimitation_run lim pagingLength body st T cz pg :
  wired st ->
  Forall (fun r => selected r = true -> indexed r) body ->
  limitCount lim (List.length (List.filter selected body)) = Num cz ->
  (0 < cz)%Z ->
  totalLength (default VUndefined (target st !! "total_rows"))
              (List.length (List.filter selected body))
  = Some (Num T) ->
  (0 <= T <= 2 ^ 32 - 1)%Z ->
  numeric (default VUndefined (target st !! "page")) = Some pg ->
  let pages := map (fun i => map Num (chunk T cz i)) (upto (ceil_div T cz)) in
  let paginationLength :=
    toNumber pagingLength (Num (Z.of_nat (List.length pages))) in
  let currentPage := Math_min (Math_max (Num 1) pg) paginationLength in
  let items := default [] (at_index pages (num_sub currentPage (Num 1))) in
  exists st',
    applyLimitation lim pagingLength body st
    = (Normal
         (Some
            (map (fun r => if selected r
                           then if includes_index items r
                                then Rows.show false r else Rows.hide r
                           else r)
                 (List.filter (fun r => negb (selected r && isDummy r)) body),
             window_info currentPage paginationLength items
               (toNumber (Num (Z.of_nat (List.length items))) (Num 0))
               (Num T))),
       st')
    /\ target st' !! "page" = Some (VNumber currentPage)
    /\ (forall q, q <> "page" -> target st' !! q = target st !! q)
    /\ wired st'.
Proof.
intros Hw Hidx Hc Hcz Ht HT Hp pages paginationLength currentPage items.
unfold applyLimitation. unfold mbind at 1, M_bind at 1, get at 1.
cbn beta iota. rewrite Ht, Hc.
rewrite (createPaginationItems_pages T cz HT Hcz).
unfold mbind at 1. unfold M_bind at 1. unfold get at 1. cbn beta iota.
rewrite Hp.
fold pages. fold paginationLength. fold currentPage.
destruct (proxy_set_plain "page" (VNumber currentPage) st Hw
            (fun a => strictEquals_number a currentPage) ltac:(discriminate))
  as (st' & He & Hv & Hq & Hw').
unfold mbind, M_bind. rewrite He. unfold mret, M_ret.
fold items. rewrite (limit_rows_indexed items _ body Hidx 0).
cbn [option_map]. exists st'. repeat split; assumption.
Qed.

Lemma limit_value_plain lim :
  (forall a, strictEquals a (limit_value lim) = true -> a = limit_value lim)
  /\ limit_value lim <> VUndefined.
Proof.
destruct lim as [|n]; cbn [limit_value]; (split; [|discriminate]).
- intros a. apply strictEquals_string.
- intros a. apply strictEquals_number.
Qed.

Lemma toLimit_page_number p0 trv lim :
  exists pg, toLimit_page (VNumber (Num p0)) trv lim = VNumber pg.
Proof.
unfold toLimit_page. destruct lim as [|n]; [eauto|].
destruct (isNaN _); eauto.
Qed.

(** The head of [toLimit] on a wired table whose page is a number. *)
Lemma toLimit_head_run lim st p0 :
  wired st ->
  target st !! "page" = Some (VNumber (Num p0)) ->
  exists st1,
    toLimit_head lim st = (Normal tt, st1)
    /\ target st1 !! "limit" = Some (limit_value lim)
    /\ target st1 !! "page"
       = Some (toLimit_page (VNumber (Num p0))
                 (default VUndefined (target st !! "total_rows")) lim)
    /\ (forall q, q <> "page" -> q <> "limit" ->
                  target st1 !! q = target st !! q)
    /\ wired st1.
Proof.
intros Hw Hp. unfold toLimit_head.
unfold mbind at 1, M_bind at 1, get at 1. cbn beta iota.
unfold mbind at 1, M_bind at 1, get at 1. cbn beta iota.
rewrite Hp. cbn [default from_option id].
destruct (limit_value_plain lim) as [Hinj Hdef].
destruct (proxy_set_plain "limit" (limit_value lim) st Hw Hinj Hdef)
  as (sta & Ea & Hla & Hqa & Hwa).
destruct (toLimit_page_number p0
            (default VUndefined (target st !! "total_rows")) lim)
  as [pg Hpg].
rewrite Hpg.
destruct (proxy_set_plain "page" (VNumber pg) sta Hwa
            (fun a => strictEquals_number a pg) ltac:(discriminate))
  as (stb & Eb & Hpb & Hqb & Hwb).
exists stb. unfold mbind, M_bind. rewrite Ea. cbn beta iota. rewrite Eb.
split; [reflexivity|].
split; [rewrite Hqb by discriminate; exact Hla|].
split; [exact Hpb|].
split; [|exact Hwb].
intros q Hq1 Hq2. rewrite Hqb, Hqa by congruence. reflexivity.
Qed.

Lemma toLimit_local_run lim body st T cz p0 :
  wired st ->
  Forall (fun r => selected r = true -> indexed r) body ->
  limitCount lim (List.length (List.filter selected body)) = Num cz ->
  (0 < cz)%Z ->
  totalLength (default VUndefined (target st !! "total_rows"))
              (List.length (List.filter selected body))
  = Some (Num T) ->
  (0 <= T <= 2 ^ 32 - 1)%Z ->
  target st !! "page" = Some (VNumber (Num p0)) ->
  let total_rows := default VUndefined (target st !! "total_rows") in
  let pagingLength :=
    Math_round_div (ToNumber total_rows) (ToNumber (limit_value lim)) in
  exists pg,
    toLimit_page (VNumber (Num p0)) total_rows lim = VNumber pg
    /\ let pages :=
         map (fun i => map Num (chunk T cz i)) (upto (ceil_div T cz)) in
       let paginationLength :=
         toNumber pagingLength (Num (Z.of_nat (List.length pages))) in
       let currentPage := Math_min (Math_max (Num 1) pg) paginationLength in
       let items :=
         default [] (at_index pages (num_sub currentPage (Num 1))) in
       exists st',
         toLimit_local lim body st
         = (Normal
              (Some
                 (map (fun r => if selected r
                                then if includes_index items r
                                     then Rows.show false r else Rows.hide r
                                else r)
                      (List.filter
                         (fun r => negb (selected r && isDummy r)) body),
                  window_info currentPage paginationLength items
                    (toNumber (Num (Z.of_nat (List.length items))) (Num 0))
                    (Num T))),
            st')
         /\ target st' !! "page" = Some (VNumber currentPage)
         /\ target st' !! "limit" = Some (limit_value lim)
         /\ (forall q, q <> "page" -> q <> "limit" ->
                       target st' !! q = target st !! q)
         /\ wired st'.
Proof.
intros Hw Hidx Hc Hcz Ht HT Hp total_rows pagingLength.
destruct (toLimit_page_number p0 total_rows lim) as [pg Hpg].
exists pg. split; [exact Hpg|]. intros pages paginationLength currentPage items.
destruct (toLimit_head_run lim st p0 Hw Hp)
  as (st1 & Eh & Hl1 & Hp1 & Hq1 & Hw1).
fold total_rows in Hp1. rewrite Hpg in Hp1.
assert (Htr : target st1 !! "total_rows" = target st !! "total_rows")
  by (apply Hq1; discriminate).
destruct (applyLimitation_run lim pagingLength body st1 T cz pg Hw1 Hidx Hc Hcz)
  as (st' & Ea & Hpa & Hqa & Hwa).
{ rewrite Htr. exact Ht. }
{ exact HT. }
{ rewrite Hp1. reflexivity. }
exists st'. split.
{ unfold toLimit_local. unfold mbind at 1, M_bind at 1, get at 1.
  cbn beta iota. fold total_rows. fold pagingLength.
  unfold mbind at 1, M_bind at 1. rewrite Eh. exact Ea. }
split; [exact Hpa|].
split; [rewrite Hqa by discriminate; exact Hl1|].
split; [|exact Hwa].
intros q Hqp Hql. rewrite Hqa, Hq1 by assumption. reflexivity.
Qed.

Lemma selected_show b r : selected (Rows.show b r) = selected r.
Proof.
unfold selected, Rows.show. cbn [classList set_classList].
rewrite contains_remove. destruct b; rewrite !contains_add; reflexivity.
Qed.

Lemma selected_hide r : selected (Rows.hide r) = selected r.
Proof.
unfold selected, Rows.hide. cbn [classList set_classList].
rewrite contains_remove, !contains_add. reflexivity.
Qed.

Lemma shown_show b r :
  shown (Rows.show b r) = true /\ concealed (Rows.show b r) = false.
Proof.
unfold shown, concealed, Rows.show. cbn [classList set_classList].
rewrite !contains_remove. destruct b; rewrite !contains_add; split; reflexivity.
Qed.

Lemma shown_hide r :
  shown (Rows.hide r) = false /\ concealed (Rows.hide r) = true.
Proof.
unfold shown, concealed, Rows.hide. cbn [classList set_classList].
rewrite !contains_remove, !contains_add. split; reflexivity.
Qed.

Lemma includes_index_spec items r :
  includes_index (map Num items) r = true
  <-> exists k, index r = Some k /\ In k items.
Proof.
unfold includes_index. destruct (index r) as [z|].
- rewrite existsb_exists. split.
  + intros (x & Hx & He). apply in_map_iff in Hx as (k & <- & Hk).
    cbn in He. apply Z.eqb_eq in He. subst. eauto.
  + intros (k & [= <-] & Hk). exists (Num z). split.
    * apply in_map, Hk.
    * cbn. apply Z.eqb_refl.
- split; [discriminate|]. intros (k & H & _). discriminate H.
Qed.

(** What the row loop of [applyLimitation] leaves: the rows of the
    body but the placeholders, relabelled; each selected row shown
    when its index is among the items and concealed otherwise. *)
Lemma window_rows items body :
  Forall (fun r => selected r = true -> indexed r) body ->
  let body' :=
    map (fun r => if selected r
                  then if includes_index (map Num items) r
                       then Rows.show false r else Rows.hide r
                  else r)
        (List.filter (fun r => negb (selected r && isDummy r)) body) in
  Spec.relabel
    (List.filter (fun r => negb (selected r && isDummy r)) body) body'
  /\ forall r, In r body' -> selected r = true ->
       exists k, index r = Some k
                 /\ (shown r = true <-> In k items)
                 /\ concealed r = negb (shown r).
Proof.
intros Hidx body'. split.
- unfold body', Spec.relabel.
  induction (List.filter (fun r => negb (selected r && isDummy r)) body)
    as [|r l IH]; [constructor|].
  cbn [map]. constructor; [|exact IH].
  destruct (selected r); [|repeat split; reflexivity].
  destruct (includes_index (map Num items) r);
    [apply relabel_show|apply relabel_hide].
- intros r' Hin Hsel. unfold body' in Hin.
  apply in_map_iff in Hin as (r & <- & Hr).
  apply filter_In in Hr as [Hr _].
  rewrite List.Forall_forall in Hidx. specialize (Hidx r Hr).
  destruct (selected r) eqn:Es.
  + specialize (Hidx eq_refl). unfold indexed in Hidx.
    destruct (index r) as [k|] eqn:Ek; [|congruence].
    exists k.
    destruct (includes_index (map Num items) r) eqn:Ei.
    * destruct (shown_show false r) as [-> ->].
      split; [exact Ek|]. split; [|reflexivity].
      split; [intros _|reflexivity].
      apply includes_index_spec in Ei as (k' & Hk' & Hin').
      rewrite Ek in Hk'. injection Hk' as <-. exact Hin'.
    * destruct (shown_hide r) as [-> ->].
      split; [exact Ek|]. split; [|reflexivity].
      split; [discriminate|]. intros Hin'.
      assert (includes_index (map Num items) r = true)
        by (apply includes_index_spec; eauto).
      congruence.
  + congruence.
Qed.

Lemma upto_nth (len j : Z) :
  (0 <= j < len)%Z -> nth_error (upto len) (Z.to_nat j) = Some j.
Proof.
intros H. unfold upto. rewrite nth_error_map.
rewrite nth_error_seq. destruct (Z.to_nat j <? Z.to_nat len) eqn:E.
- cbn. f_equal. lia.
- apply Nat.ltb_ge in E. lia.
Qed.

Lemma at_index_chunk (n l i j : Z) :
  (0 <= j < Z.min l (n - i * l))%Z ->
  at_index (map Num (chunk n l i)) (Num j) = Some (Num (i * l + j)).
Proof.
intros Hj. unfold at_index. destruct (j <? 0)%Z eqn:E; [lia|].
unfold chunk. rewrite !nth_error_map, upto_nth by lia. reflexivity.
Qed.

(** Page [p] of the pages of [T] rows taken [c] at a time. *)
Lemma window_at (T c p PL : Z) :
  (0 <= T)%Z -> (0 < c)%Z -> (1 <= p <= ceil_div T c)%Z ->
  let pages := map (fun i => map Num (chunk T c i)) (upto (ceil_div T c)) in
  let items := map Num (chunk T c (p - 1)) in
  Z.of_nat (List.length pages) = ceil_div T c
  /\ default [] (at_index pages (num_sub (Num p) (Num 1))) = items
  /\ window_info (Num p) (Num PL) items
       (toNumber (Num (Z.of_nat (List.length items))) (Num 0)) (Num T)
     = Rows.mkInfo (Num p) (Num PL) (Num ((p - 1) * c + 1))
                   (Num (Z.min (p * c) T)) (Num T).
Proof.
intros HT Hc Hp pages items.
pose proof (ceil_div_bounds T c Hc) as Hcb.
split; [unfold pages; rewrite length_map, upto_length; lia|].
split.
- unfold pages, at_index. cbn [num_sub num_neg num_add].
  replace (p + - (1))%Z with (p - 1)%Z by lia.
  destruct (p - 1 <? 0)%Z eqn:E; [lia|].
  rewrite nth_error_map, upto_nth by lia. reflexivity.
- assert (Hlen : Z.of_nat (List.length items) = Z.min c (T - (p - 1) * c)).
  { unfold items, chunk. rewrite !length_map, upto_length. nia. }
  unfold window_info. rewrite Hlen, !toNumber_Num.
  unfold items. cbn [num_sub num_neg num_add].
  rewrite !at_index_chunk by nia. cbn [default from_option id num_add].
  rewrite !toNumber_Num. f_equal; f_equal; nia.
Qed.

End WindowFacts.

Section WindowTheorems.
Import JS Value Store Pagination Dom Paging Notions.

Lemma limitCount_min (l : Z) (R : nat) :
  limitCount (Limit (Num l)) R = Num (Z.min l (Z.of_nat R)).
Proof.
unfold limitCount, num_le. destruct (Z.of_nat R <=? l)%Z eqn:E.
- f_equal. lia.
- f_equal. lia.
Qed.

(** X3.  [toLimit] on a table that holds all its rows (no [total_rows] was
    ever stored): the page is clamped into 1 .. ceil (R / c), where [R]
    counts the rows and [c] is the page size capped at [R]; the
    placeholders are removed; a row is shown exactly when its index
    lies in the window of that page, and concealed otherwise; the
    summary names the window. *)
Theorem toLimit_local_window (l p0 : Z) (body : list Tr) (st : state) :
  wired st ->
  Forall (fun r => selected r = true -> indexed r) body ->
  (0 < Z.of_nat (List.length (List.filter selected body)) <= 2 ^ 32 - 1)%Z ->
  (0 < l)%Z ->
  default VUndefined (target st !! "total_rows") = VUndefined ->
  target st !! "page" = Some (VNumber (Num p0)) ->
  let R := Z.of_nat (List.length (List.filter selected body)) in
  let c := Z.min l R in
  let p := Spec.clampPage p0 (ceil_div R c) in
  exists body' info st',
    toLimit_local (Limit (Num l)) body st = (Normal (Some (body', info)), st')
    /\ target st' !! "page" = Some (VNumber (Num p))
    /\ target st' !! "limit" = Some (VNumber (Num l))
    /\ (1 <= p <= ceil_div R c)%Z
    /\ Spec.relabel
         (List.filter (fun r => negb (selected r && isDummy r)) body) body'
    /\ (forall r, In r body' -> selected r = true ->
          exists k, index r = Some k
                    /\ (shown r = true
                        <-> ((p - 1) * c <= k < Z.min (p * c) R)%Z)
                    /\ concealed r = negb (shown r))
    /\ info = Rows.mkInfo (Num p) (Num (ceil_div R c))
                          (Num ((p - 1) * c + 1)) (Num (Z.min (p * c) R))
                          (Num R).
Proof.
intros Hw Hidx HR Hl Htr Hp R c p.
assert (Hc : (0 < c)%Z) by (unfold c; lia).
pose proof (ceil_div_bounds R c Hc) as Hcb.
assert (Hpb : (1 <= p <= ceil_div R c)%Z) by (unfold p, Spec.clampPage; nia).
destruct (toLimit_local_run (Limit (Num l)) body st R c p0 Hw Hidx
            (limitCount_min l _))
  as (pg & Hpg & H); try assumption; try lia.
{ rewrite Htr. reflexivity. }
rewrite Htr in Hpg, H. cbn in Hpg. injection Hpg as <-.
cbv zeta in H. destruct H as (st' & Erun & Hpage & Hlimit & _ & _).
change (Math_round_div (ToNumber VUndefined)
          (ToNumber (limit_value (Limit (Num l))))) with NaN in *.
cbn [toNumber] in *.
destruct (window_at R c p (ceil_div R c) ltac:(lia) Hc Hpb)
  as (Hlen & Hitems & Hinfo).
rewrite Hlen in *.
rewrite (clamp_positive p0 (ceil_div R c)) in * by lia.
fold p in Erun, Hpage. rewrite Hitems in Erun.
destruct (window_rows (chunk R c (p - 1)) body Hidx) as [Hrel Hrows].
eexists _, _, st'. split; [exact Erun|].
split; [exact Hpage|]. split; [exact Hlimit|]. split; [exact Hpb|].
split; [exact Hrel|]. split; [|exact Hinfo].
intros r Hin Hsel. destruct (Hrows r Hin Hsel) as (k & Hk & Hs & Hcn).
exists k. split; [exact Hk|]. split; [|exact Hcn].
rewrite Hs, chunk_In. replace (p - 1 + 1)%Z with p by lia. reflexivity.
Qed.

Lemma round_le_ceil (t l c : Z) :
  (0 < t)%Z -> (0 < c <= l)%Z ->
  (0 <= round_div t l <= ceil_div t c)%Z.
Proof.
intros Ht Hc. unfold round_div.
pose proof (ceil_div_bounds t c ltac:(lia)) as Hcb.
pose proof (Z.div_mod (2 * t + l) (2 * l) ltac:(lia)) as Hdm.
pose proof (Z.mod_pos_bound (2 * t + l) (2 * l) ltac:(lia)) as Hm.
split; [apply Z.div_pos; lia|].
destruct (Z_le_gt_dec ((2 * t + l) / (2 * l)) (ceil_div t c)) as [|Hgt];
  [assumption|exfalso].
set (q := ((2 * t + l) / (2 * l))%Z) in *. set (k := ceil_div t c) in *.
assert (Hk : (0 < k)%Z) by nia.
assert (H1 : (k * c <= k * l)%Z) by (apply Z.mul_le_mono_nonneg_l; lia).
assert (H2 : (l * (k + 1) <= l * q)%Z) by (apply Z.mul_le_mono_nonneg_l; lia).
lia.
Qed.

Lemma toLimit_counted_run (l t p0 : Z) (body : list Tr) (st : state) :
  wired st ->
  Forall (fun r => selected r = true -> indexed r) body ->
  (0 < Z.of_nat (List.length (List.filter selected body)))%Z ->
  (0 < l)%Z -> (0 < t <= 2 ^ 32 - 1)%Z ->
  target st !! "total_rows" = Some (VNumber (Num t)) ->
  target st !! "page" = Some (VNumber (Num p0)) ->
  let R := Z.of_nat (List.length (List.filter selected body)) in
  let c := Z.min l R in
  let pageCount := round_div t l in
  let p := if (1 <=? pageCount)%Z then Spec.clampPage p0 pageCount
           else 1%Z in
  exists body' info st',
    toLimit_local (Limit (Num l)) body st = (Normal (Some (body', info)), st')
    /\ target st' !! "page" = Some (VNumber (Num p))
    /\ (1 <= p <= ceil_div t c)%Z
    /\ Spec.relabel
         (List.filter (fun r => negb (selected r && isDummy r)) body) body'
    /\ (forall r, In r body' -> selected r = true ->
          exists k, index r = Some k
                    /\ (shown r = true
                        <-> ((p - 1) * c <= k < Z.min (p * c) t)%Z)
                    /\ concealed r = negb (shown r))
    /\ info = Rows.mkInfo (Num p)
                 (Num (if (1 <=? pageCount)%Z then pageCount
                       else ceil_div t c))
                 (Num ((p - 1) * c + 1)) (Num (Z.min (p * c) t)) (Num t).
Proof.
intros Hw Hidx HR Hl Ht Htr Hp R c pageCount p.
assert (Hc : (0 < c <= l)%Z) by (unfold c; lia).
pose proof (ceil_div_bounds t c ltac:(lia)) as Hcb.
pose proof (round_le_ceil t l c ltac:(lia) Hc) as Hrc. fold pageCount in Hrc.
assert (Hpb : (1 <= p <= ceil_div t c)%Z).
{ unfold p, Spec.clampPage. destruct (1 <=? pageCount)%Z eqn:E; nia. }
destruct (toLimit_local_run (Limit (Num l)) body st t c p0 Hw Hidx
            (limitCount_min l _))
  as (pg & Hpg & H); try assumption; try lia.
{ rewrite Htr. reflexivity. }
rewrite Htr in Hpg, H. cbn [default from_option id] in Hpg, H.
assert (Hrd : Math_round_div (ToNumber (VNumber (Num t)))
                (ToNumber (limit_value (Limit (Num l))))
              = Num pageCount).
{ cbn. destruct (l =? 0)%Z eqn:E0; [lia|].
  destruct (0 <? l)%Z eqn:E1; [reflexivity|lia]. }
unfold toLimit_page in Hpg. rewrite Hrd in Hpg, H.
cbn [Math_max Math_min isNaN] in Hpg. injection Hpg as <-.
cbv zeta in H. destruct H as (st' & Erun & Hpage & _).
destruct (window_at t c p
            (if (1 <=? pageCount)%Z then pageCount else ceil_div t c)
            ltac:(lia) ltac:(lia) Hpb)
  as (Hlen & Hitems & Hinfo).
rewrite Hlen in *.
assert (HPL : toNumber (Num pageCount) (Num (ceil_div t c))
              = Num (if (1 <=? pageCount)%Z then pageCount
                     else ceil_div t c)).
{ destruct (1 <=? pageCount)%Z eqn:E.
  - destruct pageCount; try reflexivity; lia.
  - replace pageCount with 0%Z by lia. reflexivity. }
rewrite HPL in *.
assert (Hcp : Math_min (Math_max (Num 1)
                          (Num (Z.min (Z.max 1 p0) pageCount)))
                (Num (if (1 <=? pageCount)%Z then pageCount
                      else ceil_div t c))
              = Num p).
{ cbn [Math_max Math_min]. f_equal. unfold p, Spec.clampPage.
  destruct (1 <=? pageCount)%Z eqn:E; lia. }
rewrite Hcp in *. rewrite Hitems in Erun.
destruct (window_rows (chunk t c (p - 1)) body Hidx) as [Hrel Hrows].
eexists _, _, st'. split; [exact Erun|].
split; [exact Hpage|]. split; [exact Hpb|].
split; [exact Hrel|]. split; [|exact Hinfo].
intros r Hin Hsel. destruct (Hrows r Hin Hsel) as (k & Hk & Hs & Hcn).
exists k. split; [exact Hk|]. split; [|exact Hcn].
rewrite Hs, chunk_In. replace (p - 1 + 1)%Z with p by lia. reflexivity.
Qed.


(** C3 fails in the code for a page count of 0.  When
    [Math.round(total_rows / limitSize)] is 0, [toLimit] first stores
    [Math.min(Math.max(1, page), 0) = 0], which is not NaN, and
    [applyLimitation] then clamps that 0 into the pages the rows are
    cut into: the call ends on page 1 and reports page 1, whatever page
    the table was on, also when that page was one of those pages and
    not the first. *)
Theorem toLimit_zero_pages_loses_page (l t p0 : Z) (body : list Tr)
        (st : state) :
  wired st ->
  Forall (fun r => selected r = true -> indexed r) body ->
  (0 < Z.of_nat (List.length (List.filter selected body)))%Z ->
  (0 < l)%Z -> (0 < t <= 2 ^ 32 - 1)%Z ->
  target st !! "total_rows" = Some (VNumber (Num t)) ->
  target st !! "page" = Some (VNumber (Num p0)) ->
  Math_round_div (Num t) (Num l) = Num 0 ->
  (1 < p0 <= ceil_div t (Z.min l (Z.of_nat
                                    (List.length
                                       (List.filter selected body)))))%Z ->
  exists body' info st',
    toLimit_local (Limit (Num l)) body st = (Normal (Some (body', info)), st')
    /\ target st' !! "page" = Some (VNumber (Num 1))
    /\ target st' !! "page" <> target st !! "page"
    /\ Rows.current_page info = Num 1
    /\ Rows.total_page info
       = Num (ceil_div t (Z.min l (Z.of_nat
                                     (List.length
                                        (List.filter selected body))))).
Proof.
intros Hw Hidx HR Hl Ht Htr Hp Hzero Hp0.
assert (Hz : round_div t l = 0%Z).
{ unfold Math_round_div in Hzero.
  destruct (l =? 0)%Z eqn:E0; [apply Z.eqb_eq in E0; lia|].
  destruct (0 <? l)%Z eqn:E1; [|apply Z.ltb_ge in E1; lia].
  injection Hzero as Hzero. exact Hzero. }
destruct (toLimit_counted_run l t p0 body st Hw Hidx HR Hl Ht Htr Hp)
  as (body' & info & st' & Erun & Hpage & _ & _ & _ & Hinfo).
cbv zeta in Hpage, Hinfo. rewrite Hz in Hpage, Hinfo.
change (1 <=? 0)%Z with false in Hpage, Hinfo.
exists body', info, st'. split; [exact Erun|]. split; [exact Hpage|].
split; [rewrite Hpage, Hp; intros E; injection E as E; lia|].
rewrite Hinfo. split; reflexivity.
Qed.

Lemma round_div_floor (t l : Z) :
  (0 < l)%Z -> (0 <= 2 * (t mod l) < l)%Z -> round_div t l = (t / l)%Z.
Proof.
intros Hl Hr. unfold round_div. symmetry.
pose proof (Z.div_mod t l ltac:(lia)) as Hdm.
apply (Z.div_unique_pos _ _ _ (2 * (t mod l) + l)); lia.
Qed.

Lemma ceil_div_succ (t l : Z) :
  (0 < l)%Z -> (0 < t mod l)%Z -> ceil_div t l = (t / l + 1)%Z.
Proof.
intros Hl Hr. pose proof (ceil_div_bounds t l Hl) as Hcb.
pose proof (Z.div_mod t l ltac:(lia)) as Hdm.
pose proof (Z.mod_pos_bound t l Hl) as Hm. nia.
Qed.


(** X6.  [toLimit] with the page size "*" on a table with at least one
    row, every row indexed, and a row count ([total_rows], or the
    number of rows when none is stored) between 1 and 2^32 - 1: page 1
    is stored, the placeholders are removed and exactly the rows whose
    index is below both the number of rows and the row count are
    shown. *)
Theorem toLimit_all_shows_rows (T : Z) (body : list Tr) (st : state) (p0 : Z) :
  wired st ->
  Forall (fun r => selected r = true -> indexed r) body ->
  (0 < Z.of_nat (List.length (List.filter selected body)))%Z ->
  totalLength (default VUndefined (target st !! "total_rows"))
              (List.length (List.filter selected body))
  = Some (Num T) ->
  (0 < T <= 2 ^ 32 - 1)%Z ->
  target st !! "page" = Some (VNumber (Num p0)) ->
  let R := Z.of_nat (List.length (List.filter selected body)) in
  exists body' info st',
    toLimit_local ALL body st = (Normal (Some (body', info)), st')
    /\ target st' !! "page" = Some (VNumber (Num 1))
    /\ target st' !! "limit" = Some (VString DEFAULT.LIMIT)
    /\ Spec.relabel
         (List.filter (fun r => negb (selected r && isDummy r)) body) body'
    /\ (forall r, In r body' -> selected r = true ->
          exists k, index r = Some k
                    /\ (shown r = true <-> (0 <= k < Z.min R T)%Z)
                    /\ concealed r = negb (shown r))
    /\ info = Rows.mkInfo (Num 1) (Num (ceil_div T R)) (Num 1)
                          (Num (Z.min R T)) (Num T).
Proof.
intros Hw Hidx HR Ht HT Hp R.
pose proof (ceil_div_bounds T R ltac:(lia)) as Hcb.
assert (Hpb : (1 <= 1 <= ceil_div T R)%Z) by nia.
destruct (toLimit_local_run ALL body st T R p0 Hw Hidx eq_refl)
  as (pg & Hpg & H); try assumption; try lia.
cbn [toLimit_page] in Hpg. injection Hpg as <-.
assert (Hrd : Math_round_div
                (ToNumber (default VUndefined (target st !! "total_rows")))
                (ToNumber (limit_value ALL)) = NaN).
{ change (ToNumber (limit_value ALL)) with NaN.
  destruct (ToNumber _); reflexivity. }
rewrite Hrd in H. cbv zeta in H.
destruct H as (st' & Erun & Hpage & Hlimit & _ & _).
cbn [toNumber] in *.
destruct (window_at T R 1 (ceil_div T R) ltac:(lia) ltac:(lia) Hpb)
  as (Hlen & Hitems & Hinfo).
rewrite Hlen in *.
assert (Hcp : Math_min (Math_max (Num 1) (Num DEFAULT.PAGE))
                       (Num (ceil_div T R)) = Num 1).
{ cbn [Math_max Math_min]. unfold DEFAULT.PAGE. f_equal. lia. }
rewrite Hcp in *. rewrite Hitems in Erun.
destruct (window_rows (chunk T R (1 - 1)) body Hidx) as [Hrel Hrows].
eexists _, _, st'. split; [exact Erun|].
split; [exact Hpage|]. split; [exact Hlimit|].
split; [exact Hrel|]. split.
- intros r Hin Hsel. destruct (Hrows r Hin Hsel) as (k & Hk & Hs & Hcn).
  exists k. split; [exact Hk|]. split; [|exact Hcn].
  rewrite Hs, chunk_In. lia.
- etransitivity; [exact Hinfo|]. f_equal; f_equal; lia.
Qed.

End WindowTheorems.

Section PaginateFacts.
Import JS Value Store Pagination Dom Paging Notions.

(** The page [toPaginate] moves to. *)
Local Abbreviation moved := (fun (as_ : direction) (page paginationLength : number) =>
  match as_ with
  | Next =>
      if num_lt (Num 0) page && num_lt page paginationLength
      then Math_min (num_add page (Num 1)) paginationLength else page
  | Previous =>
      if num_lt (Num 0) page && num_le page paginationLength
      then Math_max (Num 1) (num_sub page (Num 1)) else page
  end).

Lemma toPaginate_local_run as_ body st lim p0 trn T pages :
  wired st ->
  as_limit (default VUndefined (target st !! "limit")) = Some lim ->
  target st !! "page" = Some (VNumber (Num p0)) ->
  number_or (Num (Z.of_nat (List.length (List.filter selected body))))
            (default VUndefined (target st !! "total_rows"))
  = Some (Num T) ->
  numeric (default VUndefined (target st !! "total_rows")) = Some trn ->
  createPaginationItems
    (Num T) (limitCount lim (List.length (List.filter selected body)))
  = Normal pages ->
  let paginationLength :=
    toNumber (Math_round_div trn
                (limitCount lim (List.length (List.filter selected body))))
             (Num (Z.of_nat (List.length pages))) in
  let page' := moved as_ (Num p0) paginationLength in
  exists st',
    toPaginate_local as_ body st
    = (match at_index pages (num_sub page' (Num 1)) with
       | None =>
           Throw (TypeError "Cannot read properties of undefined (reading '0')")
       | Some items =>
           Normal (Some (map (paginate_row items lim) body,
                         window_info page' paginationLength items
                           (Num (Z.of_nat (List.length items))) (Num T)))
       end, st')
    /\ target st' !! "page" = Some (VNumber page')
    /\ target st' !! "search" = Some (VString DEFAULT.SEARCH)
    /\ (forall q, q <> "page" -> q <> "search" ->
                  target st' !! q = target st !! q)
    /\ wired st'.
Proof.
intros Hw Hlim Hp Ht Htn Hpages paginationLength page'.
unfold toPaginate_local.
unfold mbind at 1, M_bind at 1, get at 1. cbn beta iota.
unfold mbind at 1, M_bind at 1, get at 1. cbn beta iota.
unfold mbind at 1, M_bind at 1, get at 1. cbn beta iota.
rewrite Hlim, Hp, Ht, Htn. cbn [default from_option id number_or].
destruct (proxy_set_plain "search" (VString DEFAULT.SEARCH) st Hw
            (fun a => strictEquals_string a _) ltac:(discriminate))
  as (sta & Ea & Hsa & Hqa & Hwa).
unfold mbind at 1, M_bind at 1. rewrite Ea. cbn beta iota.
rewrite Hpages. fold paginationLength.
assert (Hpa : target sta !! "page" = Some (VNumber (Num p0)))
  by (rewrite Hqa by discriminate; exact Hp).
assert (Hmove :
  exists stb,
    (match as_ with
     | Next =>
         if num_lt (Num 0) (Num p0) && num_lt (Num p0) paginationLength
         then proxy_set "page"
                (VNumber (Math_min (num_add (Num p0) (Num 1))
                                   paginationLength));; mret tt
         else mret tt
     | Previous =>
         if num_lt (Num 0) (Num p0) && num_le (Num p0) paginationLength
         then proxy_set "page"
                (VNumber (Math_max (Num 1) (num_sub (Num p0) (Num 1))));;
              mret tt
         else mret tt
     end) sta = (Normal tt, stb)
    /\ target stb !! "page" = Some (VNumber page')
    /\ (forall q, q <> "page" -> target stb !! q = target sta !! q)
    /\ wired stb).
{ unfold page'. destruct as_.
  - destruct (num_lt (Num 0) (Num p0) && num_lt (Num p0) paginationLength).
    + destruct (proxy_set_plain "page"
                  (VNumber (Math_min (num_add (Num p0) (Num 1))
                                     paginationLength)) sta Hwa
                  (fun a => strictEquals_number a _) ltac:(discriminate))
        as (stb & Eb & Hpb & Hqb & Hwb).
      exists stb. unfold mbind, M_bind. rewrite Eb.
      repeat split; assumption.
    + exists sta. repeat split; assumption.
  - destruct (num_lt (Num 0) (Num p0) && num_le (Num p0) paginationLength).
    + destruct (proxy_set_plain "page"
                  (VNumber (Math_max (Num 1) (num_sub (Num p0) (Num 1))))
                  sta Hwa
                  (fun a => strictEquals_number a _) ltac:(discriminate))
        as (stb & Eb & Hpb & Hqb & Hwb).
      exists stb. unfold mbind, M_bind. rewrite Eb.
      repeat split; assumption.
    + exists sta. repeat split; assumption. }
destruct Hmove as (stb & Eb & Hpb & Hqb & Hwb).
unfold mbind at 1, M_bind at 1. rewrite Eb. cbn beta iota.
unfold mbind at 1, M_bind at 1, get at 1. cbn beta iota.
rewrite Hpb. cbn [default from_option id numeric].
exists stb. split.
{ destruct (at_index pages (num_sub page' (Num 1))); reflexivity. }
split; [exact Hpb|].
split; [rewrite Hqb by discriminate; exact Hsa|].
split; [|exact Hwb].
intros q Hq1 Hq2. rewrite Hqb, Hqa by assumption. reflexivity.
Qed.

Lemma paginate_row_relabel items lim body :
  Spec.relabel body (map (paginate_row items lim) body).
Proof.
induction body as [|r body IH]; [constructor|].
cbn [map]. constructor; [|exact IH]. unfold paginate_row.
destruct (negb (selected r)); [repeat split; reflexivity|].
destruct (includes_index items r || _);
  (split; [reflexivity|]; split; [reflexivity|]; split; [reflexivity|]);
  unfold isDummy; cbn [classList set_classList];
  rewrite contains_remove, contains_add; reflexivity.
Qed.

Lemma paginate_row_selected items lim r :
  selected (paginate_row items lim r) = selected r.
Proof.
unfold paginate_row. destruct (selected r) eqn:Es; cbn [negb]; [|exact Es].
destruct (includes_index items r || _);
  unfold selected in *; cbn [classList set_classList];
  rewrite contains_remove, contains_add; exact Es.
Qed.

Lemma paginate_row_shown items lim r :
  selected r = true ->
  let all := match lim with ALL => true | Limit _ => false end in
  shown (paginate_row items lim r) = includes_index items r || all
  /\ concealed (paginate_row items lim r)
     = negb (includes_index items r || all).
Proof.
intros Hs all. unfold paginate_row. rewrite Hs. cbn [negb]. fold all.
destruct (includes_index items r || all);
  unfold shown, concealed; cbn [classList set_classList];
  rewrite !contains_remove, !contains_add; split; reflexivity.
Qed.

Lemma paginate_rows items lim body :
  forall r, In r (map (paginate_row (map Num items) lim) body) ->
            selected r = true ->
            (shown r = true
             <-> lim = ALL \/ exists k, index r = Some k /\ In k items)
            /\ concealed r = negb (shown r).
Proof.
intros r' Hin Hsel. apply in_map_iff in Hin as (r & <- & _).
rewrite paginate_row_selected in Hsel.
destruct (paginate_row_shown (map Num items) lim r Hsel) as [-> ->].
split; [|reflexivity].
assert (Hidx : index (paginate_row (map Num items) lim r) = index r).
{ unfold paginate_row. destruct (negb (selected r)); [reflexivity|].
  destruct (includes_index _ r || _); reflexivity. }
rewrite Hidx, orb_true_iff, includes_index_spec.
destruct lim; split; intros [H|H]; auto; discriminate.
Qed.

Lemma toPaginate_step (as_ : direction) (lim : limit)
        (c p0 : Z) (body : list Tr) (st : state) :
  wired st ->
  as_limit (default VUndefined (target st !! "limit")) = Some lim ->
  target st !! "page" = Some (VNumber (Num p0)) ->
  default VUndefined (target st !! "total_rows") = VUndefined ->
  limitCount lim (List.length (List.filter selected body)) = Num c ->
  (0 < c)%Z ->
  (Z.of_nat (List.length (List.filter selected body)) <= 2 ^ 32 - 1)%Z ->
  (1 <= p0 <= ceil_div (Z.of_nat (List.length (List.filter selected body)))
                       c)%Z ->
  let R := Z.of_nat (List.length (List.filter selected body)) in
  let p := match as_ with
           | Next => Z.min (p0 + 1) (ceil_div R c)
           | Previous => Z.max 1 (p0 - 1)
           end in
  exists body' info st',
    toPaginate_local as_ body st = (Normal (Some (body', info)), st')
    /\ target st' !! "page" = Some (VNumber (Num p))
    /\ target st' !! "search" = Some (VString "")
    /\ wired st'
    /\ (forall q, q <> "page" -> q <> "search" ->
                  target st' !! q = target st !! q)
    /\ map selected body' = map selected body
    /\ Spec.relabel body body'
    /\ (forall r, In r body' -> selected r = true ->
          (shown r = true
           <-> lim = ALL
               \/ exists k, index r = Some k
                            /\ ((p - 1) * c <= k < Z.min (p * c) R)%Z)
          /\ concealed r = negb (shown r))
    /\ info = Rows.mkInfo (Num p) (Num (ceil_div R c))
                          (Num ((p - 1) * c + 1)) (Num (Z.min (p * c) R))
                          (Num R).
Proof.
intros Hw Hlim Hp Htr Hc Hcz HR Hp0 R p. fold R in HR, Hp0.
pose proof (ceil_div_bounds R c Hcz) as Hcb.
assert (Hpb : (1 <= p <= ceil_div R c)%Z) by (unfold p; destruct as_; lia).
destruct (toPaginate_local_run as_ body st lim p0 NaN R
            (map (fun i => map Num (chunk R c i)) (upto (ceil_div R c)))
            Hw Hlim Hp)
  as (st' & Erun & Hpage & Hsearch & Hframe & Hw').
{ rewrite Htr. reflexivity. }
{ rewrite Htr. reflexivity. }
{ rewrite Hc. apply createPaginationItems_pages; lia. }
destruct (window_at R c p (ceil_div R c) ltac:(lia) Hcz Hpb)
  as (Hlen & Hitems & Hinfo).
rewrite toNumber_Num in Hinfo. rewrite Hc, Hlen in *.
change (Math_round_div NaN (Num c)) with NaN in *. cbn [toNumber] in *.
assert (Hmv :
  match as_ with
  | Next =>
      if num_lt (Num 0) (Num p0) && num_lt (Num p0) (Num (ceil_div R c))
      then Math_min (num_add (Num p0) (Num 1)) (Num (ceil_div R c))
      else Num p0
  | Previous =>
      if num_lt (Num 0) (Num p0) && num_le (Num p0) (Num (ceil_div R c))
      then Math_max (Num 1) (num_sub (Num p0) (Num 1))
      else Num p0
  end = Num p).
{ unfold p. destruct as_; cbn [num_lt num_le num_add num_sub num_neg
                                 Math_min Math_max].
  - destruct (0 <? p0)%Z eqn:E1; [|lia].
    destruct (p0 <? ceil_div R c)%Z eqn:E2; cbn [andb]; f_equal; lia.
  - destruct (0 <? p0)%Z eqn:E1; [|lia].
    destruct (p0 <=? ceil_div R c)%Z eqn:E2; cbn [andb]; [|lia].
    f_equal; lia. }
rewrite Hmv in *.
assert (Hat : at_index
                (map (fun i => map Num (chunk R c i)) (upto (ceil_div R c)))
                (num_sub (Num p) (Num 1))
              = Some (map Num (chunk R c (p - 1)))).
{ unfold at_index. cbn [num_sub num_neg num_add].
  replace (p + - (1))%Z with (p - 1)%Z by lia.
  destruct (p - 1 <? 0)%Z eqn:E; [lia|].
  rewrite nth_error_map, upto_nth by lia. reflexivity. }
rewrite Hat in Erun.
eexists _, _, st'. split; [exact Erun|].
split; [exact Hpage|]. split; [exact Hsearch|].
split; [exact Hw'|]. split; [exact Hframe|].
split; [rewrite map_map; apply map_ext; intros r;
        apply paginate_row_selected|].
split; [apply paginate_row_relabel|]. split.
- intros r Hin Hsel.
  destruct (paginate_rows (chunk R c (p - 1)) lim body r Hin Hsel)
    as [Hs Hcn].
  split; [|exact Hcn]. rewrite Hs.
  split; (intros [H|(k & Hk & Hin')]; [left; exact H|right]);
    exists k; (split; [exact Hk|]).
  + apply chunk_In in Hin'. lia.
  + apply chunk_In. lia.
- exact Hinfo.
Qed.

(** X7.  [toPaginate] on a table that holds all its rows, from a page within
    the pages: "next" moves one page up and stops at the last page,
    "previous" moves one page down and stops at page 1; the search
    property is emptied; with the page size "*" every row is shown,
    otherwise exactly the rows whose index lies in the window of the
    new page. *)
Theorem toPaginate_moves_one_page (as_ : direction) (lim : limit)
        (c p0 : Z) (body : list Tr) (st : state) :
  wired st ->
  as_limit (default VUndefined (target st !! "limit")) = Some lim ->
  target st !! "page" = Some (VNumber (Num p0)) ->
  default VUndefined (target st !! "total_rows") = VUndefined ->
  limitCount lim (List.length (List.filter selected body)) = Num c ->
  (0 < c)%Z ->
  (Z.of_nat (List.length (List.filter selected body)) <= 2 ^ 32 - 1)%Z ->
  (1 <= p0 <= ceil_div (Z.of_nat (List.length (List.filter selected body)))
                       c)%Z ->
  let R := Z.of_nat (List.length (List.filter selected body)) in
  let p := match as_ with
           | Next => Z.min (p0 + 1) (ceil_div R c)
           | Previous => Z.max 1 (p0 - 1)
           end in
  exists body' info st',
    toPaginate_local as_ body st = (Normal (Some (body', info)), st')
    /\ target st' !! "page" = Some (VNumber (Num p))
    /\ target st' !! "search" = Some (VString "")
    /\ Spec.relabel body body'
    /\ (forall r, In r body' -> selected r = true ->
          (shown r = true
           <-> lim = ALL
               \/ exists k, index r = Some k
                            /\ ((p - 1) * c <= k < Z.min (p * c) R)%Z)
          /\ concealed r = negb (shown r))
    /\ info = Rows.mkInfo (Num p) (Num (ceil_div R c))
                          (Num ((p - 1) * c + 1)) (Num (Z.min (p * c) R))
                          (Num R).
Proof.
intros Hw Hlim Hp Htr Hc Hcz HR Hp0.
destruct (toPaginate_step as_ lim c p0 body st Hw Hlim Hp Htr Hc Hcz HR Hp0)
  as (body' & info & st' & Erun & Hpage & Hsearch & _ & _ & _ & Hrel
      & Hrows & Hinfo).
exists body', info, st'. repeat split; try assumption; apply Hrows; assumption.
Qed.

Lemma filter_length_map {A : Type} (f : A -> bool) (l l' : list A) :
  map f l' = map f l ->
  List.length (List.filter f l') = List.length (List.filter f l).
Proof.
revert l'. induction l as [|x l IH]; intros [|y l'] H; try discriminate.
- reflexivity.
- cbn in H. injection H as Hxy Hl. cbn. rewrite Hxy.
  destruct (f x); cbn; rewrite (IH l' Hl); reflexivity.
Qed.

(** X8.  "next" followed by "previous" comes back: from a page below the
    last one the two calls leave the page where it was and show the
    rows of its window again. *)
Theorem toPaginate_next_previous (lim : limit) (c p0 : Z)
        (body : list Tr) (st : state) :
  wired st ->
  as_limit (default VUndefined (target st !! "limit")) = Some lim ->
  target st !! "page" = Some (VNumber (Num p0)) ->
  default VUndefined (target st !! "total_rows") = VUndefined ->
  limitCount lim (List.length (List.filter selected body)) = Num c ->
  (0 < c)%Z ->
  (Z.of_nat (List.length (List.filter selected body)) <= 2 ^ 32 - 1)%Z ->
  (1 <= p0 < ceil_div (Z.of_nat (List.length (List.filter selected body)))
                      c)%Z ->
  let R := Z.of_nat (List.length (List.filter selected body)) in
  exists body1 info1 st1 body2 info2 st2,
    toPaginate_local Next body st = (Normal (Some (body1, info1)), st1)
    /\ target st1 !! "page" = Some (VNumber (Num (p0 + 1)))
    /\ toPaginate_local Previous body1 st1
       = (Normal (Some (body2, info2)), st2)
    /\ target st2 !! "page" = Some (VNumber (Num p0))
    /\ Rows.current_page info2 = Num p0
    /\ forall r, In r body2 -> selected r = true ->
         (shown r = true
          <-> lim = ALL
              \/ exists k, index r = Some k
                           /\ ((p0 - 1) * c <= k < Z.min (p0 * c) R)%Z).
Proof.
intros Hw Hlim Hp Htr Hc Hcz HR Hp0 R. fold R in HR, Hp0.
destruct (toPaginate_step Next lim c p0 body st Hw Hlim Hp Htr Hc Hcz HR
            ltac:(fold R; lia))
  as (body1 & info1 & st1 & E1 & Hp1 & _ & Hw1 & Hf1 & Hsel1 & _ & _ & _).
fold R in Hp1. replace (Z.min (p0 + 1) (ceil_div R c)) with (p0 + 1)%Z
  in Hp1 by lia.
assert (HR1 : List.length (List.filter selected body1)
              = List.length (List.filter selected body))
  by (apply filter_length_map, Hsel1).
destruct (toPaginate_step Previous lim c (p0 + 1) body1 st1 Hw1)
  as (body2 & info2 & st2 & E2 & Hp2 & _ & _ & _ & _ & _ & Hrows2 & Hinfo2).
{ rewrite Hf1 by discriminate. exact Hlim. }
{ exact Hp1. }
{ rewrite Hf1 by discriminate. exact Htr. }
{ rewrite HR1. exact Hc. }
{ exact Hcz. }
{ rewrite HR1. exact HR. }
{ rewrite HR1. fold R. lia. }
rewrite HR1 in Hrows2, Hinfo2. fold R in Hrows2, Hinfo2.
replace (Z.max 1 (p0 + 1 - 1)) with p0 in Hp2, Hrows2, Hinfo2 by lia.
exists body1, info1, st1, body2, info2, st2.
split; [exact E1|]. split; [exact Hp1|]. split; [exact E2|].
split; [exact Hp2|]. split; [rewrite Hinfo2; reflexivity|].
intros r Hin Hs. apply Hrows2; assumption.
Qed.

(** X9.  Off the pages [toPaginate] fails: when the page stored is below 1
    or above the number of pages (on a table without rows there is no
    page at all) nothing moves, [pagination[page - 1]] is [undefined]
    and reading its first item throws a [TypeError]; the search
    property has been emptied by then. *)
Theorem toPaginate_off_the_pages_throws (as_ : direction) (lim : limit)
        (p0 : Z) (pages : list (list number)) (body : list Tr) (st : state) :
  wired st ->
  as_limit (default VUndefined (target st !! "limit")) = Some lim ->
  target st !! "page" = Some (VNumber (Num p0)) ->
  default VUndefined (target st !! "total_rows") = VUndefined ->
  createPaginationItems
    (Num (Z.of_nat (List.length (List.filter selected body))))
    (limitCount lim (List.length (List.filter selected body)))
  = Normal pages ->
  (p0 < 1 \/ Z.of_nat (List.length pages) < p0)%Z ->
  exists st',
    toPaginate_local as_ body st
    = (Throw (TypeError "Cannot read properties of undefined (reading '0')"),
       st')
    /\ target st' !! "page" = Some (VNumber (Num p0))
    /\ target st' !! "search" = Some (VString "").
Proof.
intros Hw Hlim Hp Htr Hpages Hout.
destruct (toPaginate_local_run as_ body st lim p0 NaN
            (Z.of_nat (List.length (List.filter selected body))) pages
            Hw Hlim Hp)
  as (st' & Erun & Hpage & Hsearch & _ & _).
{ rewrite Htr. reflexivity. }
{ rewrite Htr. reflexivity. }
{ exact Hpages. }
assert (Hrd : forall x, Math_round_div NaN x = NaN) by (intros []; reflexivity).
rewrite Hrd in *. cbn [toNumber] in *.
assert (Hmv :
  match as_ with
  | Next =>
      if num_lt (Num 0) (Num p0)
         && num_lt (Num p0) (Num (Z.of_nat (List.length pages)))
      then Math_min (num_add (Num p0) (Num 1))
                    (Num (Z.of_nat (List.length pages)))
      else Num p0
  | Previous =>
      if num_lt (Num 0) (Num p0)
         && num_le (Num p0) (Num (Z.of_nat (List.length pages)))
      then Math_max (Num 1) (num_sub (Num p0) (Num 1))
      else Num p0
  end = Num p0).
{ destruct as_; cbn [num_lt num_le].
  - destruct (0 <? p0)%Z eqn:E1; [|reflexivity].
    destruct (p0 <? Z.of_nat (List.length pages))%Z eqn:E2; [lia|reflexivity].
  - destruct (0 <? p0)%Z eqn:E1; [|reflexivity].
    destruct (p0 <=? Z.of_nat (List.length pages))%Z eqn:E2;
      [lia|reflexivity]. }
rewrite Hmv in *.
assert (Hat : at_index pages (num_sub (Num p0) (Num 1)) = None).
{ unfold at_index. cbn [num_sub num_neg num_add].
  destruct (p0 + - (1) <? 0)%Z eqn:E; [reflexivity|].
  apply nth_error_None. lia. }
rewrite Hat in Erun. exists st'. repeat split; assumption.
Qed.

End PaginateFacts.

Section PagingWitnesses.
Import JS Value Store Pagination Dom Paging Notions.

Lemma local_view_wired page limit : wired (Samples.local_view page limit).
Proof.
eexists. split; [reflexivity|].
split; eexists; vm_compute; reflexivity.
Qed.

Lemma numbered_indexed n :
  Forall (fun r => selected r = true -> indexed r) (Samples.numbered n).
Proof.
apply List.Forall_forall. intros r Hr _.
apply in_map_iff in Hr as (i & <- & _). discriminate.
Qed.

Lemma toLimit_local_window_witness :
  exists body' info st',
    toLimit_local (Limit (Num 2)) (Samples.numbered 5)
                  (Samples.local_view 7 (VString "*"))
    = (Normal (Some (body', info)), st')
    /\ target st' !! "page" = Some (VNumber (Num 3))
    /\ map shown body' = [false; false; false; false; true]
    /\ info = Rows.mkInfo (Num 3) (Num 3) (Num 5) (Num 5) (Num 5).
Proof.
destruct (toLimit_local_window 2 7 (Samples.numbered 5)
            (Samples.local_view 7 (VString "*")))
  as (body' & info & st' & E & Hp & _ & _ & _ & _ & Hinfo).
- apply local_view_wired.
- apply numbered_indexed.
- vm_compute. split; [reflexivity|discriminate].
- lia.
- reflexivity.
- reflexivity.
- exists body', info, st'. split; [exact E|]. split; [exact Hp|].
  split; [|exact Hinfo].
  vm_compute in E. injection E as <- _ _. reflexivity.
Defined.



Lemma toLimit_all_shows_rows_witness :
  exists body' info st',
    toLimit_local ALL (Samples.numbered 5)
                  (Samples.local_view 4 (VNumber (Num 2)))
    = (Normal (Some (body', info)), st')
    /\ target st' !! "page" = Some (VNumber (Num 1))
    /\ target st' !! "limit" = Some (VString DEFAULT.LIMIT)
    /\ map shown body' = [true; true; true; true; true].
Proof.
destruct (toLimit_all_shows_rows 5 (Samples.numbered 5)
            (Samples.local_view 4 (VNumber (Num 2))) 4)
  as (body' & info & st' & E & Hp & Hl & _).
- apply local_view_wired.
- apply numbered_indexed.
- vm_compute. reflexivity.
- reflexivity.
- vm_compute. split; [reflexivity|discriminate].
- reflexivity.
- exists body', info, st'. split; [exact E|]. split; [exact Hp|].
  split; [exact Hl|].
  vm_compute in E. injection E as <- _ _. reflexivity.
Defined.

Lemma toPaginate_moves_one_page_witness :
  exists body' info st',
    toPaginate_local Next (Samples.numbered 5)
                     (Samples.local_view 1 (VNumber (Num 2)))
    = (Normal (Some (body', info)), st')
    /\ target st' !! "page" = Some (VNumber (Num 2))
    /\ map shown body' = [false; false; true; true; false]
    /\ info = Rows.mkInfo (Num 2) (Num 3) (Num 3) (Num 4) (Num 5).
Proof.
destruct (toPaginate_moves_one_page Next (Limit (Num 2)) 2 1
            (Samples.numbered 5) (Samples.local_view 1 (VNumber (Num 2))))
  as (body' & info & st' & E & Hp & _ & _ & _ & Hinfo).
- apply local_view_wired.
- reflexivity.
- reflexivity.
- reflexivity.
- reflexivity.
- lia.
- vm_compute. discriminate.
- vm_compute. split; discriminate.
- exists body', info, st'. split; [exact E|]. split; [exact Hp|].
  split; [|exact Hinfo].
  vm_compute in E. injection E as <- _ _. reflexivity.
Defined.

Lemma toPaginate_next_previous_witness :
  exists body1 info1 st1 body2 info2 st2,
    toPaginate_local Next (Samples.numbered 5)
                     (Samples.local_view 1 (VNumber (Num 2)))
    = (Normal (Some (body1, info1)), st1)
    /\ toPaginate_local Previous body1 st1
       = (Normal (Some (body2, info2)), st2)
    /\ target st2 !! "page" = Some (VNumber (Num 1))
    /\ map shown body2 = [true; true; false; false; false].
Proof.
destruct (toPaginate_next_previous (Limit (Num 2)) 2 1
            (Samples.numbered 5) (Samples.local_view 1 (VNumber (Num 2))))
  as (body1 & info1 & st1 & body2 & info2 & st2 & E1 & _ & E2 & Hp2 & _).
- apply local_view_wired.
- reflexivity.
- reflexivity.
- reflexivity.
- reflexivity.
- lia.
- vm_compute. discriminate.
- vm_compute. split; [discriminate|reflexivity].
- exists body1, info1, st1, body2, info2, st2.
  split; [exact E1|]. split; [exact E2|]. split; [exact Hp2|].
  vm_compute in E1. injection E1 as <- _ <-.
  vm_compute in E2. injection E2 as <- _ _. reflexivity.
Defined.

(** A table without rows: "next" throws. *)
Lemma toPaginate_off_the_pages_throws_witness :
  exists st',
    toPaginate_local Next [] (Samples.local_view 1 (VString "*"))
    = (Throw (TypeError "Cannot read properties of undefined (reading '0')"),
       st')
    /\ target st' !! "page" = Some (VNumber (Num 1))
    /\ target st' !! "search" = Some (VString "").
Proof.
apply (toPaginate_off_the_pages_throws Next ALL 1 [] []
         (Samples.local_view 1 (VString "*"))).
- apply local_view_wired.
- reflexivity.
- reflexivity.
- reflexivity.
- reflexivity.
- right. cbn. lia.
Defined.

(** Two rows on display out of four, page 2, and a page size of 10:
    [Math.round(4 / 10)] is 0 and the call ends on page 1 of 2. *)
Lemma toLimit_zero_pages_loses_page_witness :
  exists body' info st',
    toLimit_local (Limit (Num 10)) (Samples.numbered 2) (Sample.view 2 4)
    = (Normal (Some (body', info)), st')
    /\ target st' !! "page" = Some (VNumber (Num 1))
    /\ target st' !! "page" <> target (Sample.view 2 4) !! "page"
    /\ Rows.current_page info = Num 1
    /\ Rows.total_page info = Num 2.
Proof.
apply (toLimit_zero_pages_loses_page 10 4 2 (Samples.numbered 2)
         (Sample.view 2 4)).
- apply sample_view_wired.
- apply numbered_indexed.
- vm_compute. reflexivity.
- lia.
- lia.
- reflexivity.
- reflexivity.
- reflexivity.
- vm_compute. split; [reflexivity|discriminate].
Defined.

End PagingWitnesses.

(** ** The constructor and the listener *)

Section InstanceFacts.
Import JS Value Store Instance.

(** The collections declared for a role in one target, and in all. *)
Local Abbreviation under := (fun (role : string) (roles : list (string * list nat)) => map snd (List.filter (fun kv => String.eqb role (fst kv)) roles)).

Local Abbreviation all_under := (fun (role : string) (p : paginate_t) => concat (map (fun entry => under role (snd entry)) p)).

Lemma collect_roles role roles :
  forall acc : gmap string (list (list nat)),
    fold_left
      (fun acc kv => <[fst kv := default [] (acc !! fst kv) ++ [snd kv]]> acc)
      roles acc !! role
    = match under role roles with
      | [] => acc !! role
      | l => Some (default [] (acc !! role) ++ l)
      end.
Proof.
induction roles as [|[k v] roles IH]; intros acc; [reflexivity|].
cbn [fold_left fst snd List.filter]. rewrite IH.
destruct (String.eqb role k) eqn:E.
- apply String.eqb_eq in E. subst k. rewrite lookup_insert_eq.
  cbn [map snd default from_option id].
  destruct (map snd (List.filter _ roles)) as [|x l]; f_equal.
  rewrite <- app_assoc. reflexivity.
- apply String.eqb_neq in E. rewrite lookup_insert_ne by congruence.
  reflexivity.
Qed.

Lemma collect_targets role p :
  forall acc : gmap string (list (list nat)),
    fold_left
      (fun acc entry =>
         fold_left
           (fun acc kv =>
              <[fst kv := default [] (acc !! fst kv) ++ [snd kv]]> acc)
           (snd entry) acc)
      p acc !! role
    = match all_under role p with
      | [] => acc !! role
      | l => Some (default [] (acc !! role) ++ l)
      end.
Proof.
induction p as [|[t roles] p IH]; intros acc; [reflexivity|].
cbn [fold_left snd map concat]. rewrite IH, collect_roles.
destruct (under role roles) as [|x l] eqn:Eu; [reflexivity|].
cbn [app default from_option id].
destruct (all_under role p) as [|y l'].
- rewrite app_nil_r. reflexivity.
- f_equal. rewrite <- app_assoc. reflexivity.
Qed.

Lemma collect_lookup role p :
  collect p !! role
  = match all_under role p with [] => None | l => Some l end.
Proof.
unfold collect. rewrite collect_targets, lookup_empty.
destruct (all_under role p); reflexivity.
Qed.

Lemma push_role_under role a e roles el :
  In el (concat (under role (push_role a e roles)))
  <-> In el (concat (under role roles)) \/ (a = role /\ e = el).
Proof.
induction roles as [|[k els] roles IH].
- cbn. destruct (String.eqb role a) eqn:E; cbn.
  + apply String.eqb_eq in E. subst. intuition.
  + apply String.eqb_neq in E. intuition congruence.
- cbn [push_role]. destruct (String.eqb a k) eqn:Eak.
  + apply String.eqb_eq in Eak. subst k. cbn [List.filter fst].
    destruct (String.eqb role a) eqn:E; cbn [map snd concat].
    * apply String.eqb_eq in E. subst. rewrite !in_app_iff. cbn. intuition.
    * apply String.eqb_neq in E. intuition congruence.
  + cbn [List.filter fst].
    destruct (String.eqb role k) eqn:E; cbn [map snd concat].
    * rewrite !in_app_iff, IH. intuition.
    * exact IH.
Qed.

Lemma push_role_declared role a e roles :
  under role (push_role a e roles) <> []
  <-> under role roles <> [] \/ a = role.
Proof.
induction roles as [|[k els] roles IH].
- cbn. destruct (String.eqb role a) eqn:E; cbn.
  + apply String.eqb_eq in E. subst. intuition discriminate.
  + apply String.eqb_neq in E. intuition congruence.
- cbn [push_role]. destruct (String.eqb a k) eqn:Eak.
  + apply String.eqb_eq in Eak. subst k. cbn [List.filter fst].
    destruct (String.eqb role a) eqn:E; cbn [map snd].
    * intuition discriminate.
    * apply String.eqb_neq in E. intuition congruence.
  + cbn [List.filter fst].
    destruct (String.eqb role k) eqn:E; cbn [map snd].
    * intuition discriminate.
    * exact IH.
Qed.

Lemma push_target_under role t a e p el :
  In el (concat (all_under role (push_target t a e p)))
  <-> In el (concat (all_under role p)) \/ (a = role /\ e = el).
Proof.
induction p as [|[k roles] p IH].
- cbn [push_target map concat snd]. rewrite app_nil_r.
  apply (push_role_under role a e [] el).
- cbn [push_target]. destruct (String.eqb t k).
  + cbn [map concat snd]. rewrite !concat_app, !in_app_iff, push_role_under.
    intuition.
  + cbn [map concat snd]. rewrite !concat_app, !in_app_iff, IH. intuition.
Qed.

Lemma app_not_nil {A : Type} (l l' : list A) :
  l ++ l' <> [] <-> l <> [] \/ l' <> [].
Proof.
destruct l; cbn; [intuition congruence|].
split; [intros _; left; discriminate|intros _; discriminate].
Qed.

Lemma push_target_declared role t a e p :
  all_under role (push_target t a e p) <> []
  <-> all_under role p <> [] \/ a = role.
Proof.
induction p as [|[k roles] p IH].
- cbn [push_target map concat snd]. rewrite app_nil_r.
  apply (push_role_declared role a e []).
- cbn [push_target]. destruct (String.eqb t k).
  + cbn [map concat snd]. rewrite !app_not_nil, push_role_declared.
    intuition.
  + cbn [map concat snd]. rewrite !app_not_nil, IH. intuition.
Qed.

Lemma group_under role array el :
  In el (concat (all_under role (group array)))
  <-> exists c, In c array /\ as_ c = role /\ element c = el.
Proof.
unfold group.
assert (H : forall acc,
  In el (concat (all_under role
           (fold_left (fun acc c => push_target (to c) (as_ c) (element c) acc)
                      array acc)))
  <-> In el (concat (all_under role acc))
      \/ exists c, In c array /\ as_ c = role /\ element c = el).
{ induction array as [|c array IH]; intros acc.
  - cbn. split; [auto|]. intros [H|(c & [] & _)]. exact H.
  - cbn [fold_left]. rewrite IH, push_target_under. split.
    + intros [[H|[Ha He]]|(c' & Hin & Hc)]; [left; exact H| |].
      * right. exists c. split; [left; reflexivity|split; assumption].
      * right. exists c'. split; [right; exact Hin|exact Hc].
    + intros [H|(c' & [<-|Hin] & Ha & He)]; [left; left; exact H| |].
      * left. right. split; assumption.
      * right. exists c'. repeat split; assumption. }
rewrite H. cbn. split; [intros [[]|H']; exact H'|auto].
Qed.

Lemma group_declared role array :
  all_under role (group array) <> []
  <-> exists c, In c array /\ as_ c = role.
Proof.
unfold group.
assert (H : forall acc,
  all_under role
    (fold_left (fun acc c => push_target (to c) (as_ c) (element c) acc)
               array acc) <> []
  <-> all_under role acc <> [] \/ exists c, In c array /\ as_ c = role).
{ induction array as [|c array IH]; intros acc.
  - cbn. split; [auto|]. intros [H|(c & [] & _)]. exact H.
  - cbn [fold_left]. rewrite IH, push_target_declared. split.
    + intros [[H|Ha]|(c' & Hin & Hc)]; [left; exact H| |].
      * right. exists c. split; [left; reflexivity|exact Ha].
      * right. exists c'. split; [right; exact Hin|exact Hc].
    + intros [H|(c' & [<-|Hin] & Ha)]; [left; left; exact H| |].
      * left. right. exact Ha.
      * right. exists c'. split; assumption. }
rewrite H. cbn. split; [intros [H'|H']; [congruence|exact H']|auto].
Qed.

(** A role has controls when some entry declares it. *)
Lemma group_is_Some role array :
  is_Some (collect (group array) !! role)
  <-> exists c, In c array /\ as_ c = role.
Proof.
rewrite collect_lookup, <- group_declared.
destruct (all_under role (group array)); split.
- intros [x Hx]. discriminate.
- intros H. congruence.
- intros _. discriminate.
- intros _. eexists. reflexivity.
Qed.

Lemma construct_wired array own cs :
  (exists c, In c array /\ as_ c = "search") ->
  (exists c, In c array /\ as_ c = "filter") ->
  wired (construct (Some array) own cs).
Proof.
intros Hs Hf. exists (group array). split; [reflexivity|].
split; apply group_is_Some; assumption.
Qed.

Lemma is_Some_None {A : Type} (o : option A) : ~ is_Some o -> o = None.
Proof. destruct o; [intros H; exfalso; apply H; eauto|reflexivity]. Qed.

(** The first write of the constructor, [page], on a table whose
    controls are not all there. *)
Lemma first_write_throws options_paginate own cs :
  own !! "page" = None ->
  (options_paginate = None
   \/ exists array,
        options_paginate = Some array
        /\ ((forall c, In c array -> as_ c <> "search")
            \/ (forall c, In c array -> as_ c <> "filter"))) ->
  exists message st',
    proxy_set "page" (VNumber (Num DEFAULT.PAGE))
              (construct options_paginate own cs)
    = (Throw (TypeError message), st')
    /\ target st' = <["page" := VNumber (Num DEFAULT.PAGE)]> own.
Proof.
intros Hpage [->|(array & -> & Hno)].
- lazy beta iota zeta delta
       [proxy_set propertiesListener forEach_collection paginate_entries
        record_call reset_controls throw get put construct mbind M_bind
        mret M_ret target paginate controls notified option_map].
  rewrite Hpage. eexists _, _. split; reflexivity.
- lazy beta iota zeta delta
       [proxy_set propertiesListener forEach_collection paginate_entries
        record_call reset_controls throw get put construct mbind M_bind
        mret M_ret target paginate controls notified option_map].
  rewrite Hpage.
  lazy beta iota zeta delta
       [default from_option id strictEquals negb String.eqb Ascii.eqb
        Bool.eqb orb andb].
  destruct (collect (group array) !! "search") as [searches|] eqn:Es.
  + destruct (collect (group array) !! "filter") as [filters|] eqn:Ef.
    * exfalso.
      assert (H1 : exists c, In c array /\ as_ c = "search")
        by (apply group_is_Some; rewrite Es; eauto).
      assert (H2 : exists c, In c array /\ as_ c = "filter")
        by (apply group_is_Some; rewrite Ef; eauto).
      destruct H1 as (c1 & Hc1 & Ha1), H2 as (c2 & Hc2 & Ha2).
      destruct Hno as [Hno|Hno];
        [exact (Hno c1 Hc1 Ha1)|exact (Hno c2 Hc2 Ha2)].
    * eexists _, _. split; reflexivity.
  + eexists _, _. split; reflexivity.
Qed.



Lemma reset_lookup (text : string) (els : list nat) (el : nat) :
  forall cs : gmap nat string,
    fold_left (fun cs el => <[el := text]> cs) els cs !! el
    = if existsb (Nat.eqb el) els then Some text else cs !! el.
Proof.
induction els as [|x els IH]; intros cs; [reflexivity|].
cbn [fold_left existsb]. rewrite IH.
destruct (existsb (Nat.eqb el) els); [rewrite orb_true_r; reflexivity|].
rewrite orb_false_r. destruct (Nat.eqb el x) eqn:E.
- apply Nat.eqb_eq in E. subst. apply lookup_insert_eq.
- apply Nat.eqb_neq in E. apply lookup_insert_ne. congruence.
Qed.

Lemma collect_declared role array :
  (exists c, In c array /\ as_ c = role) ->
  exists collections,
    collect (group array) !! role = Some collections
    /\ forall el,
         existsb (Nat.eqb el) (concat collections)
         = existsb (fun c => Nat.eqb (element c) el
                             && String.eqb (as_ c) role) array.
Proof.
intros H. apply group_is_Some in H as [collections Hc].
exists collections. split; [exact Hc|]. intros el.
assert (Heq : collections
              = concat (map (fun entry =>
                               map snd (List.filter
                                          (fun kv => String.eqb role (fst kv))
                                          (snd entry)))
                            (group array))).
{ rewrite collect_lookup in Hc.
  destruct (concat _) eqn:E; [discriminate|]. injection Hc as <-.
  reflexivity. }
apply eq_true_iff_eq. rewrite !existsb_exists. split.
- intros (x & Hx & He). apply Nat.eqb_eq in He. subst x.
  rewrite Heq in Hx. apply group_under in Hx as (c & Hin & Ha & He).
  exists c. split; [exact Hin|]. subst.
  rewrite Nat.eqb_refl, String.eqb_refl. reflexivity.
- intros (c & Hin & Hb). apply andb_true_iff in Hb as [He Ha].
  apply Nat.eqb_eq in He. apply String.eqb_eq in Ha.
  exists el. split; [|apply Nat.eqb_refl].
  rewrite Heq. apply group_under. exists c. repeat split; assumption.
Qed.

Lemma existsb_either {A : Type} (p q r : A -> bool) (l : list A) :
  existsb (fun c => p c && (q c || r c)) l
  = existsb (fun c => p c && r c) l || existsb (fun c => p c && q c) l.
Proof.
induction l as [|c l IH]; [reflexivity|]. cbn [existsb]. rewrite IH.
destruct (p c), (q c), (r c); cbn; rewrite ?orb_true_r; try reflexivity;
  destruct (existsb (fun c => p c && r c) l); reflexivity.
Qed.

(** X11.  A write of [limit] or [page] that changes the value empties every
    search control and every filter control of the instance, whichever
    target they were declared for, and touches no other control; a
    write of another property the library keeps on the table (search,
    filters, total_rows) touches no control at all. *)
Theorem page_or_limit_write_empties_controls (array : list control)
        (property : string) (v : value) (st : state) :
  In property view_properties ->
  paginate st = Some (group array) ->
  (exists c, In c array /\ as_ c = "search") ->
  (exists c, In c array /\ as_ c = "filter") ->
  strictEquals (default VUndefined (target st !! property)) v = false ->
  exists st',
    proxy_set property v st = (Normal true, st')
    /\ target st' = <[property := v]> (target st)
    /\ forall el,
         controls st' !! el
         = if (String.eqb property "limit" || String.eqb property "page")
              && existsb (fun c => Nat.eqb (element c) el
                                   && (String.eqb (as_ c) "search"
                                       || String.eqb (as_ c) "filter"))
                         array
           then Some DEFAULT.SEARCH
           else controls st !! el.
Proof.
intros _ Hp Hs Hf Hne.
destruct st as [tg pg cs nt]. cbn [target paginate controls notified] in Hp, Hne.
subst pg.
destruct (collect_declared "search" array Hs) as (searches & Es & Hse).
destruct (collect_declared "filter" array Hf) as (filters & Ef & Hfe).
lazy beta iota zeta delta
     [proxy_set propertiesListener forEach_collection paginate_entries
      record_call reset_controls throw get put mbind M_bind
      mret M_ret target paginate controls notified].
rewrite Hne. lazy beta iota zeta delta [negb target paginate controls notified].
destruct (String.eqb property "limit" || String.eqb property "page") eqn:E.
- rewrite Es. lazy beta iota zeta delta [target paginate controls notified].
  rewrite Ef. eexists. split; [reflexivity|]. split; [reflexivity|].
  intros el. cbn [controls andb]. rewrite !reset_lookup, Hse, Hfe.
  rewrite existsb_either.
  destruct (existsb (fun c => Nat.eqb (element c) el
                              && String.eqb (as_ c) "filter") array);
    [reflexivity|].
  cbn [orb].
  destruct (existsb (fun c => Nat.eqb (element c) el
                              && String.eqb (as_ c) "search") array);
    reflexivity.
- eexists. split; [reflexivity|]. split; reflexivity.
Qed.

(** A search box, a filter box and a page-size select declared for one
    table; the page is written. *)
Lemma page_or_limit_write_empties_controls_witness :
  exists st',
    proxy_set "page" (VNumber (Num 2))
              (construct (Some [mkControl "local" "search" 1;
                                mkControl "local" "filter" 2;
                                mkControl "local" "limit" 3])
                         ∅ {[1 := "abc"; 2 := "open"; 3 := "10"]})
    = (Normal true, st')
    /\ controls st' !! 1 = Some ""
    /\ controls st' !! 2 = Some ""
    /\ controls st' !! 3 = Some "10".
Proof.
destruct (page_or_limit_write_empties_controls
            [mkControl "local" "search" 1; mkControl "local" "filter" 2;
             mkControl "local" "limit" 3]
            "page" (VNumber (Num 2))
            (construct (Some [mkControl "local" "search" 1;
                              mkControl "local" "filter" 2;
                              mkControl "local" "limit" 3])
                       ∅ {[1 := "abc"; 2 := "open"; 3 := "10"]}))
  as (st' & E & _ & Hc).
- left. reflexivity.
- reflexivity.
- exists (mkControl "local" "search" 1). split; [left; reflexivity|reflexivity].
- exists (mkControl "local" "filter" 2).
  split; [right; left; reflexivity|reflexivity].
- reflexivity.
- exists st'. split; [exact E|].
  rewrite !Hc. repeat split; reflexivity.
Defined.

End InstanceFacts.

(** ** What a search shows *)

Section SearchVerdicts.
Import JS Dom Rows Spec Notions.

(** The text of a row that a search reads. *)
Local Abbreviation text := (fun (ei : list nat) (r : Tr) => join " " (textContents ei r)).

(** A test that succeeds found the keyword, wherever it started. *)
Lemma test_true_occurs (keyword : string) (p : RegExp) (s : string) :
  atoms p = list_ascii_of_string keyword ->
  ignoreCase p = true ->
  snd (RegExp_test p s) = true ->
  occurs_ci keyword s.
Proof.
intros Ha Hi. unfold RegExp_test. rewrite Ha, Hi.
set (start := if global p then lastIndex p else 0).
destruct (Nat.ltb (List.length (list_ascii_of_string s)) start);
  [discriminate|].
destruct (matchFrom true (list_ascii_of_string keyword)
                    (skipn start (list_ascii_of_string s)) start)
  as [j|] eqn:E; [intros _|discriminate].
assert (Hex : exists j, matchFrom true (list_ascii_of_string keyword)
                          (skipn start (list_ascii_of_string s)) start
                        = Some j) by eauto.
apply matchFrom_some in Hex as (before & rest & Heq & Hm).
apply matchHere_spec in Hm as (middle & behind & -> & Hall).
exists (firstn start (list_ascii_of_string s) ++ before), middle, behind.
split; [|exact Hall].
rewrite <- app_assoc, <- Heq. symmetry. apply firstn_skipn.
Qed.

(** A test that fails leaves [lastIndex] at 0 on a global pattern; the
    atoms and the flags never change. *)
Lemma test_keeps_pattern (p : RegExp) (s : string) :
  atoms (fst (RegExp_test p s)) = atoms p
  /\ global (fst (RegExp_test p s)) = global p
  /\ ignoreCase (fst (RegExp_test p s)) = ignoreCase p
  /\ (global p = true -> snd (RegExp_test p s) = false ->
      lastIndex (fst (RegExp_test p s)) = 0).
Proof.
unfold RegExp_test.
destruct (Nat.ltb _ _); [|destruct (matchFrom _ _ _ _)];
  cbn [fst snd]; destruct (global p) eqn:Eg; cbn;
  repeat split; try reflexivity; try assumption; try discriminate;
  intros; discriminate.
Qed.

(** A global pattern at [lastIndex] 0 misses no occurrence. *)
Lemma test_at_zero (keyword : string) (p : RegExp) (s : string) :
  atoms p = list_ascii_of_string keyword ->
  global p = true ->
  ignoreCase p = true ->
  lastIndex p = 0 ->
  occurs_ci keyword s ->
  snd (RegExp_test p s) = true.
Proof.
intros Ha Hg Hi Hl Hocc. destruct p as [a g ic li].
cbn in Ha, Hg, Hi, Hl. subst a g ic li.
apply fresh_test_occurs, Hocc.
Qed.

(** The loop of [toSearch] over rows without placeholder: a row is
    shown only if its text holds the keyword, the count is that of the
    rows shown, and a row holding the keyword is hidden only when the
    test before it succeeded. *)
Lemma search_reduce_verdicts (keyword : string) ei rows :
  forall p n rows' n' p',
    atoms p = list_ascii_of_string keyword ->
    global p = true ->
    ignoreCase p = true ->
    (forall r, In r rows -> isDummy r = false) ->
    search_reduce ei p n rows = (rows', n', p') ->
    n' = (n + Z.of_nat (List.length (List.filter shown rows')))%Z
    /\ (forall i r', rows' !! i = Some r' -> shown r' = true ->
                     occurs_ci keyword (text ei r'))
    /\ (forall i r', rows' !! i = Some r' -> shown r' = false ->
                     occurs_ci keyword (text ei r') ->
                     (i = 0 /\ lastIndex p <> 0)
                     \/ exists j q, i = S j /\ rows' !! j = Some q
                                    /\ shown q = true).
Proof.
induction rows as [|row rows IH]; intros p n rows' n' p' Ha Hg Hi Hnd H.
- cbn in H. injection H as <- <- <-. cbn.
  split; [lia|]. split; intros i r' Hl; discriminate Hl.
- cbn [search_reduce] in H.
  pose proof (test_keeps_pattern p (join " " (textContents ei row)))
    as (Ka & Kg & Ki & Kl).
  pose proof (test_true_occurs keyword p (join " " (textContents ei row))
                Ha Hi) as Hsound.
  pose proof (test_at_zero keyword p (join " " (textContents ei row))
                Ha Hg Hi) as Hcomplete.
  destruct (RegExp_test p (join " " (textContents ei row)))
    as [p1 isSearched] eqn:Et.
  cbn [fst snd] in Ka, Kg, Ki, Kl, Hsound, Hcomplete.
  destruct (search_reduce ei p1
              (if isSearched then (n + 1)%Z else n) rows)
    as [[rest n1] p2] eqn:Er.
  injection H as <- <- <-.
  apply IH in Er as (Hn & Hshown & Hhidden);
    [|congruence|congruence|congruence
     |intros r Hr; apply Hnd; right; exact Hr].
  rewrite (Hnd row (or_introl eq_refl)), orb_false_r.
  destruct isSearched.
  + destruct (shown_show true row) as [Hs _].
    split; [cbn [List.filter]; rewrite Hs; cbn [List.length]; lia|].
    split.
    * intros [|i] r' Hl Hv; [|exact (Hshown i r' Hl Hv)].
      injection Hl as <-. apply Hsound. reflexivity.
    * intros [|i] r' Hl Hv Hocc.
      -- injection Hl as <-. congruence.
      -- right. destruct (Hhidden i r' Hl Hv Hocc)
           as [[-> _]|(j & q & -> & Hq & Hsq)].
         ++ exists 0, (show true row). repeat split. exact Hs.
         ++ exists (S j), q. repeat split; assumption.
  + destruct (shown_hide row) as [Hs _].
    split; [cbn [List.filter]; rewrite Hs; exact Hn|].
    split.
    * intros [|i] r' Hl Hv; [|exact (Hshown i r' Hl Hv)].
      injection Hl as <-. congruence.
    * intros [|i] r' Hl Hv Hocc.
      -- injection Hl as <-. left. split; [reflexivity|].
         intros Hz. specialize (Hcomplete Hz Hocc). discriminate.
      -- right. destruct (Hhidden i r' Hl Hv Hocc)
           as [[_ Hli]|(j & q & -> & Hq & Hsq)].
         ++ exfalso. apply Hli, Kl; [exact Hg|reflexivity].
         ++ exists (S j), q. repeat split; assumption.
Qed.



End SearchVerdicts.

(** ** The page a remote request asks for *)

Section PayloadFacts.
Import JS Value Pagination Notions.

Lemma Math_round_div_pos (x y : Z) :
  (0 < y)%Z -> Math_round_div (Num x) (Num y) = Num (round_div x y).
Proof.
intros Hy. unfold Math_round_div, round_div.
destruct (y =? 0)%Z eqn:E0; [apply Z.eqb_eq in E0; lia|].
destruct (0 <? y)%Z eqn:E1; [reflexivity|apply Z.ltb_ge in E1; lia].
Qed.

Lemma round_div_nonneg (x y : Z) :
  (0 <= x)%Z -> (0 < y)%Z -> (0 <= round_div x y)%Z.
Proof. intros Hx Hy. unfold round_div. apply Z.div_pos; lia. Qed.

(** X13.  [processPagination] on a payload that carries a page and a
    positive page size, for a row count from 0 to 2^32 - 1: the
    payload comes back with the page alone changed; the page lies
    between 1 and the number of pages the code counts,
    [Math.round(total_rows / limit)], or is 1 when that number is 0; a
    page within that range is kept.  The number of pages is never more
    than the pages the rows fill. *)
Theorem processPagination_keeps_page_in_range (data : gmap string value)
        (page total_rows limit : Z) :
  data !! "page" = Some (VNumber (Num page)) ->
  data !! "limit" = Some (VNumber (Num limit)) ->
  (0 < limit)%Z ->
  (0 <= total_rows <= 2 ^ 32 - 1)%Z ->
  exists q,
    processPagination data (VNumber (Num total_rows))
    = <["page" := VNumber (Num q)]> data
    /\ (1 <= q <= Z.max 1 (round_div total_rows limit))%Z
    /\ (round_div total_rows limit <= ceil_div total_rows limit)%Z
    /\ ((1 <= page <= round_div total_rows limit)%Z -> q = page).
Proof.
intros Hp Hl Hlim [Ht _].
pose proof (round_div_nonneg total_rows limit Ht Hlim) as Hr.
assert (Hc : (round_div total_rows limit <= ceil_div total_rows limit)%Z).
{ destruct (Z.eq_dec total_rows 0%Z) as [->|Hne].
  - unfold round_div, ceil_div. cbn [Z.mul Z.add Z.opp].
    rewrite Z.div_small by lia. rewrite Z.div_0_l by lia. lia.
  - apply (round_le_ceil total_rows limit limit); lia. }
unfold processPagination. rewrite Hp, Hl. cbn [orDefault ToNumber].
rewrite (Math_round_div_pos _ _ Hlim). cbn [Math_max Math_min].
rewrite (insert_id data "limit" _ Hl).
set (pc := round_div total_rows limit) in *.
destruct (Z.eq_dec (Z.min (Z.max 1 page) pc) 0%Z) as [E|E].
- rewrite E. cbn [toNumber]. exists 1%Z.
  split; [reflexivity|]. split; [lia|]. split; [exact Hc|]. lia.
- exists (Z.min (Z.max 1 page) pc). split.
  + f_equal. f_equal. destruct (Z.min (Z.max 1 page) pc); try reflexivity.
    contradiction E. reflexivity.
  + split; [lia|]. split; [exact Hc|]. lia.
Qed.

(** Page 7 of 25 rows taken 10 at a time: page 3 is asked for. *)
Lemma processPagination_keeps_page_in_range_witness :
  exists q,
    processPagination
      (<["page" := VNumber (Num 7)]> (<["limit" := VNumber (Num 10)]> ∅))
      (VNumber (Num 25))
    = <["page" := VNumber (Num q)]>
        (<["page" := VNumber (Num 7)]> (<["limit" := VNumber (Num 10)]> ∅))
    /\ (1 <= q <= Z.max 1 (round_div 25 10))%Z
    /\ (round_div 25 10 <= ceil_div 25 10)%Z
    /\ ((1 <= 7 <= round_div 25 10)%Z -> q = 7%Z).
Proof.
apply (processPagination_keeps_page_in_range
         (<["page" := VNumber (Num 7)]> (<["limit" := VNumber (Num 10)]> ∅))
         7 25 10).
- reflexivity.
- reflexivity.
- lia.
- lia.
Defined.

(** X14.  With the page size left out, or given as "*", the payload sent
    carries the page size "*" and page 1, whatever page was asked for
    and whatever the row count is; its other entries are untouched. *)
Theorem processPagination_all_rows_is_page_one (data : gmap string value)
        (total_rows : value) :
  orDefault (VString DEFAULT.LIMIT) (data !! "limit") = VString DEFAULT.LIMIT ->
  processPagination data total_rows
  = <["page" := VNumber (Num 1)]> (<["limit" := VString DEFAULT.LIMIT]> data).
Proof.
intros Hl. unfold processPagination. rewrite Hl. f_equal. f_equal.
replace (ToNumber (VString DEFAULT.LIMIT)) with NaN by reflexivity.
assert (Hnan : Math_round_div (ToNumber total_rows) NaN = NaN)
  by (unfold Math_round_div; destruct (ToNumber total_rows); reflexivity).
rewrite Hnan.
destruct (Math_max (Num 1)
            (ToNumber (orDefault (VNumber (Num DEFAULT.PAGE))
                                 (data !! "page")))) as [z| | |];
  reflexivity.
Qed.

(** A payload asking for page 4 without a page size. *)
Lemma processPagination_all_rows_is_page_one_witness :
  processPagination (<["page" := VNumber (Num 4)]> ∅) (VNumber (Num 100))
  = <["page" := VNumber (Num 1)]>
      (<["limit" := VString DEFAULT.LIMIT]>
         (<["page" := VNumber (Num 4)]> ∅)).
Proof.
apply (processPagination_all_rows_is_page_one
         (<["page" := VNumber (Num 4)]> ∅) (VNumber (Num 100))).
reflexivity.
Defined.

End PayloadFacts.

(** ** Header names *)

Section HeaderNameFacts.
Import JS Value Http Words.

(** The letters of [[a-z]] and their upper case. *)
Lemma lower_letter (c : ascii) :
  isLowerAZ c = true ->
  isUpperAZ c = false /\ hasUpperCase c = true
  /\ Ascii.eqb c "-"%char = false
  /\ isUpperAZ (upper c) = true /\ isLowerAZ (upper c) = false
  /\ Ascii.eqb (upper c) "-"%char = false.
Proof.
destruct c as [[] [] [] [] [] [] [] []]; intros H;
  try discriminate H; repeat split; reflexivity.
Qed.

Lemma hyphenate_app a b : hyphenate (a ++ b) = hyphenate a ++ hyphenate b.
Proof.
induction a as [|c a IH]; [reflexivity|]. cbn [app hyphenate].
rewrite IH. destruct (isUpperAZ c); reflexivity.
Qed.

Lemma hyphenate_plain l : forallb plain l = true -> hyphenate l = l.
Proof.
induction l as [|c l IH]; [reflexivity|]. cbn [forallb hyphenate].
intros H. apply andb_true_iff in H as [Hc Hl]. unfold plain in Hc.
apply andb_true_iff in Hc as [Hu _]. apply negb_true_iff in Hu.
rewrite Hu, (IH Hl). reflexivity.
Qed.

Lemma capitalizeAfterHyphen_plain l r :
  forallb plain l = true ->
  capitalizeAfterHyphen (l ++ r) = l ++ capitalizeAfterHyphen r.
Proof.
induction l as [|c l IH]; [reflexivity|]. cbn [forallb app].
intros H. apply andb_true_iff in H as [Hc Hl]. unfold plain in Hc.
apply andb_true_iff in Hc as [_ Hh]. apply negb_true_iff in Hh.
cbn [capitalizeAfterHyphen]. rewrite Hh, (IH Hl). reflexivity.
Qed.

Lemma hyphenated_cons w ws :
  hyphenated (w :: ws)
  = w ++ concat (map (fun v => "-"%char :: v) ws).
Proof.
revert w. induction ws as [|v ws IH]; intros w.
- cbn. rewrite app_nil_r. reflexivity.
- change (hyphenated (w :: v :: ws))
    with (w ++ "-"%char :: hyphenated (v :: ws)).
  rewrite IH. reflexivity.
Qed.

(** A name in camel case after the first replacement: a hyphen ahead
    of every word but the first. *)
Lemma hyphenate_camel ws :
  forallb word ws = true ->
  hyphenate (concat (map capitalized ws))
  = concat (map (fun v => "-"%char :: capitalized v) ws).
Proof.
induction ws as [|[|c w] ws IH]; [reflexivity|discriminate|].
cbn [forallb word]. intros H.
apply andb_true_iff in H as [Hw Hws]. apply andb_true_iff in Hw as [Hc Hp].
destruct (lower_letter c Hc) as (_ & _ & _ & Hu & _).
cbn [map concat capitalized app]. cbn [hyphenate]. rewrite Hu.
rewrite hyphenate_app, (hyphenate_plain _ Hp), (IH Hws). reflexivity.
Qed.

Lemma capitalizeAfterHyphen_titled ws :
  forallb word ws = true ->
  capitalizeAfterHyphen (concat (map (fun v => "-"%char :: capitalized v) ws))
  = concat (map (fun v => "-"%char :: capitalized v) ws).
Proof.
induction ws as [|[|c w] ws IH]; [reflexivity|discriminate|].
cbn [forallb word]. intros H.
apply andb_true_iff in H as [Hw Hws]. apply andb_true_iff in Hw as [Hc Hp].
destruct (lower_letter c Hc) as (_ & _ & _ & _ & Hl & Hh).
cbn [map concat capitalized app]. cbn [capitalizeAfterHyphen].
rewrite Hl. cbn [Ascii.eqb Bool.eqb andb]. rewrite Hh.
rewrite (capitalizeAfterHyphen_plain _ _ Hp), (IH Hws). reflexivity.
Qed.

Lemma capitalizeAfterHyphen_kebab ws :
  forallb word ws = true ->
  capitalizeAfterHyphen (concat (map (fun v => "-"%char :: v) ws))
  = concat (map capitalized ws).
Proof.
induction ws as [|[|c w] ws IH]; [reflexivity|discriminate|].
cbn [forallb word]. intros H.
apply andb_true_iff in H as [Hw Hws]. apply andb_true_iff in Hw as [Hc Hp].
cbn [map concat capitalized app]. cbn [capitalizeAfterHyphen].
rewrite Hc. cbn [Ascii.eqb Bool.eqb andb].
rewrite (capitalizeAfterHyphen_plain _ _ Hp), (IH Hws). reflexivity.
Qed.

Lemma hyphenate_kebab ws :
  forallb word ws = true ->
  hyphenate (concat (map (fun v => "-"%char :: v) ws))
  = concat (map (fun v => "-"%char :: v) ws).
Proof.
induction ws as [|[|c w] ws IH]; [reflexivity|discriminate|].
cbn [forallb word]. intros H.
apply andb_true_iff in H as [Hw Hws]. apply andb_true_iff in Hw as [Hc Hp].
destruct (lower_letter c Hc) as (Hu & _).
cbn [map concat app]. cbn [hyphenate]. rewrite Hu.
change (isUpperAZ "-"%char) with false. cbn iota.
rewrite hyphenate_app, (hyphenate_plain _ Hp), (IH Hws). reflexivity.
Qed.

(** X15.  A name written in camel case, [contentType]: every word gets its
    first letter in upper case and the words are joined by hyphens,
    [Content-Type]. *)
Theorem camelToTitleCase_camel (w : list ascii) (ws : list (list ascii)) :
  forallb word (w :: ws) = true ->
  camelToTitleCase (string_of_list_ascii (w ++ concat (map capitalized ws)))
  = Normal (string_of_list_ascii (hyphenated (map capitalized (w :: ws)))).
Proof.
cbn [forallb]. intros H. apply andb_true_iff in H as [Hw Hws].
destruct w as [|c w]; [discriminate|]. cbn [word] in Hw.
apply andb_true_iff in Hw as [Hc Hp].
destruct (lower_letter c Hc) as (Hu & Hup & _).
cbn [app string_of_list_ascii]. unfold camelToTitleCase. rewrite Hup.
cbn [negb]. f_equal. f_equal.
change (list_ascii_of_string (String c ?s))
  with (c :: list_ascii_of_string s).
cbn [list_ascii_of_string]. rewrite list_ascii_of_string_of_list_ascii.
cbn [hyphenate]. rewrite Hu.
rewrite hyphenate_app, (hyphenate_plain _ Hp), (hyphenate_camel _ Hws).
unfold capitalizeWords. rewrite Hc.
rewrite (capitalizeAfterHyphen_plain _ _ Hp),
        (capitalizeAfterHyphen_titled _ Hws).
cbn [map]. rewrite hyphenated_cons, map_map. reflexivity.
Qed.

Lemma camelToTitleCase_camel_witness :
  camelToTitleCase "contentType" = Normal "Content-Type".
Proof.
exact (camelToTitleCase_camel (list_ascii_of_string "content")
         [list_ascii_of_string "type"] eq_refl).
Defined.

(** X16.  A name written in lower case with hyphens, [x-api-key]: every word
    gets its first letter in upper case and the hyphens are dropped,
    [XApiKey]. *)
Theorem camelToTitleCase_kebab (w : list ascii) (ws : list (list ascii)) :
  forallb word (w :: ws) = true ->
  camelToTitleCase (string_of_list_ascii (hyphenated (w :: ws)))
  = Normal (string_of_list_ascii (concat (map capitalized (w :: ws)))).
Proof.
cbn [forallb]. intros H. apply andb_true_iff in H as [Hw Hws].
destruct w as [|c w]; [discriminate|]. cbn [word] in Hw.
apply andb_true_iff in Hw as [Hc Hp].
destruct (lower_letter c Hc) as (Hu & Hup & _).
rewrite hyphenated_cons.
cbn [app string_of_list_ascii]. unfold camelToTitleCase. rewrite Hup.
cbn [negb]. f_equal. f_equal.
cbn [list_ascii_of_string]. rewrite list_ascii_of_string_of_list_ascii.
cbn [hyphenate]. rewrite Hu.
rewrite hyphenate_app, (hyphenate_plain _ Hp), (hyphenate_kebab _ Hws).
unfold capitalizeWords. rewrite Hc.
rewrite (capitalizeAfterHyphen_plain _ _ Hp),
        (capitalizeAfterHyphen_kebab _ Hws).
reflexivity.
Qed.

Lemma camelToTitleCase_kebab_witness :
  camelToTitleCase "x-api-key" = Normal "XApiKey".
Proof.
exact (camelToTitleCase_kebab (list_ascii_of_string "x")
         [list_ascii_of_string "api"; list_ascii_of_string "key"] eq_refl).
Defined.

(** Writing entries into a map one after the other: on equal names
    the later entry stays. *)
Lemma fold_insert_rev (l : list (string * value)) :
  forall acc : gmap string value,
    fold_left (fun m kv => <[fst kv := snd kv]> m) l acc
    = list_to_map (rev l) ∪ acc.
Proof.
induction l as [|[k v] l IH]; intros acc.
- cbn. rewrite (left_id ∅ (∪)). reflexivity.
- cbn [fold_left rev fst snd]. rewrite IH, list_to_map_app.
  cbn [list_to_map foldr]. rewrite <- (assoc (∪)).
  rewrite <- insert_union_l, (left_id ∅ (∪)). reflexivity.
Qed.

Lemma camelToTitleCase_returns (key : string) :
  key <> EmptyString -> exists name, camelToTitleCase key = Normal name.
Proof.
destruct key as [|c key]; [congruence|]. intros _. unfold camelToTitleCase.
destruct (negb (hasUpperCase c)); eauto.
Qed.

Lemma convertEntries_run (entries : list (string * value)) :
  Forall (fun kv => fst kv <> EmptyString) entries ->
  exists names,
    Forall2 (fun kv name => camelToTitleCase (fst kv) = Normal name)
            entries names
    /\ forall acc,
         convertEntries entries acc
         = Normal (fold_left (fun m kv => <[fst kv := snd kv]> m)
                             (combine names (map snd entries)) acc).
Proof.
induction 1 as [|[key v] entries Hk _ (names & Hn & IH)].
- exists []. split; [constructor|reflexivity].
- cbn [fst] in Hk. destruct (camelToTitleCase_returns key Hk) as [name E].
  exists (name :: names). split; [constructor; [exact E|exact Hn]|].
  intros acc. destruct key as [|c key]; [congruence|].
  cbn [convertEntries].
  assert (Eh : (if negb (hasUpperCase c) then Normal (String c key)
                else camelToTitleCase (String c key)) = Normal name).
  { unfold camelToTitleCase in E |- *.
    destruct (negb (hasUpperCase c)); exact E. }
  rewrite Eh. cbn [bindC]. rewrite IH. reflexivity.
Qed.

Lemma convertEntries_empty_name (entries : list (string * value)) :
  In EmptyString (map fst entries) ->
  forall acc,
    convertEntries entries acc
    = Throw (TypeError
               "Cannot read properties of undefined (reading 'toUpperCase')").
Proof.
induction entries as [|[key v] entries IH]; [intros []|].
intros Hin acc. destruct key as [|c key]; [reflexivity|].
destruct Hin as [Hin|Hin]; [discriminate Hin|].
cbn [convertEntries].
destruct (if negb (hasUpperCase c) then Normal (String c key)
          else camelToTitleCase (String c key)) as [header|e] eqn:E.
- cbn [bindC]. apply IH, Hin.
- exfalso. unfold camelToTitleCase in E.
  destruct (negb (hasUpperCase c)); discriminate E.
Qed.


End HeaderNameFacts.

(** ** What the operations accept *)

Section ContractFacts.
Import JS Value Validation Pagination Paging Contracts.
Variable JSON_stringify : value -> option string.
Variable String_ : value -> string.
Variable IsLooselyEqual : value -> value -> bool.
Variable onPrototype : list string -> string -> bool.

Local Abbreviation validate :=
  (validateVariable JSON_stringify String_ IsLooselyEqual onPrototype).

(** X18.  [toLimit], [toPaginate], [toSearch] and [toFilter] check [output]
    with rules that have no fallback: a function, a string or an
    element passes as it is, anything else makes the operation throw a
    [TableJSError], and so does leaving [output] out. *)
Theorem output_is_required (name : string) (v : value) :
  (reportsTo v = true -> validate v (output_rules name) = Normal v)
  /\ (reportsTo v = false ->
      exists message,
        validate v (output_rules name) = Throw (TableJSError message))
  /\ exists message,
       validate VUndefined (output_rules name)
       = Throw (TableJSError message).
Proof.
split; [|split].
- intros H. unfold reportsTo in H.
  unfold validateVariable, output_rules, rules.
  cbn [v_or v_and v_typeOf v_in v_has v_instanceOf v_equals v_strictEquals
       v_execute v_pattern v_transform v_fallback variableName defined
       validateExecute validateLogicalOr someC logicalCallback bindC
       truthy_types truthy_classes validateTypeOf validateInstanceOf
       asArray existsb String.eqb Ascii.eqb Bool.eqb negb andb orb].
  rewrite !orb_false_r.
  destruct (String.eqb (typeof v) "function"); [reflexivity|].
  destruct (String.eqb (typeof v) "string"); [reflexivity|].
  cbn [orb] in H. rewrite H. reflexivity.
- intros H. unfold reportsTo in H.
  apply orb_false_iff in H as [H H3]. apply orb_false_iff in H as [H1 H2].
  unfold validateVariable, output_rules, rules.
  cbn [v_or v_and v_typeOf v_in v_has v_instanceOf v_equals v_strictEquals
       v_execute v_pattern v_transform v_fallback variableName defined
       validateExecute validateLogicalOr someC logicalCallback bindC
       truthy_types truthy_classes validateTypeOf validateInstanceOf
       asArray existsb String.eqb Ascii.eqb Bool.eqb negb andb orb].
  rewrite !orb_false_r, H1, H2, H3.
  cbn [bindC mapC validationCallback validateFallback].
  eexists. reflexivity.
- eexists. reflexivity.
Qed.

Local Ltac run_rules :=
  cbn [v_or v_and v_typeOf v_in v_has v_instanceOf v_equals v_strictEquals
       v_execute v_pattern v_transform v_fallback variableName defined
       validateExecute validateLogicalOr validateLogicalAnd someC everyC
       logicalCallback bindC truthy_types truthy_classes validateTypeOf
       validateInstanceOf validateStrictEquals asArray existsb forallb
       String.eqb Ascii.eqb Bool.eqb negb andb orb fst snd ToBoolean].

(** The message for a value that is not an object, or is an array. *)
Local Abbreviation refusal := (fun (name : string) (v : value) => expected JSON_stringify true name v +:+ " must attain all of the following: " +:+ newline +:+ wordsConstructor [bracket (iconConstructor (String.eqb (typeof v) "object")) "typeof 'object'"; bracket (iconConstructor (negb (isArray v))) (fn_source not_an_array)] "and" +:+ newline).

(** The checks [$and: [{ typeOf: "object" }, not an array]] on a
    value. *)
Lemma plain_rules_run (name : string) (v : value) :
  validate v (rules None (Some [TypeOf (One "object"); Execute not_an_array])
                    (Some name) Undefined Undefined)
  = if plainObject v then Normal v
    else Throw (TableJSError (refusal name v)).
Proof.
unfold validateVariable, rules, plainObject. run_rules.
unfold not_an_array at 1. cbn [fn_call].
destruct v; cbn [typeof isArray negb ToBoolean String.eqb Ascii.eqb Bool.eqb
                 andb bindC]; reflexivity.
Qed.

Lemma table_rules_run (v : value) :
  exists message,
    validate v table_rules
    = if instanceof v "Element" && String.eqb (typeof v) "object"
      then Normal v else Throw (TableJSError message).
Proof.
unfold validateVariable, table_rules, rules. run_rules.
destruct (instanceof v "Element") eqn:Ei; cbn [bindC andb].
- destruct (String.eqb (typeof v) "object") eqn:Et;
    cbn [bindC andb mapC validationCallback validateFallback].
  + exists EmptyString. reflexivity.
  + eexists. reflexivity.
- cbn [bindC andb mapC validationCallback validateFallback].
  eexists; reflexivity.
Qed.

(** X19.  [preInitialize] goes past its checks exactly when the table is an
    element and [exportAs] and [colvis] are objects that are not
    arrays; otherwise it throws a [TableJSError].  In particular it
    throws for an instance that has no [exportAs] elements, or no
    [colvis] element, whatever the other two are. *)
Theorem preInitialize_needs_exportAs_and_colvis (table exportAs colvis : value) :
  let elements :=
    preInitialize_elements JSON_stringify String_ IsLooselyEqual onPrototype in
  (instanceof table "Element" && String.eqb (typeof table) "object"
   && plainObject exportAs && plainObject colvis = true ->
   elements table exportAs colvis = Normal (table, exportAs, colvis))
  /\ (instanceof table "Element" && String.eqb (typeof table) "object"
      && plainObject exportAs && plainObject colvis = false ->
      exists message,
        elements table exportAs colvis = Throw (TableJSError message))
  /\ (exists message,
        elements table VUndefined colvis = Throw (TableJSError message))
  /\ (exists message,
        elements table exportAs VUndefined = Throw (TableJSError message)).
Proof.
cbn zeta. unfold preInitialize_elements.
assert (Hrun : forall x y z,
          exists m1 m2 m3,
            bindC (validate x table_rules) (fun t =>
            bindC (validate y exportAs_rules) (fun e =>
            bindC (validate z colvis_rules) (fun c => Normal (t, e, c))))
            = if instanceof x "Element" && String.eqb (typeof x) "object"
              then if plainObject y
                   then if plainObject z then Normal (x, y, z)
                        else Throw (TableJSError m3)
                   else Throw (TableJSError m2)
              else Throw (TableJSError m1)).
{ intros x y z. destruct (table_rules_run x) as [m1 E1].
  exists m1, (refusal "preInitialize.exportAs" y),
         (refusal "preInitialize.colvis" z).
  unfold exportAs_rules, colvis_rules. rewrite E1.
  destruct (instanceof x "Element" && String.eqb (typeof x) "object");
    cbn [bindC]; [|reflexivity].
  rewrite plain_rules_run.
  destruct (plainObject y); cbn [bindC]; [|reflexivity].
  rewrite plain_rules_run.
  destruct (plainObject z); reflexivity. }
split; [|split; [|split]].
- intros H. apply andb_true_iff in H as [H Hc].
  apply andb_true_iff in H as [Ht He].
  destruct (Hrun table exportAs colvis) as (m1 & m2 & m3 & E).
  rewrite E, Ht, He, Hc. reflexivity.
- intros H. destruct (Hrun table exportAs colvis) as (m1 & m2 & m3 & E).
  rewrite E.
  destruct (instanceof table "Element" && String.eqb (typeof table) "object");
    [|eauto].
  destruct (plainObject exportAs); [|eauto].
  destruct (plainObject colvis); [discriminate H|eauto].
- destruct (Hrun table VUndefined colvis) as (m1 & m2 & m3 & E).
  rewrite E.
  destruct (instanceof table "Element" && String.eqb (typeof table) "object");
    eauto.
- destruct (Hrun table exportAs VUndefined) as (m1 & m2 & m3 & E).
  rewrite E.
  destruct (instanceof table "Element" && String.eqb (typeof table) "object");
    [|eauto].
  destruct (plainObject exportAs); eauto.
Qed.

(** X20.  The page size.  [toLimit] keeps the string "*" and turns
    another value into [Number] of it (shown for undefined, null,
    booleans, numbers, text of at most 15 decimal digits and ASCII
    text holding a character no numeral has); the number of rows to a page that [toLimit]
    and [toPaginate] then work with is the number of rows of the body
    for "*", and for a number that number, or the number of rows of the
    body when it is not smaller. *)
Theorem page_size_rules (v : value) (limitSize : limit) (name : option string)
        (rowLength : nat) :
  ToNumber_exact v = true ->
  validate v limitSize_rules
  = Normal (if strictEquals v (VString DEFAULT.LIMIT)
            then limit_value ALL else limit_value (Limit (ToNumber v)))
  /\ validate (limit_value limitSize) (limitCount_rules name rowLength)
     = Normal (VNumber (limitCount limitSize rowLength)).
Proof.
intros _. split.
- unfold validateVariable, limitSize_rules, rules. run_rules.
  destruct v; cbn [typeof String.eqb Ascii.eqb Bool.eqb andb orb bindC
                   strictEquals mapC validationCallback validateFallback
                   limit_value]; try reflexivity.
  destruct (String.eqb s DEFAULT.LIMIT) eqn:E;
    [apply String.eqb_eq in E; subst s|]; reflexivity.
- unfold validateVariable, limitCount_rules, rules. run_rules.
  destruct limitSize as [|number]; [reflexivity|].
  cbn [limit_value typeof String.eqb Ascii.eqb Bool.eqb andb orb bindC
       strictEquals mapC validationCallback validateFallback ToNumber
       limitCount].
  reflexivity.
Qed.

End ContractFacts.

Section ContractWitness.
Import JS Value Validation Pagination Paging Contracts.

(** The value of a page-size control, the text "25", on a body of
    ten rows; the host functions only word the refusals, none of
    which is met here. *)
Lemma page_size_rules_witness :
  validateVariable (fun _ => None) (fun _ => EmptyString)
                   (fun _ _ => false) (fun _ _ => false)
                   (VString "25") limitSize_rules
  = Normal (VNumber (Num 25))
  /\ validateVariable (fun _ => None) (fun _ => EmptyString)
                      (fun _ _ => false) (fun _ _ => false)
                      (limit_value (Limit (Num 25)))
                      (limitCount_rules None 10)
     = Normal (VNumber (Num 10)).
Proof.
apply (page_size_rules (fun _ => None) (fun _ => EmptyString)
                       (fun _ _ => false) (fun _ _ => false)
                       (VString "25") (Limit (Num 25)) None 10).
reflexivity.
Defined.

End ContractWitness.

(** ** Two handlers on a header cell *)

Section HandlerFacts.
Import JS Value Dom Sort Spec Handlers.
Variable localeCompare : string -> string -> Z.

(** The comparator a handler sorts with and the markers it leaves, from
    the markers (ascending, descending) it finds on the cell. *)
Local Abbreviation comparator := (fun (ascending : bool) (columnIndex : nat) (m : bool * bool) => if snd m then byIndex else byColumn localeCompare columnIndex (if fst m then negb ascending else ascending)).

Local Abbreviation marked_next := (fun (ascending : bool) (m : bool * bool) => if snd m then (fst m, false) else (if fst m then negb ascending else ascending, negb (if fst m then negb ascending else ascending))).

Lemma filter_none {A : Type} (p : A -> bool) (l : list A) :
  (forall x, In x l -> p x = false) -> List.filter p l = [].
Proof.
induction l as [|x l IH]; intros H; [reflexivity|].
cbn. rewrite (H x (or_introl eq_refl)). apply IH.
intros y Hy. apply H. right. exact Hy.
Qed.

Lemma others_none rows b : Permutation rows b -> others rows b = [].
Proof.
intros Hp. unfold others. apply filter_none.
intros r Hr. apply negb_false_iff, existsb_exists. exists (node r).
split; [|apply Nat.eqb_refl].
apply in_map. eapply Permutation_in; [symmetry; exact Hp|exact Hr].
Qed.

Lemma live_same rows b :
  NoDup (map node b) -> Permutation rows b -> map (current b) rows = rows.
Proof.
intros Hnd Hp. rewrite <- (map_id rows) at 2. apply map_ext_in.
intros r Hr. unfold current.
rewrite (attached_In b r Hnd); [reflexivity|].
eapply Permutation_in; [exact Hp|exact Hr].
Qed.

Lemma reappend_same sorted b :
  NoDup (map node b) -> Permutation sorted b ->
  reappend sorted b = (Normal tt, sorted).
Proof.
intros Hnd Hp. rewrite reappend_all.
- rewrite (others_none _ _ Hp). reflexivity.
- exact Hnd.
- rewrite (Permutation_map node Hp). exact Hnd.
- intros r Hr. eapply Permutation_in; [exact Hp|exact Hr].
Qed.

(** One handler on a body all of whose rows it holds. *)
Lemma handler_run ascending i hs b rows target :
  hs !! i = Some target ->
  NoDup (map node b) ->
  Permutation rows b ->
  exists hs' target',
    click localeCompare [] ascending i (mkState hs b rows)
    = (Normal tt,
       mkState hs'
         (Array_sort (comparator ascending (th_cellIndex target)
                        (contains CLASS.SORT.ASCENDING (th_classList target),
                         contains CLASS.SORT.DESCENDING (th_classList target)))
                     rows)
         (Array_sort (comparator ascending (th_cellIndex target)
                        (contains CLASS.SORT.ASCENDING (th_classList target),
                         contains CLASS.SORT.DESCENDING (th_classList target)))
                     rows))
    /\ hs' !! i = Some target'
    /\ th_cellIndex target' = th_cellIndex target
    /\ (contains CLASS.SORT.ASCENDING (th_classList target'),
        contains CLASS.SORT.DESCENDING (th_classList target'))
       = marked_next ascending
           (contains CLASS.SORT.ASCENDING (th_classList target),
            contains CLASS.SORT.DESCENDING (th_classList target)).
Proof.
intros Hi Hnd Hp. unfold click. cbn [ths tbody Sort.rows].
rewrite Hi. cbn [sortable existsb negb].
rewrite (live_same rows b Hnd Hp). cbn [fst snd].
destruct (contains CLASS.SORT.DESCENDING (th_classList target)) eqn:Ed.
- rewrite (reappend_same _ b Hnd)
    by (etransitivity; [apply Array_sort_perm|exact Hp]).
  eexists _, _. split; [reflexivity|].
  rewrite on_target_lookup, Hi. cbn [fmap option_fmap option_map].
  rewrite Nat.eqb_refl. split; [reflexivity|]. split; [reflexivity|].
  cbn [th_classList set_th_classList]. rewrite !contains_remove.
  cbn [String.eqb Ascii.eqb Bool.eqb negb andb CLASS.SORT.ASCENDING
       CLASS.SORT.DESCENDING].
  reflexivity.
- rewrite (reappend_same _ b Hnd)
    by (etransitivity; [apply Array_sort_perm|exact Hp]).
  eexists _, _. split; [reflexivity|].
  rewrite on_target_lookup, list_lookup_fmap, Hi.
  cbn [fmap option_fmap option_map]. rewrite Nat.eqb_refl.
  split; [reflexivity|]. split; [reflexivity|].
  cbn [th_classList set_th_classList].
  destruct (if contains CLASS.SORT.ASCENDING (th_classList target)
            then negb ascending else ascending);
    rewrite !contains_add, !contains_remove; reflexivity.
Qed.

(** One click on a cell that two calls gave a handler: the first
    handler sorts the array of the first call, the second handler the
    array of the second call, by what the first left on the cell. *)
Lemma clicked_twice ascending i hs b rowsA rowsB tA tB target m :
  hs !! i = Some target ->
  (contains CLASS.SORT.ASCENDING (th_classList target),
   contains CLASS.SORT.DESCENDING (th_classList target)) = m ->
  existsb (Nat.eqb i) tA = true ->
  existsb (Nat.eqb i) tB = true ->
  NoDup (map node b) ->
  Permutation rowsA b ->
  Permutation rowsB b ->
  exists hs2 target2,
    clicked localeCompare i
            (mkTable hs b [mkCall rowsA ascending tA;
                           mkCall rowsB ascending tB])
    = ([],
       mkTable hs2
         (Array_sort (comparator ascending (th_cellIndex target)
                                 (marked_next ascending m)) rowsB)
         [mkCall (Array_sort (comparator ascending (th_cellIndex target) m)
                             rowsA) ascending tA;
          mkCall (Array_sort (comparator ascending (th_cellIndex target)
                                         (marked_next ascending m)) rowsB)
                 ascending tB])
    /\ hs2 !! i = Some target2
    /\ th_cellIndex target2 = th_cellIndex target
    /\ (contains CLASS.SORT.ASCENDING (th_classList target2),
        contains CLASS.SORT.DESCENDING (th_classList target2))
       = marked_next ascending (marked_next ascending m)
    /\ NoDup (map node
                 (Array_sort (comparator ascending (th_cellIndex target)
                                         (marked_next ascending m)) rowsB))
    /\ Permutation
         (Array_sort (comparator ascending (th_cellIndex target) m) rowsA)
         (Array_sort (comparator ascending (th_cellIndex target)
                                 (marked_next ascending m)) rowsB).
Proof.
intros Hi Hm HA HB Hnd HpA HpB.
destruct (handler_run ascending i hs b rowsA target Hi Hnd HpA)
  as (hs1 & target1 & E1 & Hi1 & Hc1 & Hm1).
rewrite Hm in E1, Hm1.
set (sA := Array_sort (comparator ascending (th_cellIndex target) m) rowsA)
  in *.
assert (HpsA : Permutation sA b)
  by (etransitivity; [apply Array_sort_perm|exact HpA]).
assert (Hnd1 : NoDup (map node sA))
  by (rewrite (Permutation_map node HpsA); exact Hnd).
assert (HpB1 : Permutation rowsB sA)
  by (etransitivity; [exact HpB|symmetry; exact HpsA]).
destruct (handler_run ascending i hs1 sA rowsB target1 Hi1 Hnd1 HpB1)
  as (hs2 & target2 & E2 & Hi2 & Hc2 & Hm2).
rewrite Hm1, Hc1 in E2. rewrite Hm1 in Hm2.
set (sB := Array_sort (comparator ascending (th_cellIndex target)
                                  (marked_next ascending m)) rowsB) in *.
assert (HpsB : Permutation sB b)
  by (etransitivity; [apply Array_sort_perm|exact HpB]).
exists hs2, target2. split.
- unfold clicked. cbn [calls heads body dispatch captured call_ascending
                       targets].
  rewrite HA, E1. cbn [ths tbody Sort.rows]. rewrite HB, E2. reflexivity.
- split; [exact Hi2|]. split; [congruence|]. split; [exact Hm2|].
  split; [rewrite (Permutation_map node HpsB); exact Hnd|].
  etransitivity; [exact HpsA|symmetry; exact HpsB].
Qed.

(** The classes [toSort] gives a header cell leave its sort markers
    and its column as they are. *)
Lemma enable_keeps exclude th :
  th_cellIndex (enable exclude th) = th_cellIndex th
  /\ contains CLASS.SORT.ASCENDING (th_classList (enable exclude th))
     = contains CLASS.SORT.ASCENDING (th_classList th)
  /\ contains CLASS.SORT.DESCENDING (th_classList (enable exclude th))
     = contains CLASS.SORT.DESCENDING (th_classList th).
Proof.
unfold enable, th_based.
destruct (existsb _ exclude); cbn [th_cellIndex th_classList set_th_classList];
  rewrite !contains_remove, !contains_add; repeat split; reflexivity.
Qed.

(** Exclusion by column index does not look at the classes. *)
Lemma listens_by_index idxs th :
  listens (map ByIndex idxs) th
  = negb (existsb (fun j => Nat.eqb j (th_cellIndex th)) idxs).
Proof.
unfold listens. f_equal. induction idxs as [|j idxs IH]; [reflexivity|].
cbn [map existsb]. rewrite IH. reflexivity.
Qed.

Lemma based_keeps r :
  node (based r) = node r /\ counted (based r) = counted r
  /\ based (based r) = based r.
Proof.
unfold based. destruct (counted r) eqn:Ec.
- assert (Hc : counted (set_classList r (add CLASS.TR.BASE (classList r)))
               = true).
  { unfold counted in *. cbn [classList set_classList].
    rewrite contains_add. exact Ec. }
  split; [reflexivity|]. split; [exact Hc|]. rewrite Hc.
  unfold set_classList. cbn [node index children classList]. f_equal.
  unfold add at 1. rewrite contains_add, String.eqb_refl. reflexivity.
- rewrite Ec. repeat split; assumption.
Qed.

(** Two calls of [toSort] with the same options on a table not sorted
    yet, the column of the cell at [i] not excluded by index. *)
Lemma toSort_twice ascending idxs hs0 b0 i th :
  hs0 !! i = Some th ->
  existsb (fun j => Nat.eqb j (th_cellIndex th)) idxs = false ->
  NoDup (map node b0) ->
  forallb counted b0 = true ->
  exists hs tA tB target,
    toSort ascending (map ByIndex idxs)
           (toSort ascending (map ByIndex idxs) (mkTable hs0 b0 []))
    = mkTable hs (map based b0)
              [mkCall (map based b0) ascending tA;
               mkCall (map based b0) ascending tB]
    /\ hs !! i = Some target
    /\ th_cellIndex target = th_cellIndex th
    /\ (contains CLASS.SORT.ASCENDING (th_classList target),
        contains CLASS.SORT.DESCENDING (th_classList target))
       = (contains CLASS.SORT.ASCENDING (th_classList th),
          contains CLASS.SORT.DESCENDING (th_classList th))
    /\ existsb (Nat.eqb i) tA = true
    /\ existsb (Nat.eqb i) tB = true
    /\ NoDup (map node (map based b0)).
Proof.
intros Hi Hex Hnd Hall.
assert (Hlt : i < List.length hs0) by (apply lookup_lt_Some in Hi; exact Hi).
assert (Hcount : List.filter counted (map based b0) = map based b0).
{ clear Hnd. induction b0 as [|r b0 IH]; [reflexivity|].
  cbn [forallb] in Hall. apply andb_true_iff in Hall as [Hr Hall].
  cbn [map List.filter]. destruct (based_keeps r) as (_ & Hc & _).
  rewrite Hc, Hr, (IH Hall). reflexivity. }
assert (Hidem : map based (map based b0) = map based b0).
{ rewrite map_map. apply map_ext. intros r. apply based_keeps. }
destruct (enable_keeps (map ByIndex idxs) th) as (Hc1 & Ha1 & Hd1).
destruct (enable_keeps (map ByIndex idxs) (enable (map ByIndex idxs) th))
  as (Hc2 & Ha2 & Hd2).
eexists _, _, _, _. split.
{ unfold toSort. cbn [heads body calls app]. rewrite Hidem, Hcount.
  reflexivity. }
split.
{ rewrite !list_lookup_fmap, Hi. reflexivity. }
split; [congruence|]. split; [congruence|].
split; [|split].
- apply existsb_exists. exists i. split; [|apply Nat.eqb_refl].
  apply filter_In. split; [apply in_seq; lia|].
  rewrite Hi, listens_by_index, Hex. reflexivity.
- apply existsb_exists. exists i. split; [|apply Nat.eqb_refl].
  apply filter_In. rewrite length_map. split; [apply in_seq; lia|].
  rewrite list_lookup_fmap, Hi. cbn [fmap option_fmap option_map].
  rewrite listens_by_index, Hc1, Hex. reflexivity.
- rewrite map_map.
  rewrite (map_ext (fun r => node (based r)) node); [exact Hnd|].
  intros r. apply based_keeps.
Qed.

(** Rows in the order of their indices come out of the index sort as
    they went in. *)
Lemma byIndex_ingested (l : list Tr) :
  (forall r, In r l -> index r <> None) ->
  StronglySorted index_lt l ->
  Array_sort byIndex l = l.
Proof.
intros Hdef Hs. apply sorted_is_ingested.
- apply byIndex_sorted, Hdef.
- exact Hs.
- symmetry. apply Array_sort_perm.
Qed.

Lemma based_ingested (l : list Tr) :
  (forall r, In r l -> index r <> None) ->
  StronglySorted index_lt l ->
  (forall r, In r (map based l) -> index r <> None)
  /\ StronglySorted index_lt (map based l).
Proof.
assert (Hi : forall r, index (based r) = index r)
  by (intros r; unfold based; destruct (counted r); reflexivity).
intros Hdef Hs. split.
- intros r Hr. apply in_map_iff in Hr as (r0 & <- & Hr0).
  rewrite Hi. apply Hdef, Hr0.
- clear Hdef. induction Hs as [|a l Hs IH Hall]; [constructor|].
  cbn [map]. constructor; [exact IH|].
  apply List.Forall_forall. intros r Hr.
  apply in_map_iff in Hr as (r0 & <- & Hr0).
  unfold index_lt. rewrite !Hi.
  exact (proj1 (List.Forall_forall _ _) Hall r0 Hr0).
Qed.

(** X21.  [toSort] is called once by [preInitialize] and once by
    [postInitialize], with the options of [table.sort] both times, so a
    header cell that is not excluded carries two handlers and a click
    runs both.  With [ascending: true], on a cell without marker whose
    column is not excluded by index: the first click leaves the rows
    sorted in descending order and the cell marked descending; the
    second leaves them ascending and the cell marked ascending; the
    third takes the marker off and puts the rows in the order of their
    indices, the order they had at first when that was the order of
    their indices.  No handler throws. *)
Theorem click_runs_two_handlers (idxs : list nat) (hs0 : list Th)
        (b0 : list Tr) (i : nat) (th : Th) :
  hs0 !! i = Some th ->
  existsb (fun j => Nat.eqb j (th_cellIndex th)) idxs = false ->
  markers hs0 i = Some (false, false) ->
  NoDup (map node b0) ->
  forallb counted b0 = true ->
  let t := toSort true (map ByIndex idxs)
                  (toSort true (map ByIndex idxs) (mkTable hs0 b0 [])) in
  exists t1 t2 t3,
    clicked localeCompare i t = ([], t1)
    /\ clicked localeCompare i t1 = ([], t2)
    /\ clicked localeCompare i t2 = ([], t3)
    /\ markers (heads t1) i = Some (false, true)
    /\ body t1
       = Array_sort (byColumn localeCompare (th_cellIndex th) false) (body t)
    /\ markers (heads t2) i = Some (true, false)
    /\ body t2
       = Array_sort (byColumn localeCompare (th_cellIndex th) true) (body t1)
    /\ markers (heads t3) i = Some (false, false)
    /\ body t3 = Array_sort byIndex (body t2)
    /\ ((forall r, In r b0 -> index r <> None) ->
        StronglySorted index_lt b0 ->
        body t3 = body t).
Proof.
intros Hi Hex Hm Hnd Hall. cbn zeta.
unfold markers in Hm. rewrite Hi in Hm. cbn [option_map] in Hm.
injection Hm as Hup Hdown.
destruct (toSort_twice true idxs hs0 b0 i th Hi Hex Hnd Hall)
  as (hs & tA & tB & target & -> & Hit & Hct & Hmt & HA & HB & Hndb).
rewrite Hup, Hdown in Hmt.
destruct (clicked_twice true i hs (map based b0) (map based b0)
            (map based b0) tA tB target (false, false)
            Hit Hmt HA HB Hndb (Permutation_refl _) (Permutation_refl _))
  as (hs1 & target1 & E1 & Hi1 & Hc1 & Hm1 & Hnd1 & Hp1).
cbn [fst snd negb] in E1, Hm1, Hnd1, Hp1.
destruct (clicked_twice true i hs1 _ _ _ tA tB target1 (false, true)
            Hi1 Hm1 HA HB Hnd1 Hp1 (Permutation_refl _))
  as (hs2 & target2 & E2 & Hi2 & Hc2 & Hm2 & Hnd2 & Hp2).
cbn [fst snd negb] in E2, Hm2, Hnd2, Hp2.
destruct (clicked_twice true i hs2 _ _ _ tA tB target2 (true, false)
            Hi2 Hm2 HA HB Hnd2 Hp2 (Permutation_refl _))
  as (hs3 & target3 & E3 & Hi3 & Hc3 & Hm3 & Hnd3 & Hp3).
cbn [fst snd negb] in E3, Hm3.
rewrite Hc1, Hct in E2. rewrite Hc2, Hc1, Hct in E3. rewrite Hct in E1.
eexists _, _, _. split; [exact E1|]. split; [exact E2|].
split; [exact E3|]. cbn [heads body]. unfold markers.
rewrite Hi1, Hi2, Hi3. cbn [option_map]. rewrite Hm1, Hm2, Hm3.
repeat (split; [reflexivity|]).
intros Hdef Hs.
destruct (based_ingested b0 Hdef Hs) as [Hdef' Hs'].
apply sorted_is_ingested.
- apply byIndex_sorted. intros r Hr. apply Hdef'.
  eapply Permutation_in; [|exact Hr].
  etransitivity; [apply Array_sort_perm|apply Array_sort_perm].
- exact Hs'.
- symmetry. etransitivity; [apply Array_sort_perm|].
  etransitivity; [apply Array_sort_perm|apply Array_sort_perm].
Qed.

(** C5 fails in the code.  [toInitialize] runs [preInitialize] and
    [postInitialize], each of which calls [toSort], and [toSort] adds
    its click handler with no guard against a second one: a sortable
    header cell carries two handlers.  From a cell without marker a
    first click leaves the cell marked DESCENDING.  A click on that
    DESCENDING cell runs the handler that resets the order and clears
    the marker, and then the second handler, which finds the cell
    without marker and sorts again: the rows end in ascending order of
    the column, not in the order of their indices, and the cell ends
    marked ASCENDING, not cleared. *)
Theorem click_on_descending_sorts_again (idxs : list nat) (hs0 : list Th)
        (b0 : list Tr) (i : nat) (th : Th) :
  hs0 !! i = Some th ->
  existsb (fun j => Nat.eqb j (th_cellIndex th)) idxs = false ->
  markers hs0 i = Some (false, false) ->
  NoDup (map node b0) ->
  forallb counted b0 = true ->
  let t := toSort true (map ByIndex idxs)
                  (toSort true (map ByIndex idxs) (mkTable hs0 b0 [])) in
  exists t1 t2,
    clicked localeCompare i t = ([], t1)
    /\ markers (heads t1) i = Some (false, true)
    /\ clicked localeCompare i t1 = ([], t2)
    /\ markers (heads t2) i = Some (true, false)
    /\ markers (heads t2) i <> Some (false, false)
    /\ body t2
       = Array_sort (byColumn localeCompare (th_cellIndex th) true) (body t1).
Proof.
intros Hi Hex Hm Hnd Hall. cbn zeta.
unfold markers in Hm. rewrite Hi in Hm. cbn [option_map] in Hm.
injection Hm as Hup Hdown.
destruct (toSort_twice true idxs hs0 b0 i th Hi Hex Hnd Hall)
  as (hs & tA & tB & target & -> & Hit & Hct & Hmt & HA & HB & Hndb).
rewrite Hup, Hdown in Hmt.
destruct (clicked_twice true i hs (map based b0) (map based b0)
            (map based b0) tA tB target (false, false)
            Hit Hmt HA HB Hndb (Permutation_refl _) (Permutation_refl _))
  as (hs1 & target1 & E1 & Hi1 & Hc1 & Hm1 & Hnd1 & Hp1).
cbn [fst snd negb] in E1, Hm1, Hnd1, Hp1.
destruct (clicked_twice true i hs1 _ _ _ tA tB target1 (false, true)
            Hi1 Hm1 HA HB Hnd1 Hp1 (Permutation_refl _))
  as (hs2 & target2 & E2 & Hi2 & Hc2 & Hm2 & _ & _).
cbn [fst snd negb] in E2, Hm2.
rewrite Hc1, Hct in E2. rewrite Hct in E1.
eexists _, _. split; [exact E1|]. split; [|split; [exact E2|]].
- cbn [heads]. unfold markers. rewrite Hi1. cbn [option_map].
  rewrite Hm1. reflexivity.
- cbn [heads body]. unfold markers. rewrite Hi2. cbn [option_map].
  rewrite Hm2. split; [reflexivity|]. split; [discriminate|reflexivity].
Qed.

(** X22.  The same two handlers with [ascending: false]: the first sorts the
    rows in descending order and marks the cell, the second finds the
    mark and undoes both.  However often the cell is clicked, on a
    table whose rows stand in the order of their indices, no handler
    throws, the rows stay in that order and the cell stays without
    marker. *)
Theorem descending_option_never_sorts (idxs : list nat) (hs0 : list Th)
        (b0 : list Tr) (i : nat) (th : Th) (n : nat) :
  hs0 !! i = Some th ->
  existsb (fun j => Nat.eqb j (th_cellIndex th)) idxs = false ->
  markers hs0 i = Some (false, false) ->
  NoDup (map node b0) ->
  forallb counted b0 = true ->
  (forall r, In r b0 -> index r <> None) ->
  StronglySorted index_lt b0 ->
  let t := toSort false (map ByIndex idxs)
                  (toSort false (map ByIndex idxs) (mkTable hs0 b0 [])) in
  let tn := Nat.iter n (fun t' => snd (clicked localeCompare i t')) t in
  fst (clicked localeCompare i tn) = []
  /\ body (snd (clicked localeCompare i tn)) = body t
  /\ markers (heads (snd (clicked localeCompare i tn))) i
     = Some (false, false).
Proof.
intros Hi Hex Hm Hnd Hall Hdef Hs. cbn zeta.
unfold markers in Hm. rewrite Hi in Hm. cbn [option_map] in Hm.
injection Hm as Hup Hdown.
destruct (toSort_twice false idxs hs0 b0 i th Hi Hex Hnd Hall)
  as (hs & tA & tB & target & -> & Hit & Hct & Hmt & HA & HB & Hndb).
rewrite Hup, Hdown in Hmt. cbn [body].
destruct (based_ingested b0 Hdef Hs) as [Hdef' Hs'].
set (b := map based b0) in *.
assert (Hinv : forall k,
          exists hsk rowsA targetk,
            Nat.iter k (fun t' => snd (clicked localeCompare i t'))
                     (mkTable hs b [mkCall b false tA; mkCall b false tB])
            = mkTable hsk b [mkCall rowsA false tA; mkCall b false tB]
            /\ hsk !! i = Some targetk
            /\ (contains CLASS.SORT.ASCENDING (th_classList targetk),
                contains CLASS.SORT.DESCENDING (th_classList targetk))
               = (false, false)
            /\ Permutation rowsA b).
{ induction k as [|k (hsk & rowsA & targetk & Ek & Hik & Hmk & Hpk)].
  - exists hs, b, target. repeat split; [exact Hit|exact Hmt|reflexivity].
  - rewrite Nat.iter_succ, Ek.
    destruct (clicked_twice false i hsk b rowsA b tA tB targetk
                (false, false) Hik Hmk HA HB Hndb Hpk (Permutation_refl _))
      as (hs' & target' & E & Hi' & _ & Hm' & _ & Hp').
    cbn [fst snd negb] in E, Hm', Hp'.
    rewrite (byIndex_ingested b Hdef' Hs') in E, Hp'.
    rewrite E. cbn [snd]. eexists _, _, _.
    split; [reflexivity|]. split; [exact Hi'|]. split; [exact Hm'|].
    exact Hp'. }
destruct (Hinv n) as (hsn & rowsA & targetn & En & Hin & Hmn & Hpn).
rewrite En.
destruct (clicked_twice false i hsn b rowsA b tA tB targetn
            (false, false) Hin Hmn HA HB Hndb Hpn (Permutation_refl _))
  as (hs' & target' & E & Hi' & _ & Hm' & _ & _).
cbn [fst snd negb] in E, Hm'.
rewrite (byIndex_ingested b Hdef' Hs') in E.
rewrite E. cbn [fst snd body heads]. split; [reflexivity|].
split; [reflexivity|]. unfold markers. rewrite Hi'. cbn [option_map].
rewrite Hm'. reflexivity.
Qed.

End HandlerFacts.

Section HandlerWitnesses.
Import JS Value Dom Sort Spec Handlers.

(** One column, the rows "a" and "b": the first click puts "b" on
    top. *)
Lemma click_runs_two_handlers_witness :
  exists t1,
    clicked Pages.collate 0
            (toSort true [] (toSort true [] Pages.letters))
    = ([], t1)
    /\ markers (heads t1) 0 = Some (false, true)
    /\ map node (body t1) = [1; 0].
Proof.
destruct (click_runs_two_handlers Pages.collate [] Sample.one_column
            [Sample.row 0 "a"; Sample.row 1 "b"] 0 (mkTh 0 [] []))
  as (t1 & t2 & t3 & E1 & _ & _ & Hm1 & Hb1 & _).
- reflexivity.
- reflexivity.
- reflexivity.
- apply (bool_decide_unpack _). vm_compute. exact I.
- reflexivity.
- exists t1. split; [exact E1|]. split; [exact Hm1|].
  rewrite Hb1. vm_compute. reflexivity.
Defined.

(** The same table clicked twice: the second click, on the cell
    marked DESCENDING, leaves "a" above "b" by the sort of the column
    and the cell marked ASCENDING. *)
Lemma click_on_descending_sorts_again_witness :
  exists t1 t2,
    clicked Pages.collate 0
            (toSort true [] (toSort true [] Pages.letters))
    = ([], t1)
    /\ markers (heads t1) 0 = Some (false, true)
    /\ clicked Pages.collate 0 t1 = ([], t2)
    /\ markers (heads t2) 0 = Some (true, false)
    /\ map node (body t2) = [0; 1].
Proof.
destruct (click_on_descending_sorts_again Pages.collate []
            Sample.one_column [Sample.row 0 "a"; Sample.row 1 "b"] 0
            (mkTh 0 [] []))
  as (t1 & t2 & E1 & Hm1 & E2 & Hm2 & _ & Hb2).
- reflexivity.
- reflexivity.
- reflexivity.
- apply (bool_decide_unpack _). vm_compute. exact I.
- reflexivity.
- exists t1, t2. split; [exact E1|]. split; [exact Hm1|].
  split; [exact E2|]. split; [exact Hm2|].
  rewrite Hb2.
  assert (Hb1 : body t1
                = body (snd (clicked Pages.collate 0
                               (toSort true [] (toSort true [] Pages.letters)))))
    by (change (toSort true [] (toSort true [] Pages.letters))
          with (toSort true (map ByIndex [])
                  (toSort true (map ByIndex [])
                     (mkTable Sample.one_column
                        [Sample.row 0 "a"; Sample.row 1 "b"] []))) ;
        rewrite E1; reflexivity).
  rewrite Hb1. vm_compute. reflexivity.
Defined.

(** The same table with [ascending: false], clicked a third time: "a"
    is still above "b". *)
Lemma descending_option_never_sorts_witness :
  fst (clicked Pages.collate 0
         (Nat.iter 2 (fun t' => snd (clicked Pages.collate 0 t'))
                   (toSort false [] (toSort false [] Pages.letters))))
  = []
  /\ map node
       (body (snd (clicked Pages.collate 0
                     (Nat.iter 2 (fun t' => snd (clicked Pages.collate 0 t'))
                               (toSort false []
                                       (toSort false [] Pages.letters))))))
     = [0; 1].
Proof.
destruct (descending_option_never_sorts Pages.collate [] Sample.one_column
            [Sample.row 0 "a"; Sample.row 1 "b"] 0 (mkTh 0 [] []) 2)
  as (Hf & Hb & _).
- reflexivity.
- reflexivity.
- reflexivity.
- apply (bool_decide_unpack _). vm_compute. exact I.
- reflexivity.
- intros r [<-|[<-|[]]]; discriminate.
- repeat constructor.
- split; [exact Hf|]. etransitivity; [exact (f_equal (map node) Hb)|].
  reflexivity.
Defined.

End HandlerWitnesses.

(** ** What runs around a request: [preInitialize], [postInitialize] *)

Section WiringFacts.
Import JS Value Dom Store Pagination Paging Table Spec Notions.

(** The texts of the cells, row by row. *)
Local Abbreviation texts := (map (fun row : Tr => map textContent (children row))).

Lemma matchHere_prefix ic p q text :
  matchHere ic (p ++ q) text = true -> matchHere ic p text = true.
Proof.
revert text. induction p as [|c p IH]; intros text H; [reflexivity|].
destruct text as [|t text]; [discriminate H|].
cbn [app matchHere] in *. apply andb_true_iff in H as [Hc H].
rewrite Hc. apply IH, H.
Qed.

Lemma matchFrom_prefix ic p q text :
  forall i, matchFrom ic p text i = None -> matchFrom ic (p ++ q) text i = None.
Proof.
induction text as [|t text IH]; intros i; cbn [matchFrom].
- destruct (matchHere ic p []) eqn:E; [discriminate|]. intros _.
  destruct (matchHere ic (p ++ q) []) eqn:E'; [|reflexivity].
  apply matchHere_prefix in E'. congruence.
- destruct (matchHere ic p (t :: text)) eqn:E; [discriminate|]. intros H.
  destruct (matchHere ic (p ++ q) (t :: text)) eqn:E'.
  + apply matchHere_prefix in E'. congruence.
  + apply IH, H.
Qed.

(** An address without colon holds no placeholder, whatever the
    payload. *)
Lemma plain_no_placeholders (address : string)
      (d : option (gmap string value)) :
  plain_address address -> placeholders address d = false.
Proof.
unfold plain_address, placeholders, includes. intros H.
destruct d as [d|]; [|reflexivity].
apply not_true_iff_false. intros Hex.
apply existsb_exists in Hex as (key & _ & Hk).
destruct (matchFrom false (list_ascii_of_string ":")
                    (list_ascii_of_string address) 0) eqn:E;
  [discriminate H|].
apply (matchFrom_prefix false _ (list_ascii_of_string key)) in E.
cbn [list_ascii_of_string app] in E, Hk. rewrite E in Hk. discriminate Hk.
Qed.

(** What [toSort] leaves: the rows with the row class, the header
    cells with theirs; nothing else of the instance changes. *)
Lemma based_cells r :
  node (Handlers.based r) = node r /\ index (Handlers.based r) = index r
  /\ children (Handlers.based r) = children r
  /\ isDummy (Handlers.based r) = isDummy r.
Proof.
unfold Handlers.based. destruct (Handlers.counted r); [|repeat split].
repeat split. unfold isDummy. cbn [classList set_classList].
apply contains_add.
Qed.

Lemma toSort_run w :
  exists hs b,
    toSort w
    = (Normal tt, mkWorld (view w) hs b (api w) (fetches w) (elements w))
    /\ relabel (tbody w) b
    /\ map th_cellIndex hs = map th_cellIndex (thead w).
Proof.
unfold toSort. destruct (sorting (sort (elements w))).
- eexists _, _. split; [reflexivity|]. cbn [Handlers.toSort Handlers.heads
    Handlers.body]. split.
  + unfold relabel. induction (tbody w) as [|r rows IH]; [constructor|].
    cbn [map]. constructor; [apply based_cells|exact IH].
  + rewrite map_map. apply map_ext. intros th.
    apply enable_keeps.
- exists (thead w), (tbody w). split; [destruct w; reflexivity|].
  split; [|reflexivity]. unfold relabel.
  induction (tbody w) as [|r rows IH]; constructor; [repeat split|exact IH].
Qed.

Lemma relabel_texts rows rows' :
  relabel rows rows' -> texts rows' = texts rows.
Proof.
induction 1 as [|r r' rows rows' (_ & _ & Hc & _) _ IH]; [reflexivity|].
cbn [map]. rewrite Hc, IH. reflexivity.
Qed.

Lemma relabel_ingested rows rows' :
  relabel rows rows' -> Forall ingested rows -> Forall ingested rows'.
Proof.
induction 1 as [|r r' rows rows' (_ & Hi & _ & Hd) _ IH]; [constructor|].
intros H. apply Forall_cons_iff in H as [[Hr1 Hr2] H].
constructor; [|apply IH, H]. unfold ingested. rewrite Hi, Hd.
split; assumption.
Qed.

Lemma relabel_trans a b c : relabel a b -> relabel b c -> relabel a c.
Proof.
intros Hab. revert c. induction Hab as [|x y a b Hxy _ IH]; intros c Hbc.
- apply Forall2_nil_inv_l in Hbc. subst c. constructor.
- apply Forall2_cons_inv_l in Hbc as (z & c' & Hyz & Hbc & ->).
  constructor; [|apply IH, Hbc].
  destruct Hxy as (H1 & H2 & H3 & H4), Hyz as (K1 & K2 & K3 & K4).
  repeat split; congruence.
Qed.

(** [preInitialize] on an instance made with both options. *)
Lemma preInitialize_run w :
  equipped w ->
  exists hs b,
    preInitialize w
    = (Normal tt, mkWorld (view w) hs b (api w) (fetches w) (elements w))
    /\ relabel (tbody w) b
    /\ map th_cellIndex hs = map th_cellIndex (thead w).
Proof.
intros [He Hc]. unfold preInitialize. rewrite He, Hc. cbn [negb].
apply toSort_run.
Qed.

(** Without one of the options it throws and leaves the instance as
    it was. *)
Lemma preInitialize_refuses w :
  exportAs (elements w) = false \/ colvis (elements w) = false ->
  exists e, preInitialize w = (Throw e, w).
Proof.
unfold preInitialize. intros [H|H].
- rewrite H. eauto.
- destruct (exportAs (elements w)); rewrite ?H; eauto.
Qed.

(** A request on an instance made with both options, to an address
    without placeholder: one more fetch. *)
Lemma request_run a w :
  equipped w -> plain_address (url a) ->
  exists hs b,
    HttpRequest_request a w
    = Some (Normal tt,
            mkWorld (view w) hs b (api w)
                    (fetches w ++ [Some (mkRequest (url a) (data a))])
                    (elements w))
    /\ relabel (tbody w) b
    /\ map th_cellIndex hs = map th_cellIndex (thead w).
Proof.
intros He Hp. unfold HttpRequest_request.
rewrite (plain_no_placeholders _ _ Hp).
destruct (preInitialize_run w He) as (hs & b & E & Hr & Hh).
rewrite E. exists hs, b. split; [reflexivity|]. split; assumption.
Qed.

(** The row loop of [toLimit] keeps the rows that are no placeholder,
    their cells and their indices. *)
Lemma windowed_relabel (items : list number) (body : list Tr) :
  Forall ingested body ->
  relabel body
    (map (fun r => if selected r
                   then if includes_index items r
                        then Rows.show false r else Rows.hide r
                   else r)
         (List.filter (fun r => negb (selected r && isDummy r)) body)).
Proof.
induction 1 as [|r body [_ Hd] _ IH]; [constructor|].
cbn [List.filter]. rewrite Hd, andb_false_r. cbn [negb map].
constructor; [|exact IH].
destruct (selected r); [|repeat split].
destruct (includes_index items r);
  [apply relabel_show|apply relabel_hide].
Qed.

(** [toLimit] with the page size "*" on a wired table whose page is a
    number and whose row count is readable: it returns or throws, and
    the properties stay of that kind. *)
Lemma toLimit_all_run (body : list Tr) (st : state) (p0 : Z) :
  wired st ->
  Forall ingested body ->
  target st !! "page" = Some (VNumber (Num p0)) ->
  countable (default VUndefined (target st !! "total_rows")) ->
  exists c st',
    toLimit_local ALL body st = (c, st')
    /\ wired st'
    /\ (exists p, target st' !! "page" = Some (VNumber (Num p)))
    /\ target st' !! "limit" = Some (VString DEFAULT.LIMIT)
    /\ (forall q, q <> "page" -> q <> "limit" ->
                  target st' !! q = target st !! q)
    /\ ((exists e, c = Throw e)
        \/ exists body' info,
             c = Normal (Some (body', info)) /\ relabel body body').
Proof.
intros Hw Hing Hp Hcount.
assert (Hidx : Forall (fun r => selected r = true -> indexed r) body).
{ eapply Forall_impl; [exact Hing|]. intros r [Hi _] _. exact Hi. }
destruct (toLimit_head_run ALL st p0 Hw Hp)
  as (st1 & Eh & Hl1 & Hp1 & Hq1 & Hw1).
cbn [toLimit_page limit_value] in Hl1, Hp1.
assert (Htr : target st1 !! "total_rows" = target st !! "total_rows")
  by (apply Hq1; discriminate).
unfold toLimit_local. unfold mbind at 1, M_bind at 1, get at 1.
cbn beta iota. unfold mbind at 1, M_bind at 1. rewrite Eh.
assert (Hnan : Math_round_div
                 (ToNumber (default VUndefined (target st !! "total_rows")))
                 (ToNumber (limit_value ALL)) = NaN).
{ change (ToNumber (limit_value ALL)) with NaN.
  destruct (ToNumber _); reflexivity. }
rewrite Hnan.
unfold applyLimitation. unfold mbind at 1, M_bind at 1, get at 1.
cbn beta iota. rewrite Htr.
set (R := List.length (List.filter selected body)).
destruct (totalLength (default VUndefined (target st !! "total_rows")) R)
  as [T|] eqn:ET.
2:{ exfalso. unfold totalLength in ET.
    destruct (default VUndefined (target st !! "total_rows"));
      try discriminate ET; exact Hcount. }
destruct (createPaginationItems T (limitCount ALL R)) as [pagination|e].
2:{ exists (Throw e), st1. split; [reflexivity|]. split; [exact Hw1|].
    split; [eauto|]. split; [exact Hl1|]. split; [exact Hq1|].
    left. eauto. }
unfold mbind at 1, M_bind at 1, get at 1. cbn beta iota.
rewrite Hp1. cbn [default from_option id numeric toNumber Math_max Math_min].
set (cp := Z.min (Z.max 1 DEFAULT.PAGE) (Z.of_nat (List.length pagination))).
destruct (proxy_set_plain "page" (VNumber (Num cp)) st1 Hw1
            (fun a => strictEquals_finite a cp) ltac:(discriminate))
  as (st2 & E2 & Hp2 & Hq2 & Hw2).
unfold mbind, M_bind. rewrite E2. unfold mret, M_ret.
rewrite (limit_rows_indexed _ _ body Hidx 0). cbn [option_map].
eexists _, st2. split; [reflexivity|]. split; [exact Hw2|].
split; [eauto|].
split; [rewrite Hq2 by discriminate; exact Hl1|].
split.
{ intros q Hqp Hql. rewrite Hq2, Hq1 by assumption. reflexivity. }
right. eexists _, _. split; [reflexivity|]. apply windowed_relabel, Hing.
Qed.

Lemma relabel_refl rows : relabel rows rows.
Proof. induction rows; constructor; [repeat split|assumption]. Qed.

Lemma kept_refl w : kept w w.
Proof. unfold kept. split; [apply relabel_refl|repeat split]. Qed.

Lemma kept_trans a b c : kept a b -> kept b c -> kept a c.
Proof.
intros (H1 & H2 & H3 & H4 & H5 & H6 & H7) (K1 & K2 & K3 & K4 & K5 & K6 & K7).
split; [eapply relabel_trans; eassumption|].
repeat split; congruence.
Qed.

Lemma toLimit_control_searched el w :
  searched w ->
  exists c w',
    toLimit_control el w = Some (c, w') /\ searched w' /\ kept w w'.
Proof.
intros (Hw & Hl & [p Hp] & Hc & Hing). unfold toLimit_control.
destruct (negb (Contracts.reportsTo _)).
{ eexists _, w. split; [reflexivity|]. split; [|apply kept_refl].
  unfold searched. eauto 10. }
assert (Has : as_limit (default VUndefined (target (view w) !! "limit"))
              = Some ALL) by (rewrite Hl; reflexivity).
rewrite Has.
destruct (toLimit_all_run (tbody w) (view w) p Hw Hing Hp Hc)
  as (c & st' & E & Hw' & Hp' & Hl' & Hq & Hout).
rewrite E.
assert (Htr : target st' !! "total_rows" = target (view w) !! "total_rows")
  by (apply Hq; discriminate).
assert (Hse : target st' !! "search" = target (view w) !! "search")
  by (apply Hq; discriminate).
destruct Hout as [[e ->]|(body' & info & -> & Hrel)].
- eexists _, _. split; [reflexivity|]. split.
  + unfold searched. cbn [view tbody].
    split; [exact Hw'|]. split; [exact Hl'|]. split; [exact Hp'|].
    split; [rewrite Htr; exact Hc|exact Hing].
  + unfold kept. cbn [view thead tbody api fetches elements].
    split; [apply relabel_refl|]. repeat split; assumption.
- eexists _, _. split; [reflexivity|]. split.
  + unfold searched. cbn [view tbody].
    split; [exact Hw'|]. split; [exact Hl'|]. split; [exact Hp'|].
    split; [rewrite Htr; exact Hc|].
    eapply relabel_ingested; eassumption.
  + unfold kept. cbn [view thead tbody api fetches elements].
    split; [exact Hrel|]. repeat split; assumption.
Qed.

Lemma forEach_limit_searched els :
  forall w,
    searched w ->
    exists c w',
      forEach toLimit_control els w = Some (c, w')
      /\ searched w' /\ kept w w'.
Proof.
induction els as [|el els IH]; intros w Hs.
- eexists _, w. split; [reflexivity|]. split; [exact Hs|apply kept_refl].
- cbn [forEach]. unfold mbind, R_bind.
  destruct (toLimit_control_searched el w Hs) as (c & w1 & E & Hs1 & Hk1).
  rewrite E. destruct c as [[]|e].
  + destruct (IH w1 Hs1) as (c2 & w2 & E2 & Hs2 & Hk2).
    exists c2, w2. split; [exact E2|]. split; [exact Hs2|].
    eapply kept_trans; eassumption.
  + eexists _, w1. split; [reflexivity|]. split; assumption.
Qed.

(** [postInitialize] after a response to a search: it returns or
    throws, and the rows keep their cells. *)
Lemma postInitialize_searched w :
  searched w ->
  exists c w',
    postInitialize w = Some (c, w') /\ searched w' /\ kept w w'.
Proof.
intros Hs. pose proof Hs as (Hw & Hl & Hp & Hc & Hing).
unfold postInitialize. destruct Hw as (pg & Epg & Hsf). rewrite Epg.
destruct (negb (colvis (elements w))).
{ eexists _, w. split; [reflexivity|]. split; [exact Hs|apply kept_refl]. }
unfold mbind at 1, R_bind at 1, inside.
destruct (toSort_run w) as (hs & b & E & Hrel & Hh). rewrite E.
set (w1 := mkWorld (view w) hs b (api w) (fetches w) (elements w)) in *.
assert (Hs1 : searched w1).
{ unfold searched, w1. cbn [view tbody].
  split; [exists pg; split; assumption|].
  split; [exact Hl|]. split; [exact Hp|]. split; [exact Hc|].
  eapply relabel_ingested; eassumption. }
assert (Hk1 : kept w w1).
{ unfold kept, w1. cbn [view thead tbody api fetches elements].
  split; [exact Hrel|]. repeat split; try reflexivity. exact Hh. }
unfold mbind, R_bind.
destruct (forEach_limit_searched (controls_of "local" "limit" pg) w1 Hs1)
  as (c2 & w2 & E2 & Hs2 & Hk2).
rewrite E2. destruct c2 as [[]|e].
- destruct (forEach_limit_searched (controls_of "api" "limit" pg) w2 Hs2)
    as (c3 & w3 & E3 & Hs3 & Hk3).
  exists c3, w3. split; [exact E3|]. split; [exact Hs3|].
  eapply kept_trans; [exact Hk1|]. eapply kept_trans; eassumption.
- eexists _, w2. split; [reflexivity|]. split; [exact Hs2|].
  eapply kept_trans; eassumption.
Qed.

End WiringFacts.

(** ** Remote searches *)

Section RemoteFacts.
Import JS Value Dom Store Table Spec.

(** The texts of the cells, row by row. *)
Local Abbreviation texts := (map (fun row : Tr => map textContent (children row))).

Lemma run_step e es w w' :
  step e w = Some (Normal tt, w') -> run (e :: es) w = run es w'.
Proof. intros H. cbn [run]. unfold mbind, R_bind. rewrite H. reflexivity. Qed.

(** The texts a rendered body shows do not depend on the identities
    given to its rows. *)
Lemma rendered_texts base rows :
  map (fun row => map textContent (children row)) (rendered_body base rows)
  = map (fun row => map textContent (children row)) (rendered_body 0 rows).
Proof.
unfold rendered_body. destruct rows as [|first rest]; [reflexivity|].
set (keys := map fst first).
change (map (fun row => map textContent (children row)))
  with (fmap (M := list) (fun row : Tr => map textContent (children row))).
rewrite !fmap_imap. apply imap_ext. reflexivity.
Qed.

(** The rows of a rendering carry an index and no row is a
    placeholder. *)
Lemma rendered_ingested base rows : Forall ingested (rendered_body base rows).
Proof.
unfold rendered_body. destruct rows as [|first rest]; [constructor|].
apply Forall_lookup. intros i r Hi.
rewrite list_lookup_imap in Hi.
destruct ((first :: rest) !! i) as [item|]; [|discriminate Hi].
injection Hi as <-. split; [discriminate|reflexivity].
Qed.

(** Searching twice for the same keyword builds the same payload. *)
Lemma search_payload_idem keyword data :
  search_payload keyword (Some (search_payload keyword data))
  = search_payload keyword data.
Proof.
unfold search_payload. cbn [default].
destruct (String.eqb keyword ""); apply map_eq; intros k;
  destruct (decide (k = "search")) as [->|?];
  [|destruct (decide (k = "page")) as [->|?];
    [|destruct (decide (k = "limit")) as [->|?]]|
   |destruct (decide (k = "page")) as [->|?];
    [|destruct (decide (k = "limit")) as [->|?]]];
  simplify_map_eq; reflexivity.
Qed.

(** A remote search on a sourced instance made with both options
    sends one more request: the address and the payload, nothing
    else. *)
Lemma step_search a keyword w :
  sourced a w -> equipped w -> plain_address (url a) ->
  url a <> "" -> init a = false ->
  exists w' d,
    api w = Some (mkApi (url a) (init a) (api_rendering a) d)
    /\ step (Search keyword) w = Some (Normal tt, w')
    /\ sourced a w'
    /\ equipped w'
    /\ api w' = Some (mkApi (url a) (init a) (api_rendering a)
                            (Some (search_payload keyword d)))
    /\ fetches w'
       = fetches w
         ++ [Some (mkRequest (url a) (Some (search_payload keyword d)))]
    /\ relabel (tbody w) (tbody w')
    /\ target (view w') !! "limit" = Some (VString DEFAULT.LIMIT)
    /\ target (view w') !! "page" = Some (VNumber (Num DEFAULT.PAGE))
    /\ target (view w') !! "total_rows" = target (view w) !! "total_rows".
Proof.
intros [Hw [d Ha]] He Hplain Hurl Hinit.
destruct a as [address i rendering d0].
cbn [url init api_rendering data] in *. subst i.
destruct (toSearch_head_wired keyword w Hw)
  as (st & Hhead & _ & Hl & Hp & Hw').
assert (Htr : target st !! "total_rows" = target (view w) !! "total_rows").
{ destruct (toSearch_head_frame keyword w Hw) as (st0 & E0 & Hq).
  rewrite Hhead in E0. injection E0 as <-. apply Hq; discriminate. }
assert (Hu : String.eqb address "" = false) by (apply String.eqb_neq, Hurl).
set (w1 := mkWorld st (thead w) (tbody w)
             (Some (mkApi address false rendering
                          (Some (search_payload keyword d))))
             (fetches w) (elements w)).
destruct (request_run
            (mkApi address false rendering
                   (Some (search_payload keyword d))) w1 He Hplain)
  as (hs & b & Er & Hrel & _).
eexists _, d. split; [exact Ha|]. split.
{ unfold step, toSearch, toSearch_switch, toInitialize, set_api, inside,
    mbind, R_bind, mret, R_ret.
  rewrite Hhead. cbn [api view thead tbody fetches elements]. rewrite Ha.
  cbn [api url init api_rendering data option_map].
  rewrite Hu. cbn [negb andb orb]. fold w1. rewrite Er.
  reflexivity. }
cbn [view thead tbody api fetches elements url data].
split; [split; [exact Hw'|eauto]|]. split; [exact He|].
split; [reflexivity|]. split; [reflexivity|]. split; [exact Hrel|].
split; [exact Hl|]. split; [exact Hp|exact Htr].
Qed.

(** A response that holds rows, to a fetch in flight, is rendered as
    it comes; what [postInitialize] does after it keeps the cells. *)
Lemma step_resolve a i req r w :
  sourced a w ->
  fetches w !! i = Some (Some req) ->
  resp_rows r <> [] ->
  target (view w) !! "limit" = Some (VString DEFAULT.LIMIT) ->
  (exists p, target (view w) !! "page" = Some (VNumber (Num p))) ->
  countable (default VUndefined (target (view w) !! "total_rows")) ->
  exists w',
    step (Resolve i r) w = Some (Normal tt, w')
    /\ sourced a w'
    /\ shows w' r
    /\ fetches w' = <[i := None]> (fetches w)
    /\ elements w' = elements w
    /\ target (view w') !! "limit" = Some (VString DEFAULT.LIMIT)
    /\ (exists p, target (view w') !! "page" = Some (VNumber (Num p)))
    /\ countable (default VUndefined (target (view w') !! "total_rows")).
Proof.
intros [Hw [d Ha]] Hi Hrows Hl Hp Hc.
set (w1 := mkWorld (view w) (thead w) (tbody w) (api w)
                   (<[i := None]> (fetches w)) (elements w)).
(* the rendering *)
assert (Hsuccess :
  exists w2,
    success (mkApi (url a) (init a) (api_rendering a) d) r w1
    = (Normal tt, w2)
    /\ searched w2 /\ shows w2 r
    /\ api w2 = api w /\ fetches w2 = <[i := None]> (fetches w)
    /\ elements w2 = elements w).
{ assert (Hrender : forall w0,
            exists w0',
              toRender (resp_rows r) w0 = (Normal tt, w0')
              /\ view w0' = view w0 /\ api w0' = api w0
              /\ fetches w0' = fetches w0 /\ elements w0' = elements w0
              /\ shows w0' r /\ Forall ingested (tbody w0')).
  { intros w0. unfold toRender, set_document, shows.
    destruct (resp_rows r) as [|first rest] eqn:Er; [congruence|].
    eexists. split; [reflexivity|].
    cbn [view api fetches tbody elements].
    repeat (split; [reflexivity|]).
    split; [apply rendered_texts|apply rendered_ingested]. }
  unfold success. cbn [api_rendering].
  destruct (api_rendering a) as [t|] eqn:Erd.
  - set (n := match resp_total_rows r with
              | Some n => if (n =? 0)%Z
                          then Z.of_nat (List.length (resp_rows r)) else n
              | None => Z.of_nat (List.length (resp_rows r))
              end).
    destruct (on_view_proxy_set "total_rows" (VNumber (Num n)) w1 Hw
                (fun x => strictEquals_finite x n) ltac:(discriminate))
      as (st & E & Ht & Hq & Hw').
    unfold mbind, W_bind. rewrite E.
    destruct (Hrender (mkWorld st (thead w1) (tbody w1) (api w1)
                               (fetches w1) (elements w1)))
      as (w2 & Er' & Hv & Hap & Hf & Hel & Hs & Hing).
    rewrite Er'. exists w2. split; [reflexivity|].
    cbn [view api fetches elements w1] in Hv, Hap, Hf, Hel.
    split; [|repeat split; assumption].
    unfold searched. rewrite Hv.
    split; [exact Hw'|].
    split; [rewrite Hq by discriminate; exact Hl|].
    split; [destruct Hp as [p Hp]; exists p;
            rewrite Hq by discriminate; exact Hp|].
    split; [rewrite Ht; exact I|exact Hing].
  - destruct (Hrender w1) as (w2 & Er' & Hv & Hap & Hf & Hel & Hs & Hing).
    rewrite Er'. exists w2. split; [reflexivity|].
    cbn [view api fetches elements w1] in Hv, Hap, Hf, Hel.
    split; [|repeat split; assumption].
    unfold searched. rewrite Hv. repeat split; assumption. }
destruct Hsuccess as (w2 & E2 & Hs2 & Hsh2 & Hap2 & Hf2 & Hel2).
destruct (postInitialize_searched w2 Hs2)
  as (c & w3 & E3 & (Hw3 & Hl3 & Hp3 & Hc3 & _) & Hk).
destruct Hk as (Hrel & _ & Hap3 & Hf3 & Hel3 & _ & _).
exists w3. split.
{ unfold step. rewrite Hi, Ha.
  unfold mbind, R_bind, inside, unheard, settle. fold w1.
  rewrite E2, E3. reflexivity. }
split; [split; [exact Hw3|rewrite Hap3, Hap2; eauto]|].
split.
{ unfold shows in *. rewrite (relabel_texts _ _ Hrel). exact Hsh2. }
split; [congruence|]. split; [congruence|].
split; [exact Hl3|]. split; [exact Hp3|exact Hc3].
Qed.

Lemma lookup_last_two {A} (l : list A) x y :
  (l ++ [x; y]) !! List.length l = Some x
  /\ (l ++ [x; y]) !! S (List.length l) = Some y.
Proof. induction l as [|z l IH]; [split; reflexivity|exact IH]. Qed.


End RemoteFacts.

Section RemoteWitness.
Import JS Value Dom Store Table Spec.

Lemma sample_remote_sourced :
  sourced (mkApi "/rows" false (RenderingObject "rows") None)
          Sample.remote_world.
Proof. split; [apply sample_view_wired|eexists; reflexivity]. Qed.



End RemoteWitness.

(** ** A response without rows *)

Section EmptyResponseFacts.
Import JS Value Dom Store Table Spec.

(** X23.  [toRender] returns before it clears the table when the data are
    empty, and [postInitialize], which runs after the response, changes
    classes and the page only.  So, on an instance as a search leaves
    it (page size "*", the page a number, rows those of a rendering), a
    response without rows to a fetch in flight leaves the rows of the
    table in place, each with its index and its cells, the rows of an
    earlier response included, and the columns of the head; while
    [total_rows] is set from the response: to its [total_rows], or
    to 0 when it has none. *)
Theorem empty_response_keeps_rows (a : Api) (i : nat) (req : request)
        (r : response) (w : world) :
  sourced a w ->
  searched w ->
  fetches w !! i = Some (Some req) ->
  resp_rows r = [] ->
  exists w',
    step (Resolve i r) w = Some (Normal tt, w')
    /\ relabel (tbody w) (tbody w')
    /\ map th_cellIndex (thead w') = map th_cellIndex (thead w)
    /\ fetches w' = <[i := None]> (fetches w)
    /\ (forall key,
          api_rendering a = RenderingObject key ->
          target (view w') !! "total_rows"
          = Some (VNumber (Num (default 0%Z (resp_total_rows r))))).
Proof.
intros [Hw [d Ha]] (_ & Hl & Hp & Hc & Hing) Hi Hrows.
set (w1 := mkWorld (view w) (thead w) (tbody w) (api w)
                   (<[i := None]> (fetches w)) (elements w)).
assert (Hsuccess :
  exists w2,
    success (mkApi (url a) (init a) (api_rendering a) d) r w1
    = (Normal tt, w2)
    /\ searched w2
    /\ thead w2 = thead w /\ tbody w2 = tbody w
    /\ fetches w2 = <[i := None]> (fetches w)
    /\ (forall key,
          api_rendering a = RenderingObject key ->
          target (view w2) !! "total_rows"
          = Some (VNumber (Num (default 0%Z (resp_total_rows r)))))).
{ unfold success, mbind, W_bind. cbn [api_rendering].
  rewrite Hrows. unfold toRender.
  destruct (api_rendering a) as [key|] eqn:Erd.
  - set (n := match resp_total_rows r with
              | Some n => if (n =? 0)%Z
                          then Z.of_nat (List.length (@nil (list (string * string))))
                          else n
              | None => Z.of_nat (List.length (@nil (list (string * string))))
              end).
    assert (Hn : n = default 0%Z (resp_total_rows r)).
    { unfold n. destruct (resp_total_rows r) as [z|]; [|reflexivity].
      destruct (z =? 0)%Z eqn:E; [|reflexivity].
      apply Z.eqb_eq in E. subst z. reflexivity. }
    destruct (on_view_proxy_set "total_rows" (VNumber (Num n)) w1 Hw
                (fun x => strictEquals_finite x n) ltac:(discriminate))
      as (st & E & Ht & Hq & Hw').
    rewrite E. eexists. split; [reflexivity|].
    cbn [thead tbody fetches view w1].
    split.
    { unfold searched. cbn [view tbody].
      split; [exact Hw'|].
      split; [rewrite Hq by discriminate; exact Hl|].
      split; [destruct Hp as [p Hp]; exists p;
              rewrite Hq by discriminate; exact Hp|].
      split; [rewrite Ht; exact I|exact Hing]. }
    repeat (split; [reflexivity|]). intros key' _. rewrite Ht, Hn.
    reflexivity.
  - eexists. split; [reflexivity|]. cbn [thead tbody fetches view w1].
    split; [unfold searched; cbn [view tbody]; repeat split; assumption|].
    repeat (split; [reflexivity|]). intros key' H. discriminate H. }
destruct Hsuccess as (w2 & E2 & Hs2 & Hh2 & Hb2 & Hf2 & Ht2).
destruct (postInitialize_searched w2 Hs2) as (c & w3 & E3 & _ & Hk).
destruct Hk as (Hrel & Hcols & _ & Hf3 & _ & Ht3 & _).
exists w3. split.
{ unfold step. rewrite Hi, Ha.
  unfold mbind, R_bind, inside, unheard, settle. fold w1.
  rewrite E2, E3. reflexivity. }
rewrite Hb2 in Hrel. rewrite Hh2 in Hcols.
split; [exact Hrel|]. split; [exact Hcols|]. split; [congruence|].
intros key Hk. rewrite Ht3. exact (Ht2 key Hk).
Qed.

(** The sample instance, searched, with a fetch in flight, gets an
    empty answer: its two rows stay. *)
Lemma empty_response_keeps_rows_witness :
  sourced (mkApi "/rows" false (RenderingObject "rows") None)
          Sample.awaiting
  /\ searched Sample.awaiting
  /\ exists w',
       step (Resolve 0 (mkResponse [] None)) Sample.awaiting
       = Some (Normal tt, w')
       /\ relabel Sample.fruit (tbody w')
       /\ target (view w') !! "total_rows" = Some (VNumber (Num 0)).
Proof.
assert (Hs : sourced (mkApi "/rows" false (RenderingObject "rows") None)
                     Sample.awaiting).
{ split; [apply sample_view_wired|]. exists None. reflexivity. }
assert (Hr : searched Sample.awaiting).
{ split; [apply sample_view_wired|]. split; [reflexivity|].
  split; [eexists; reflexivity|]. split; [exact I|].
  repeat constructor; discriminate. }
split; [exact Hs|]. split; [exact Hr|].
destruct (empty_response_keeps_rows
            (mkApi "/rows" false (RenderingObject "rows") None) 0
            (mkRequest "/rows" None) (mkResponse [] None)
            Sample.awaiting Hs Hr eq_refl eq_refl)
  as (w' & E & Hb & _ & _ & Ht).
exists w'. split; [exact E|]. split; [exact Hb|].
exact (Ht "rows" eq_refl).
Defined.

End EmptyResponseFacts.

(** ** Paging after a search *)

Section SearchThenPaginate.
Import JS Value Dom Store Pagination Rows Table Spec Paging Notions.

(** The loop of a search keeps the rows selected that were. *)
Lemma search_reduce_selected ei rows :
  forall p n rows' n' p',
    search_reduce ei p n rows = (rows', n', p') ->
    map selected rows' = map selected rows.
Proof.
induction rows as [|row rows IH]; intros p n rows' n' p' H.
- cbn in H. injection H as <- <- <-. reflexivity.
- cbn [search_reduce] in H.
  destruct (RegExp_test p (join " " (textContents ei row)))
    as [p1 isSearched].
  destruct (search_reduce ei p1 (if isSearched then (n + 1)%Z else n) rows)
    as [[rest n1] p2] eqn:Er.
  injection H as <- <- <-. cbn [map]. rewrite (IH _ _ _ _ _ Er).
  destruct (isSearched || isDummy row);
    [rewrite selected_show|rewrite selected_hide]; reflexivity.
Qed.

Lemma all_selected (rows : list Tr) :
  forallb selected rows = true ->
  List.filter selected rows = rows.
Proof.
induction rows as [|r rows IH]; [reflexivity|]. cbn [forallb List.filter].
intros H. apply andb_true_iff in H as [Hr Hall].
rewrite Hr, (IH Hall). reflexivity.
Qed.

Lemma ceil_div_same (n : Z) : (0 < n)%Z -> ceil_div n n = 1%Z.
Proof. intros Hn. pose proof (ceil_div_bounds n n Hn). nia. Qed.



End SearchThenPaginate.

(** ** What a filter leaves alone *)

Section FilterFrame.
Import JS Value Dom Store Rows Table Spec Filtering.

(** A write to a property other than [limit] and [page] resets no
    control. *)
Lemma proxy_set_keeps_controls property v st :
  String.eqb property "limit" || String.eqb property "page" = false ->
  controls (snd (proxy_set property v st)) = controls st.
Proof.
intros Hp. destruct st as [tg pg cs nt].
lazy beta iota zeta delta
     [proxy_set propertiesListener forEach_collection paginate_entries
      record_call reset_controls throw get put mbind M_bind
      mret M_ret target paginate controls notified].
rewrite Hp.
destruct (negb (strictEquals (default VUndefined (tg !! property)) v));
  [|reflexivity].
destruct pg; reflexivity.
Qed.



End FilterFrame.

(** ** Paging through the remote source *)

Section RemotePagingFacts.
Import JS Value Dom Store Pagination Rows Table Spec Paging Notions.
Import RemotePaging.

(** The page a payload ends with. *)
Lemma processPagination_clamps (data : gmap string value) (p l t : Z) :
  data !! "page" = Some (VNumber (Num p)) ->
  data !! "limit" = Some (VNumber (Num l)) ->
  (0 < l)%Z -> (0 <= t)%Z -> (1 <= p)%Z ->
  processPagination data (VNumber (Num t))
  = <["page" := VNumber (Num (Z.max 1 (Z.min p (round_div t l))))]> data.
Proof.
intros Hp Hl Hlim Ht Hp1.
pose proof (round_div_nonneg t l Ht Hlim) as Hr.
unfold processPagination. rewrite Hp, Hl. cbn [orDefault ToNumber].
rewrite (Math_round_div_pos _ _ Hlim). cbn [Math_max Math_min].
rewrite (insert_id data "limit" _ Hl). f_equal. f_equal.
replace (Z.min (Z.max 1 p) (round_div t l))
  with (Z.min p (round_div t l)) by lia.
destruct (Z.eq_dec (Z.min p (round_div t l)) 0%Z) as [E|E].
- rewrite E. reflexivity.
- replace (Z.max 1 (Z.min p (round_div t l)))
    with (Z.min p (round_div t l)) by lia.
  destruct (Z.min p (round_div t l)); try reflexivity.
  contradiction E. reflexivity.
Qed.

(** The page [toPaginate] moves to, from a page within the pages it
    counts. *)
Local Abbreviation neighbour := (fun (as_ : direction) (p0 PL : Z) => match as_ with Next => Z.min (p0 + 1) PL | Previous => Z.max 1 (p0 - 1) end).

(** [toPaginate] through the remote source, the table showing [R]
    rows of the [t] the source has: [c], the page size capped at [R],
    decides where the page moves; the page size itself decides what
    page is asked for. *)
Lemma toPaginate_remote_run (as_ : direction) (a : Api) (l t p0 : Z)
      (w : world) :
  sourced a w -> equipped w -> plain_address (url a) ->
  url a <> "" -> init a = false ->
  target (view w) !! "limit" = Some (VNumber (Num l)) ->
  target (view w) !! "page" = Some (VNumber (Num p0)) ->
  target (view w) !! "total_rows" = Some (VNumber (Num t)) ->
  (0 < l)%Z ->
  (0 < Z.of_nat (List.length (List.filter selected (tbody w))))%Z ->
  (0 < t <= 2 ^ 32 - 1)%Z ->
  let c := Z.min l (Z.of_nat (List.length (List.filter selected (tbody w)))) in
  (1 <= p0 <= round_div t c)%Z ->
  let p := neighbour as_ p0 (round_div t c) in
  let q := Z.max 1 (Z.min p (round_div t l)) in
  exists info w' d,
    api w = Some (mkApi (url a) (init a) (api_rendering a) d)
    /\ toPaginate_remote as_ w = Some (Normal (Some info), w')
    /\ target (view w') !! "page" = Some (VNumber (Num p))
    /\ target (view w') !! "search" = Some (VString "")
    /\ relabel (tbody w) (tbody w')
    /\ fetches w'
       = fetches w
         ++ [Some (mkRequest (url a)
                     (Some (delete "search"
                              (<["page" := VNumber (Num q)]>
                                 (<["limit" := VNumber (Num l)]>
                                    (default ∅ d))))))]
    /\ current_page info = Num p
    /\ total_page info = Num (round_div t c).
Proof.
intros [Hw [d Ha]] He Hplain Hurl Hinit Hl Hp Ht Hlpos HR Htpos c Hp0 p q.
destruct a as [address i rendering d0].
cbn [url init api_rendering data] in *. subst i.
set (R := List.length (List.filter selected (tbody w))) in *.
assert (Hc : (0 < c)%Z) by (unfold c; lia).
assert (Hct : (0 < c <= c)%Z) by lia.
pose proof (round_le_ceil t c c ltac:(lia) Hct) as Hrc.
assert (Hpb : (1 <= p <= round_div t c)%Z)
  by (unfold p; destruct as_; lia).
destruct (toPaginate_local_run as_ (tbody w) (view w) (Limit (Num l)) p0
            (Num t) t
            (map (fun i => map Num (chunk t c i)) (upto (ceil_div t c)))
            Hw)
  as (st' & Erun & Hpage & Hsearch & Hframe & Hw').
{ rewrite Hl. reflexivity. }
{ exact Hp. }
{ rewrite Ht. reflexivity. }
{ rewrite Ht. reflexivity. }
{ fold R. rewrite limitCount_min. fold c.
  apply createPaginationItems_pages; lia. }
fold R in Erun, Hpage. rewrite limitCount_min in Erun, Hpage.
fold c in Erun, Hpage.
rewrite (Math_round_div_pos _ _ Hc) in Erun, Hpage.
assert (HPL : toNumber (Num (round_div t c))
                (Num (Z.of_nat
                        (List.length
                           (map (fun i => map Num (chunk t c i))
                                (upto (ceil_div t c))))))
              = Num (round_div t c)).
{ destruct (round_div t c) eqn:E; try reflexivity. lia. }
rewrite HPL in Erun, Hpage.
assert (Hmoved :
  match as_ with
  | Next =>
      if num_lt (Num 0) (Num p0) && num_lt (Num p0) (Num (round_div t c))
      then Math_min (num_add (Num p0) (Num 1)) (Num (round_div t c))
      else Num p0
  | Previous =>
      if num_lt (Num 0) (Num p0) && num_le (Num p0) (Num (round_div t c))
      then Math_max (Num 1) (num_sub (Num p0) (Num 1))
      else Num p0
  end = Num p).
{ unfold p. destruct as_; cbn [num_lt num_le num_add num_sub num_neg
                               Math_min Math_max].
  - destruct (0 <? p0)%Z eqn:E0; [|apply Z.ltb_ge in E0; lia].
    destruct (p0 <? round_div t c)%Z eqn:E1; cbn [andb].
    + reflexivity.
    + apply Z.ltb_ge in E1. f_equal. lia.
  - destruct (0 <? p0)%Z eqn:E0; [|apply Z.ltb_ge in E0; lia].
    destruct (p0 <=? round_div t c)%Z eqn:E1; cbn [andb].
    + f_equal; try lia.
    + apply Z.leb_gt in E1. lia. }
rewrite Hmoved in Erun, Hpage.
assert (Hat : at_index (map (fun i => map Num (chunk t c i))
                            (upto (ceil_div t c)))
                       (num_sub (Num p) (Num 1))
              = Some (map Num (chunk t c (p - 1)))).
{ unfold at_index. cbn [num_sub num_neg num_add].
  replace (p + - (1))%Z with (p - 1)%Z by lia.
  destruct (p - 1 <? 0)%Z eqn:E; [lia|].
  rewrite nth_error_map, upto_nth by lia. reflexivity. }
rewrite Hat in Erun.
assert (Hl' : target st' !! "limit" = Some (VNumber (Num l)))
  by (rewrite Hframe by discriminate; exact Hl).
assert (Ht' : target st' !! "total_rows" = Some (VNumber (Num t)))
  by (rewrite Hframe by discriminate; exact Ht).
assert (Hu : String.eqb address "" = false) by (apply String.eqb_neq, Hurl).
assert (Hpay : processPagination
                 (<["limit" := VNumber (Num l)]>
                    (<["page" := VNumber (Num p)]> (default ∅ d)))
                 (VNumber (Num t))
               = <["page" := VNumber (Num q)]>
                   (<["limit" := VNumber (Num l)]> (default ∅ d))).
{ rewrite (processPagination_clamps _ p l t); try lia.
  - fold q. apply map_eq. intros k.
    destruct (decide (k = "page")) as [->|Hk].
    + rewrite !lookup_insert_eq. reflexivity.
    + rewrite !(lookup_insert_ne _ "page") by congruence.
      destruct (decide (k = "limit")) as [->|Hk'].
      * rewrite !lookup_insert_eq. reflexivity.
      * rewrite !(lookup_insert_ne _ "limit") by congruence.
        rewrite lookup_insert_ne by congruence. reflexivity.
  - rewrite lookup_insert_ne by discriminate. apply lookup_insert_eq.
  - apply lookup_insert_eq. }
set (payload := delete "search"
                  (<["page" := VNumber (Num q)]>
                     (<["limit" := VNumber (Num l)]> (default ∅ d)))).
set (w1 := mkWorld st' (thead w) (tbody w)
             (Some (mkApi address false rendering (Some payload)))
             (fetches w) (elements w)).
destruct (request_run (mkApi address false rendering (Some payload)) w1
            He Hplain)
  as (hs & b & Er & Hrel & _).
eexists _, _, d. split; [exact Ha|]. split.
{ unfold toPaginate_remote. rewrite Erun.
  unfold toPaginate_switch_api. cbn [api view].
  rewrite Ha, Hpage, Hl', Ht'. cbn [default from_option id data].
  unfold paginate_payload, property_toNumber.
  replace (toNumber (Num p) (Num 1)) with (Num p)
    by (destruct p; try reflexivity; lia).
  cbn [option_map]. rewrite Hpay. fold payload.
  unfold set_api, toInitialize, inside, mbind, R_bind, mret, R_ret.
  cbn [api view thead tbody fetches elements url init api_rendering data].
  rewrite Hu. cbn [negb andb orb]. fold w1. rewrite Er. reflexivity. }
cbn [view tbody fetches w1 url data].
split; [exact Hpage|]. split; [exact Hsearch|]. split; [exact Hrel|].
split; [reflexivity|].
unfold window_info. cbn [current_page total_page].
rewrite !toNumber_Num. split; reflexivity.
Qed.





End RemotePagingFacts.
